(** * MaxText attention layer: attention kernels and key/value cache

    A shallow embedding of [MaxText/layers/attentions.py] (class
    [AttentionOp]) and the properties of its masking, its online-softmax
    combination and its two-region key/value cache.

    Arrays are total functions from index lists to elements, paired with a
    shape and an element type tag.  Floating-point values are embedded in
    the real numbers (rounding is not part of the model); [int32] values
    are integers with the wrap-around written out. *)

From Stdlib Require Import String.
From Stdlib Require Import Reals Lra ZArith Lia Bool PeanoNat List.
Import ListNotations.

Set Implicit Arguments.

(* ================================================================= *)
(** ** Arrays *)

Inductive DType : Type :=
| bfloat16 | float32 | int8 | int32 | bool_
| py_scalar.   (* a Python number: weakly typed, adopts the other operand's type *)

Definition DType_eqb (a b : DType) : bool :=
  match a, b with
  | bfloat16, bfloat16 | float32, float32 | int8, int8
  | int32, int32 | bool_, bool_ | py_scalar, py_scalar => true
  | _, _ => false
  end.

(** Result type of a binary operation. *)
Definition promote (a b : DType) : DType :=
  match a, b with
  | py_scalar, d | d, py_scalar => d
  | float32, _ | _, float32 => float32
  | bfloat16, _ | _, bfloat16 => bfloat16
  | int32, _ | _, int32 => int32
  | int8, _ | _, int8 => int8
  | bool_, bool_ => bool_
  end.

Record Tensor (A : Type) : Type := mkTensor {
  dtype : DType;
  shape : list nat;
  at_ : list nat -> A
}.

Arguments mkTensor {A} _ _ _.

Definition ndim {A} (x : Tensor A) : nat := length (shape x).

(** [ix] addresses an element of an array of shape [sh]. *)
Fixpoint in_bounds (ix sh : list nat) : Prop :=
  match ix, sh with
  | [], [] => True
  | i :: ix', n :: sh' => (i < n)%nat /\ in_bounds ix' sh'
  | _, _ => False
  end.

(** Two arrays are the same array when they agree on type, shape and
    every addressable element. *)
Definition tensor_eq {A} (x y : Tensor A) : Prop :=
  dtype x = dtype y /\ shape x = shape y /\
  forall ix, in_bounds ix (shape x) -> at_ x ix = at_ y ix.

Definition astype {A} (x : Tensor A) (d : DType) : Tensor A :=
  mkTensor d (shape x) (at_ x).

(** A Python number used as an operand. *)
Definition scalar {A} (c : A) : Tensor A := mkTensor py_scalar [] (fun _ => c).

Definition zeros {A} (zero : A) (d : DType) (sh : list nat) : Tensor A :=
  mkTensor d sh (fun _ => zero).

(** *** Broadcasting *)

Fixpoint zip_with {A B C} (f : A -> B -> C) (l : list A) (m : list B) : list C :=
  match l, m with
  | a :: l', b :: m' => f a b :: zip_with f l' m'
  | _, _ => []
  end.

Definition pad_left (n : nat) (sh : list nat) : list nat :=
  repeat 1%nat (n - length sh) ++ sh.

(** Size of a result axis from the operands' sizes [a] and [b]. *)
Definition bdim (a b : nat) : nat := if (a =? 1)%nat then b else a.

(** Position read along an operand axis of size [n] for result position [i]. *)
Definition bsel (n i : nat) : nat := if (n =? 1)%nat then 0%nat else i.

Definition broadcast_shapes (s1 s2 : list nat) : list nat :=
  let r := Nat.max (length s1) (length s2) in
  zip_with bdim (pad_left r s1) (pad_left r s2).

(** Index into an operand of shape [sh] for the result index [ix]:
    leading result axes the operand lacks are dropped, and an axis of
    size one always reads position 0. *)
Definition bidx (sh ix : list nat) : list nat :=
  zip_with bsel sh (skipn (length ix - length sh) ix).

Definition map_tensor {A B} (f : A -> B) (x : Tensor A) : Tensor B :=
  mkTensor (dtype x) (shape x) (fun ix => f (at_ x ix)).

Definition broadcast2 {A B C} (d : DType) (f : A -> B -> C)
    (x : Tensor A) (y : Tensor B) : Tensor C :=
  mkTensor d (broadcast_shapes (shape x) (shape y))
    (fun ix => f (at_ x (bidx (shape x) ix)) (at_ y (bidx (shape y) ix))).

Definition arith2 (f : R -> R -> R) (x y : Tensor R) : Tensor R :=
  broadcast2 (promote (dtype x) (dtype y)) f x y.

Abbreviation tadd := (arith2 Rplus).
Abbreviation tsub := (arith2 Rminus).
Abbreviation tmul := (arith2 Rmult).
Abbreviation tdiv := (arith2 Rdiv).
Abbreviation maximum := (arith2 Rmax).
Definition texp : Tensor R -> Tensor R := map_tensor exp.

(** [jnp.where(cond, x, y)]. *)
Definition where_ {A} (cond : Tensor bool) (x y : Tensor A) (d : DType) : Tensor A :=
  mkTensor d
    (broadcast_shapes (shape cond) (broadcast_shapes (shape x) (shape y)))
    (fun ix => if at_ cond (bidx (shape cond) ix)
               then at_ x (bidx (shape x) ix)
               else at_ y (bidx (shape y) ix)).

(** *** Reductions along the last axis, with [keepdims=True] *)

Fixpoint Rsum_n (f : nat -> R) (n : nat) : R :=
  match n with
  | O => 0%R
  | S n' => (Rsum_n f n' + f n')%R
  end.

(** Maximum of [f 0 .. f n]. *)
Fixpoint Rmax_upto (f : nat -> R) (n : nat) : R :=
  match n with
  | O => f O
  | S n' => Rmax (Rmax_upto f n') (f n)
  end.

Definition last_dim (sh : list nat) : nat := last sh 0%nat.

Definition keepdims (sh : list nat) : list nat := removelast sh ++ [1%nat].

(** [jnp.max(x, axis=-1, keepdims=True)]; the source call fails on an
    axis of size zero, which the theorems exclude by hypothesis. *)
Definition max_last (x : Tensor R) : Tensor R :=
  mkTensor (dtype x) (keepdims (shape x))
    (fun ix => Rmax_upto (fun s => at_ x (removelast ix ++ [s]))
                         (last_dim (shape x) - 1)).

(** [jnp.sum(x, axis=-1, keepdims=True)]. *)
Definition sum_last (x : Tensor R) : Tensor R :=
  mkTensor (dtype x) (keepdims (shape x))
    (fun ix => Rsum_n (fun s => at_ x (removelast ix ++ [s]))
                      (last_dim (shape x))).

(** *** Layout: reshape and axis permutation *)

(** Row-major position of [ix] in an array of shape [sh]. *)
Fixpoint ravel_from (acc : nat) (sh ix : list nat) : nat :=
  match sh, ix with
  | n :: sh', i :: ix' => ravel_from (acc * n + i) sh' ix'
  | _, _ => acc
  end.

Definition ravel (sh ix : list nat) : nat := ravel_from 0 sh ix.

Fixpoint prod_list (l : list nat) : nat :=
  match l with
  | [] => 1%nat
  | n :: l' => (n * prod_list l')%nat
  end.

Fixpoint unravel (sh : list nat) (p : nat) : list nat :=
  match sh with
  | [] => []
  | _ :: sh' => (p / prod_list sh')%nat :: unravel sh' (p mod prod_list sh')%nat
  end.

(** [jnp.reshape(x, sh)]: the elements keep their row-major position. *)
Definition reshape {A} (x : Tensor A) (sh : list nat) : Tensor A :=
  mkTensor (dtype x) sh (fun ix => at_ x (unravel (shape x) (ravel sh ix))).

(** [jnp.transpose(x, perm)]: result axis [m] is source axis [perm[m]]. *)
Fixpoint index_of (a : nat) (l : list nat) : nat :=
  match l with
  | [] => 0%nat
  | b :: l' => if (a =? b)%nat then 0%nat else S (index_of a l')
  end.

Definition transpose {A} (x : Tensor A) (perm : list nat) : Tensor A :=
  mkTensor (dtype x)
    (map (fun m => nth m (shape x) 0%nat) perm)
    (fun ix => at_ x (map (fun j => nth (index_of j perm) ix 0%nat)
                          (seq 0 (length perm)))).

(** [jnp.moveaxis(x, source, destination)] for one axis: the remaining
    axes keep their order. *)
Fixpoint remove_nth {A} (n : nat) (l : list A) : list A :=
  match n, l with
  | O, _ :: l' => l'
  | S n', a :: l' => a :: remove_nth n' l'
  | _, [] => []
  end.

Fixpoint insert_nth {A} (n : nat) (a : A) (l : list A) : list A :=
  match n, l with
  | O, _ => a :: l
  | S n', b :: l' => b :: insert_nth n' a l'
  | S _, [] => [a]
  end.

Definition moveaxis1 {A} (x : Tensor A) (source destination : nat) : Tensor A :=
  transpose x (insert_nth destination source
                 (remove_nth source (seq 0 (ndim x)))).

(** [jnp.moveaxis(x, (0, 1, 2, 3), destination)]: source axis [j] becomes
    result axis [destination[j]]. *)
Definition moveaxis_all {A} (x : Tensor A) (destination : list nat) : Tensor A :=
  transpose x (map (fun m => index_of m destination) (seq 0 (length destination))).

(** [x[:, 0:1, :, :]]. *)
Definition slice_axis1_first {A} (x : Tensor A) : Tensor A :=
  mkTensor (dtype x)
    (match shape x with
     | n0 :: n1 :: rest => n0 :: Nat.min 1 n1 :: rest
     | sh => sh
     end)
    (at_ x).

(** [jnp.concatenate([x, y], axis)]. *)
Fixpoint set_nth {A} (n : nat) (a : A) (l : list A) : list A :=
  match n, l with
  | O, _ :: l' => a :: l'
  | S n', b :: l' => b :: set_nth n' a l'
  | _, [] => []
  end.

Definition concatenate {A} (x y : Tensor A) (axis : nat) : Tensor A :=
  let n := nth axis (shape x) 0%nat in
  mkTensor (dtype x)
    (set_nth axis (n + nth axis (shape y) 0)%nat (shape x))
    (fun ix => let i := nth axis ix 0%nat in
               if (i <? n)%nat then at_ x ix
               else at_ y (set_nth axis (i - n)%nat ix)).

(* ================================================================= *)
(** ** Constants, modes, configuration and errors *)

(** Largest finite [float32]. *)
Definition float32_max : R := ((2 - / 2 ^ 23) * 2 ^ 127)%R.

(** [DEFAULT_MASK_VALUE = -0.7 * float(jnp.finfo(jnp.dtype("float32")).max)]. *)
Definition DEFAULT_MASK_VALUE : R := (-0.7 * float32_max)%R.

Definition Rge_b (x y : R) : bool := if Rle_dec y x then true else false.

(** [int32] arithmetic wraps around. *)
Definition wrap32 (z : Z) : Z := ((z + 2 ^ 31) mod 2 ^ 32 - 2 ^ 31)%Z.

(** The only element of an array with one element ([jnp.squeeze]). *)
Definition item {A} (x : Tensor A) : A := at_ x (map (fun _ => 0%nat) (shape x)).

Fixpoint Zsum_n (f : nat -> Z) (n : nat) : Z :=
  match n with
  | O => 0%Z
  | S n' => (Zsum_n f n' + f n')%Z
  end.

(** [jnp.sum(x, axis=-1)] on an [int32] array. *)
Definition sum_last_int (x : Tensor Z) : Tensor Z :=
  mkTensor (dtype x) (removelast (shape x))
    (fun ix => wrap32 (Zsum_n (fun s => at_ x (ix ++ [s])) (last (shape x) 0%nat))).

(** [jnp.expand_dims(x, axis=-1)]. *)
Definition expand_dims_last {A} (x : Tensor A) : Tensor A :=
  mkTensor (dtype x) (shape x ++ [1%nat]) (fun ix => at_ x (removelast ix)).

Inductive Mode : Type :=
| MODEL_MODE_TRAIN
| MODEL_MODE_PREFILL
| MODEL_MODE_AUTOREGRESSIVE
| MODEL_MODE_OTHER (name : string).

Definition is_train (m : Mode) : bool :=
  match m with MODEL_MODE_TRAIN => true | _ => false end.

Definition is_autoregressive (m : Mode) : bool :=
  match m with MODEL_MODE_AUTOREGRESSIVE => true | _ => false end.

Inductive AxisName : Type := CACHE_BATCH | CACHE_SEQUENCE | CACHE_HEADS | CACHE_KV.

Definition AxisName_eqb (a b : AxisName) : bool :=
  match a, b with
  | CACHE_BATCH, CACHE_BATCH | CACHE_SEQUENCE, CACHE_SEQUENCE
  | CACHE_HEADS, CACHE_HEADS | CACHE_KV, CACHE_KV => true
  | _, _ => false
  end.

(** The fields of [AttentionOp] that the modelled methods read. *)
Record AttentionOp : Type := mkAttentionOp {
  max_target_length : Z;
  num_query_heads : nat;
  num_kv_heads : nat;
  float32_qk_product : bool;
  max_prefill_predict_length : Z;
  float32_logits : bool;
  kv_cache_logical_layout : list AxisName;
  prefill_cache_axis_order : list nat;
  ar_cache_axis_order : list nat;
  compute_axis_order : list nat;
  reshape_q : bool;
  quantize_kvcache : bool
}.

Inductive Error : Type :=
| ValueError (msg : string)
| AssertionError (msg : string)
| TypeError (msg : string).

Definition Result (A : Type) : Type := (Error + A)%type.

Definition ok {A} (a : A) : Result A := inr a.
Definition raise {A} (e : Error) : Result A := inl e.

Definition rbind {A B} (m : Result A) (k : A -> Result B) : Result B :=
  match m with
  | inl e => inl e
  | inr a => k a
  end.

Declare Scope result_scope.
Delimit Scope result_scope with result.
Notation "x <- m ;; k" := (rbind m (fun x => k))
  (at level 61, m at next level, right associativity) : result_scope.
Notation "' p <- m ;; k" := (rbind m (fun p => k))
  (at level 61, p pattern, m at next level, right associativity) : result_scope.

Definition assert_ (b : bool) (msg : string) : Result unit :=
  if b then ok tt else raise (AssertionError msg).

Definition list_nat_eqb (l m : list nat) : bool :=
  if list_eq_dec Nat.eq_dec l m then true else false.

(* ================================================================= *)
(** ** Masking *)

(** [validate_compute_axis_order]. *)
Definition validate_compute_axis_order (s : list nat) : Result unit :=
  if list_nat_eqb s [0; 1; 2; 3] || list_nat_eqb s [0; 2; 1; 3]
  then ok tt
  else raise (ValueError "Invalid compute_axis_order was passed.").

(** [apply_mask_to_logits]:
    [jnp.where((mask >= DEFAULT_MASK_VALUE * 0.5), logits, DEFAULT_MASK_VALUE)]. *)
Definition apply_mask_to_logits (logits mask : Tensor R) : Tensor R :=
  where_ (map_tensor (fun m => Rge_b m (DEFAULT_MASK_VALUE * 0.5)) mask)
         logits (scalar DEFAULT_MASK_VALUE) (dtype logits).

Definition dim {A} (x : Tensor A) (axis : nat) : nat := nth axis (shape x) 0%nat.

Definition logical_and (x y : Tensor bool) : Tensor bool :=
  broadcast2 (dtype x) andb x y.

Section AttentionKernels.

(** [common_types.DECODING_ACTIVE_SEQUENCE_INDICATOR]: the module
    [common_types] is not part of the sources at hand, so the constant is
    a parameter of the development. *)
Variable DECODING_ACTIVE_SEQUENCE_INDICATOR : Z.

(** [jax.vmap(ragged_mqa, in_axes=[0, 0, 0, None], out_axes=0)]: the
    kernel of [kernels.ragged_attention] mapped over the head axis.  The
    kernel is not part of the sources at hand; it is a parameter. *)
Variable vmap_ragged_mqa :
  Tensor R -> Tensor R -> Tensor R -> Tensor Z -> Tensor R * Tensor R * Tensor R.

(** [AttentionOp.generate_attention_mask].  Indexing with [None] inserts
    an axis of size one, so the segment mask has shape
    [(1, batch, 1, q, kv)] and the causal mask [(1, 1, 1, q, kv)]. *)
Definition generate_attention_mask (query key : Tensor R)
    (decoder_segment_ids : option (Tensor Z)) (model_mode : Mode)
    : Result (option (Tensor R)) :=
  (mask <-
     (if is_autoregressive model_mode then
        match decoder_segment_ids with
        | None => raise (TypeError "'NoneType' object is not subscriptable")
        | Some ids =>
            ok (Some (mkTensor bool_ [1; dim ids 0; 1; 1; dim ids 1]%nat
                 (fun ix => Z.eqb (at_ ids [nth 1 ix 0; nth 4 ix 0]%nat)
                                  DECODING_ACTIVE_SEQUENCE_INDICATOR)))
        end
      else
        match decoder_segment_ids with
        | Some ids =>
            ok (Some (mkTensor bool_ [1; dim ids 0; 1; dim ids 1; dim ids 1]%nat
                 (fun ix => Z.eqb (at_ ids [nth 1 ix 0; nth 3 ix 0]%nat)
                                  (at_ ids [nth 1 ix 0; nth 4 ix 0]%nat))))
        | None => ok None
        end) ;;
   let causal_mask :=
     (* We enforce causality except for AUTOREGRESSION *)
     if negb (is_autoregressive model_mode) then
       let q_seq_len := dim query 2 in
       let kv_seq_len := dim key 2 in
       Some (mkTensor bool_ [1; 1; 1; q_seq_len; kv_seq_len]%nat
               (fun ix => (nth 4 ix 0 <=? nth 3 ix 0)%nat))
     else None in
   let output_mask :=
     match mask, causal_mask with
     | Some m, Some c => Some (logical_and m c)
     | Some m, None => Some m
     | None, Some c => Some c
     | None, None => None
     end in
   match output_mask with
   | Some om =>
       ok (Some (where_ om (scalar 0%R) (scalar DEFAULT_MASK_VALUE) float32))
   | None => raise (TypeError "'NoneType' object has no attribute 'shape'")
   end)%result.

(* ================================================================= *)
(** ** Dot-product attention *)

Section Kernels.

Variable self : AttentionOp.

(** [AttentionOp.check_attention_inputs].  With the head axis first, the
    "batch dims" [shape[:-3]] are the head counts. *)
Definition check_attention_inputs (query key value : Tensor R) : Result unit :=
  (_ <- assert_ (ndim key =? ndim value)%nat "k, v must have same rank." ;;
   _ <- assert_ (list_nat_eqb (firstn (ndim query - 3) (shape query))
                              (firstn (ndim key - 3) (shape key))
                 && list_nat_eqb (firstn (ndim key - 3) (shape key))
                                 (firstn (ndim value - 3) (shape value)))
                "q, k, v batch dims must match." ;;
   _ <- assert_ (dim key (ndim key - 2) =? dim value (ndim value - 2))%nat
                "k, v num_kv_heads must match." ;;
   _ <- assert_ (dim key (ndim key - 3) =? dim value (ndim value - 3))%nat
                "k, v lengths must match." ;;
   assert_ (dim query (ndim query - 1) =? dim key (ndim key - 1))%nat
           "q, k depths must match.")%result.

(** [AttentionOp.qk_product]: [jnp.einsum("kbgtd,kbsd->kbgts", query, key)]
    after the query is viewed as [(n_kv, b, n // n_kv, t, d)]. *)
Definition qk_product (query key : Tensor R) (q_seq_len : nat) (model_mode : Mode)
    : Result (Tensor R) :=
  match shape query with
  | [n; b; t; d] =>
      let n_kv := dim key 0 in
      (_ <- assert_ (n_kv =? num_kv_heads self)%nat "" ;;
       let query := reshape query [n_kv; b; n / n_kv; t; d]%nat in
       ok (mkTensor (promote (dtype query) (dtype key))
             [n_kv; b; n / n_kv; t; dim key 2]%nat
             (fun ix =>
                let k := nth 0 ix 0%nat in let b' := nth 1 ix 0%nat in
                let g := nth 2 ix 0%nat in let t' := nth 3 ix 0%nat in
                let s := nth 4 ix 0%nat in
                Rsum_n (fun d' => (at_ query [k; b'; g; t'; d']
                                   * at_ key [k; b'; s; d'])%R) d)))%result
  | _ => raise (ValueError "not enough values to unpack")
  end.

(** [AttentionOp.wv_product]:
    [jnp.einsum("kbgts,kbsd->kbgtd", attn_weights, value)] reshaped to
    [(n_kv * g, b, t, d)]. *)
Definition wv_product (attn_weights value : Tensor R) (model_mode : Mode) : Tensor R :=
  let n_kv := dim attn_weights 0 in
  let b := dim attn_weights 1 in
  let g := dim attn_weights 2 in
  let t := dim attn_weights 3 in
  let s := dim attn_weights 4 in
  let d := dim value 3 in
  let out :=
    mkTensor (promote (dtype attn_weights) (dtype value)) [n_kv; b; g; t; d]
      (fun ix =>
         let k := nth 0 ix 0%nat in let b' := nth 1 ix 0%nat in
         let g' := nth 2 ix 0%nat in let t' := nth 3 ix 0%nat in
         let d' := nth 4 ix 0%nat in
         Rsum_n (fun s' => (at_ attn_weights [k; b'; g'; t'; s']
                            * at_ value [k; b'; s'; d'])%R) s) in
  reshape out [n_kv * g; b; t; d]%nat.

(** [AttentionOp.compute_local_attention]: the unnormalised output of one
    chunk of keys and values, with the row maximum and the row sum of
    exponentials. *)
Definition compute_local_attention (attn_weights value : Tensor R)
    (q_seq_len : nat) (model_mode : Mode) : Tensor R * Tensor R * Tensor R :=
  let local_max := max_last attn_weights in
  let local_exps := texp (tsub attn_weights local_max) in
  let local_sum := sum_last local_exps in
  let local_sum := moveaxis1 local_sum (ndim local_sum - 2) 2 in
  let local_max := moveaxis1 local_max (ndim local_max - 2) 2 in
  let local_max :=
    reshape local_max
      [dim local_max 0; dim local_max 1; dim local_max 2 * dim local_max 3; 1]%nat in
  let local_sum :=
    reshape local_sum
      [dim local_sum 0; dim local_sum 1; dim local_sum 2 * dim local_sum 3; 1]%nat in
  let local_out := wv_product local_exps value model_mode in
  if reshape_q self && (q_seq_len =? 1)%nat then
    (slice_axis1_first local_out, slice_axis1_first local_max,
     slice_axis1_first local_sum)
  else (local_out, local_max, local_sum).

(** The operands that [apply_attention_dot] hands to [qk_product]. *)
Definition qk_operands (query key : Tensor R) (model_mode : Mode)
    : Tensor R * Tensor R :=
  (* Casting qk_product and softmaxt computation for float32 for model stability. *)
  if is_train model_mode && float32_qk_product self
  then (astype query float32, astype key float32)
  else (query, key).

(** [AttentionOp.apply_attention_dot]. *)
Definition apply_attention_dot (query key value : Tensor R)
    (decoder_segment_ids : option (Tensor Z)) (model_mode : Mode)
    : Result (Tensor R * Tensor R * Tensor R) :=
  (_ <- validate_compute_axis_order (compute_axis_order self) ;;
   let '(query, key) := qk_operands query key model_mode in
   let q_seq_len := dim query 2 in
   attn_weights <- qk_product query key q_seq_len model_mode ;;
   let attn_weights :=
     if is_train model_mode && float32_logits self
     then astype attn_weights float32 else attn_weights in
   attn_mask <- generate_attention_mask query key decoder_segment_ids model_mode ;;
   let attn_weights :=
     match attn_mask with
     | Some m => apply_mask_to_logits attn_weights m
     | None => attn_weights
     end in
   ok (compute_local_attention attn_weights value q_seq_len model_mode))%result.

(** Python's [functools.reduce(f, l)] without initial value. *)
Definition reduce {A} (f : A -> A -> A) (l : list A) : Result A :=
  match l with
  | [] => raise (TypeError "reduce() of empty iterable with no initial value")
  | a :: l' => ok (fold_left f l' a)
  end.

(** Python's [zip]. *)
Definition zip {A B} (l : list A) (m : list B) : list (A * B) := combine l m.

(** Python's [sum] of a list of arrays: starts from the number [0]. *)
Definition py_sum (l : list (Tensor R)) : Tensor R :=
  fold_left tadd l (scalar 0%R).

(** [AttentionOp.normalize_attention]: combine the local results of
    several chunks. *)
Definition normalize_attention (local_outs local_maxes local_sums : list (Tensor R))
    : Result (Tensor R) :=
  (global_max <- reduce maximum local_maxes ;;
   let global_sum :=
     py_sum (map (fun '(local_sum, local_max) =>
                    tmul (texp (tsub local_max global_max)) local_sum)
                 (zip local_sums local_maxes)) in
   ok (fold_left
         (fun attn_out '(local_max, local_out) =>
            let local_normalizer :=
              tdiv (texp (tsub local_max global_max)) global_sum in
            tadd attn_out (tmul local_normalizer local_out))
         (zip local_maxes local_outs)
         (scalar 0%R)))%result.

(** [AttentionOp.ragged_attention]: the kernel's normalised output is
    multiplied back by the sum of exponentials, so that the triple has the
    form [compute_local_attention] returns. *)
Definition ragged_attention (query key value : Tensor R) (lengths : Tensor Z)
    : Tensor R * Tensor R * Tensor R :=
  let '(o, m, l) := vmap_ragged_mqa query key value lengths in
  let m := expand_dims_last m in
  let l := expand_dims_last l in
  let o := tmul o l in
  (o, m, l).

(** [AttentionOp.apply_attention]. *)
Definition apply_attention (query key value : Tensor R)
    (decoder_segment_ids : option (Tensor Z)) (lengths : option (Tensor Z))
    (model_mode : Mode) (use_ragged : bool)
    : Result (Tensor R * Tensor R * Tensor R) :=
  (_ <- check_attention_inputs query key value ;;
   if use_ragged && is_autoregressive model_mode then
     lengths <-
       match lengths with
       | Some l => ok l
       | None =>
           match decoder_segment_ids with
           | Some ids => ok (sum_last_int ids)
           | None => raise (TypeError "sum of None")
           end
       end ;;
     ok (ragged_attention query key value lengths)
   else
     apply_attention_dot query key value decoder_segment_ids model_mode)%result.

End Kernels.
End AttentionKernels.

(* ================================================================= *)
(** ** The key/value cache *)

(** The variables of the flax ["cache"] collection. *)
Inductive VarName : Type :=
| cached_prefill_key | cached_prefill_value | cache_prefill_segment_id
| cached_prefill_key_scale | cached_prefill_value_scale
| cached_ar_key | cached_ar_value | cache_ar_lengths | cache_ar_segment_id
| cached_ar_key_scale | cached_ar_value_scale | cache_ar_index.

Definition VarName_eqb (a b : VarName) : bool :=
  match a, b with
  | cached_prefill_key, cached_prefill_key
  | cached_prefill_value, cached_prefill_value
  | cache_prefill_segment_id, cache_prefill_segment_id
  | cached_prefill_key_scale, cached_prefill_key_scale
  | cached_prefill_value_scale, cached_prefill_value_scale
  | cached_ar_key, cached_ar_key
  | cached_ar_value, cached_ar_value
  | cache_ar_lengths, cache_ar_lengths
  | cache_ar_segment_id, cache_ar_segment_id
  | cached_ar_key_scale, cached_ar_key_scale
  | cached_ar_value_scale, cached_ar_value_scale
  | cache_ar_index, cache_ar_index => true
  | _, _ => false
  end.

(** The collection: floating-point (or quantised) arrays and [int32]
    arrays, by name.  A name that maps to [None] has not been created. *)
Record Cache : Type := mkCache {
  float_vars : VarName -> option (Tensor R);
  int_vars : VarName -> option (Tensor Z)
}.

Definition empty_cache : Cache := mkCache (fun _ => None) (fun _ => None).

Definition upd {T} (m : VarName -> option T) (n : VarName) (v : T)
    : VarName -> option T :=
  fun n' => if VarName_eqb n n' then Some v else m n'.

Definition set_float (n : VarName) (v : Tensor R) (c : Cache) : Cache :=
  mkCache (upd (float_vars c) n v) (int_vars c).

Definition set_int (n : VarName) (v : Tensor Z) (c : Cache) : Cache :=
  mkCache (float_vars c) (upd (int_vars c) n v).

(** *** Computations that read and write the collection and may raise *)

Definition M (A : Type) : Type := Cache -> Result A * Cache.

Definition ret {A} (a : A) : M A := fun c => (ok a, c).

Definition throw {A} (e : Error) : M A := fun c => (raise e, c).

Definition bind {A B} (m : M A) (k : A -> M B) : M B :=
  fun c => match m c with
           | (inl e, c') => (inl e, c')
           | (inr a, c') => k a c'
           end.

Definition lift {A} (r : Result A) : M A := fun c => (r, c).

Declare Scope cache_scope.
Delimit Scope cache_scope with cache.
Notation "x <- m ;; k" := (bind m (fun x => k))
  (at level 61, m at next level, right associativity) : cache_scope.
Notation "' p <- m ;; k" := (bind m (fun p => k))
  (at level 61, p pattern, m at next level, right associativity) : cache_scope.
Notation "m ;;; k" := (bind m (fun _ => k))
  (at level 61, right associativity) : cache_scope.

(** The segment ids, the length counters and the cursor are [int32]
    arrays; every other variable is a floating-point or quantised array. *)
Definition is_int_var (n : VarName) : bool :=
  match n with
  | cache_prefill_segment_id | cache_ar_lengths | cache_ar_segment_id
  | cache_ar_index => true
  | _ => false
  end.

Definition defined (c : Cache) (n : VarName) : bool :=
  if is_int_var n
  then match int_vars c n with Some _ => true | None => false end
  else match float_vars c n with Some _ => true | None => false end.

(** [self.has_variable("cache", name)]. *)
Definition has_variable (n : VarName) : M bool :=
  fun c => (ok (defined c n), c).

(** [jnp.zeros(shape, dtype)]; a negative dimension is an error. *)
Definition jnp_zeros {A} (zero : A) (sh : list Z) (d : DType) : Result (Tensor A) :=
  if forallb (fun n => (0 <=? n)%Z) sh
  then ok (zeros zero d (map Z.to_nat sh))
  else raise (ValueError "negative dimensions are not allowed").

(** [self.variable("cache", name, jnp.zeros, shape, dtype).value]: the
    variable is created, zero-filled, when the collection lacks it. *)
Definition float_variable (n : VarName) (sh : list Z) (d : DType) : M (Tensor R) :=
  fun c => match float_vars c n with
           | Some v => (ok v, c)
           | None =>
               match jnp_zeros 0%R sh d with
               | inr z => (ok z, set_float n z c)
               | inl e => (inl e, c)
               end
           end.

Definition int_variable (n : VarName) (sh : list Z) : M (Tensor Z) :=
  fun c => match int_vars c n with
           | Some v => (ok v, c)
           | None =>
               match jnp_zeros 0%Z sh int32 with
               | inr z => (ok z, set_int n z c)
               | inl e => (inl e, c)
               end
           end.

(** [var.value = v]. *)
Definition assign_float (n : VarName) (v : Tensor R) : M unit :=
  fun c => (ok tt, set_float n v c).

Definition assign_int (n : VarName) (v : Tensor Z) : M unit :=
  fun c => (ok tt, set_int n v c).

Definition massert (b : bool) (msg : string) : M unit := lift (assert_ b msg).

(** *** Indexed updates *)

(** Python-style index: a negative index counts from the end. *)
Definition normalize_index (i : Z) (n : nat) : Z :=
  if (i <? 0)%Z then (i + Z.of_nat n)%Z else i.

(** [jax.lax.dynamic_update_index_in_dim(operand, update, index, axis)]:
    operand and update must have the same element type, and the start
    position is clamped so that the update fits. *)
Definition dynamic_update_index_in_dim {A} (operand update : Tensor A)
    (index : Z) (axis : nat) : Result (Tensor A) :=
  if negb (DType_eqb (dtype operand) (dtype update)) then
    raise (TypeError "lax.dynamic_update_slice requires arguments to have the same dtypes")
  else if (length (shape update) =? length (shape operand))%nat
     && forallb (fun '(u, o) => (u <=? o)%nat)
                (combine (shape update) (shape operand))
  then
    let room := (nth axis (shape operand) 0 - nth axis (shape update) 0)%nat in
    let start :=
      Z.to_nat (Z.max 0 (Z.min (normalize_index index (nth axis (shape operand) 0%nat))
                               (Z.of_nat room))) in
    ok (mkTensor (dtype operand) (shape operand)
          (fun ix =>
             let i := nth axis ix 0%nat in
             if (start <=? i)%nat && (i <? start + nth axis (shape update) 0)%nat
                && forallb (fun '(j, u) => (j <? u)%nat)
                           (combine (set_nth axis 0%nat ix) (shape update))
             then at_ update (set_nth axis (i - start)%nat ix)
             else at_ operand ix))
  else raise (TypeError "dynamic_update_slice update shape must be smaller than operand shape").

(** [operand.at[..., positions, ...].set(update)] with the integer array
    [positions] on [axis] and full slices elsewhere: every listed
    position receives the (broadcast) update; positions outside the axis
    are dropped, negative ones count from the end.  The result has the
    element type of the operand.  The elements of the update are taken as
    they are, which is what the source stores when the update has the
    element type of the operand; the rounding of a conversion is not
    modelled, and statements about stored values assume equal types. *)
Definition at_set_axis {A} (operand : Tensor A) (axis : nat)
    (positions : Tensor Z) (update : Tensor A) : Tensor A :=
  let n := nth axis (shape operand) 0%nat in
  mkTensor (dtype operand) (shape operand)
    (fun ix =>
       if existsb (fun i => (normalize_index (at_ positions [i]) n
                             =? Z.of_nat (nth axis ix 0%nat))%Z)
                  (seq 0 (nth 0 (shape positions) 0%nat))
       then at_ update (bidx (shape update) ix)
       else at_ operand ix).

Fixpoint layout_index (a : AxisName) (l : list AxisName) : option nat :=
  match l with
  | [] => None
  | b :: l' => if AxisName_eqb a b then Some 0%nat
               else option_map S (layout_index a l')
  end.

(** [layout.index(name)]. *)
Definition index_in_layout (a : AxisName) (l : list AxisName) : Result nat :=
  match layout_index a l with
  | Some i => ok i
  | None => raise (ValueError "tuple.index(x): x not in tuple")
  end.

Section CacheOps.

Variable DECODING_ACTIVE_SEQUENCE_INDICATOR : Z.

(** [quantizations.quantize_kv] and [quantizations.unquantize_kv]: the
    module [layers.quantizations] is not part of the sources at hand, so
    both are parameters. *)
Variable quantize_kv : Tensor R -> nat -> Tensor R * Tensor R.
Variable unquantize_kv : Tensor R -> Tensor R -> DType -> Tensor R.

Variable vmap_ragged_mqa :
  Tensor R -> Tensor R -> Tensor R -> Tensor Z -> Tensor R * Tensor R * Tensor R.

Variable self : AttentionOp.

Local Open Scope cache_scope.

(** Capacity of the autoregressive region. *)
Definition ar_capacity : Z := (max_target_length self - max_prefill_predict_length self)%Z.

(** [AttentionOp.revert_kv_cache]. *)
Definition revert_kv_cache (kv : Tensor R) (cached_axis_order : list nat) : Tensor R :=
  moveaxis_all kv cached_axis_order.

(** [AttentionOp.reshape_kv_cache]: the destination of axis [a] is the
    position of [a] in [cached_axis_order]. *)
Definition reshape_kv_cache (kv : Tensor R) (cached_axis_order : list nat) : Tensor R :=
  let axis_destination :=
    map (fun a => index_of a cached_axis_order)
        (seq 0 (length cached_axis_order)) in
  moveaxis_all kv axis_destination.

(** [AttentionOp.cached_kv_layout]. *)
Definition cached_kv_layout (kv_layout : list AxisName) (cached_axis_order : list nat)
    : list AxisName :=
  map (fun i => nth i kv_layout CACHE_KV) cached_axis_order.

(** [AttentionOp.cached_kv_shape]. *)
Definition cached_kv_shape (kv_shape : list Z) (cached_axis_order : list nat) : list Z :=
  map (fun i => nth i kv_shape 0%Z) cached_axis_order.

Definition cache_dtype (quantize : bool) : DType := if quantize then int8 else bfloat16.

Definition shape_is {A} (x : Tensor A) (sh : list Z) : bool :=
  if list_eq_dec Z.eq_dec (map Z.of_nat (shape x)) sh then true else false.

(** [AttentionOp._get_prefill_cache]: the current values of the
    prefill-region variables, created on first use. *)
Definition _get_prefill_cache (batch heads kv_head_size : nat) (quantize : bool)
    : M ((Tensor R * option (Tensor R)) * (Tensor R * option (Tensor R)) * Tensor Z) :=
  let dtype := cache_dtype quantize in
  let cache_logical_shape :=
    [Z.of_nat heads; Z.of_nat batch; max_prefill_predict_length self;
     Z.of_nat kv_head_size] in
  let key_shape := cached_kv_shape cache_logical_shape (prefill_cache_axis_order self) in
  let value_shape := cached_kv_shape cache_logical_shape (prefill_cache_axis_order self) in
  cached_key <- float_variable cached_prefill_key key_shape dtype ;;
  cached_value <- float_variable cached_prefill_value value_shape dtype ;;
  cached_segment_id <-
    int_variable cache_prefill_segment_id
      [nth 0 cache_logical_shape 0%Z; max_prefill_predict_length self] ;;
  if quantize_kvcache self then
    let cache_logical_shape_scale :=
      [Z.of_nat batch; max_prefill_predict_length self; Z.of_nat heads; 1%Z] in
    let key_shape_scale :=
      cached_kv_shape cache_logical_shape_scale (prefill_cache_axis_order self) in
    let value_shape_scale :=
      cached_kv_shape cache_logical_shape_scale (prefill_cache_axis_order self) in
    key_scale <- float_variable cached_prefill_key_scale key_shape_scale bfloat16 ;;
    value_scale <- float_variable cached_prefill_value_scale value_shape_scale bfloat16 ;;
    ret ((cached_key, Some key_scale), (cached_value, Some value_scale), cached_segment_id)
  else
    ret ((cached_key, None), (cached_value, None), cached_segment_id).

(** [AttentionOp._get_ar_cache]. *)
Definition _get_ar_cache (batch heads kv_head_size : nat) (quantize : bool)
    : M ((Tensor R * option (Tensor R)) * (Tensor R * option (Tensor R))
         * Tensor Z * Tensor Z * Tensor Z) :=
  let dtype := cache_dtype quantize in
  let cache_length := ar_capacity in
  let cache_logical_shape :=
    [Z.of_nat heads; Z.of_nat batch; cache_length; Z.of_nat kv_head_size] in
  let key_shape := cached_kv_shape cache_logical_shape (ar_cache_axis_order self) in
  let value_shape := cached_kv_shape cache_logical_shape (ar_cache_axis_order self) in
  cached_key <- float_variable cached_ar_key key_shape dtype ;;
  assign_float cached_ar_key cached_key ;;;
  cached_value <- float_variable cached_ar_value value_shape dtype ;;
  assign_float cached_ar_value cached_value ;;;
  cache_lengths <- int_variable cache_ar_lengths [nth 1 cache_logical_shape 0%Z] ;;
  cached_segment_id <-
    int_variable cache_ar_segment_id [nth 1 cache_logical_shape 0%Z; cache_length] ;;
  scales <-
    (if quantize_kvcache self then
       let cache_logical_shape_scale :=
         [Z.of_nat batch; cache_length; Z.of_nat heads; 1%Z] in
       let key_shape_scale :=
         cached_kv_shape cache_logical_shape_scale (ar_cache_axis_order self) in
       let value_shape_scale :=
         cached_kv_shape cache_logical_shape_scale (ar_cache_axis_order self) in
       key_scale <- float_variable cached_ar_key_scale key_shape_scale bfloat16 ;;
       value_scale <- float_variable cached_ar_value_scale value_shape_scale bfloat16 ;;
       ret (Some key_scale, Some value_scale)
     else ret (None, None)) ;;
  cache_index <- int_variable cache_ar_index [1%Z] ;;
  ret ((cached_key, fst scales), (cached_value, snd scales),
       cached_segment_id, cache_index, cache_lengths).

(** [AttentionOp.kv_cache_prefill]. *)
Definition kv_cache_prefill (key value : Tensor R)
    (decoder_segment_ids : option (Tensor Z))
    : M (Tensor R * Tensor R * option (Tensor Z)) :=
  match shape key with
  | [heads; batch; sequence; kv_head_size] =>
      massert (DType_eqb (dtype key) (dtype value))
              "Key and Value Dtypes should match." ;;;
      '(cached_prefill_key_var, cached_prefill_value_var, cached_prefill_segment_id) <-
        _get_prefill_cache batch heads kv_head_size (quantize_kvcache self) ;;
      is_initialized <- has_variable cache_ar_index ;;
      (if negb is_initialized then
         (* initialize it now *)
         '(cached_ar_key_var, cached_ar_value_var, _, _, _) <-
           _get_ar_cache batch heads kv_head_size (quantize_kvcache self) ;;
         massert (shape_is (fst cached_ar_key_var)
                    (cached_kv_shape
                       [Z.of_nat heads; Z.of_nat batch; ar_capacity; Z.of_nat kv_head_size]
                       (ar_cache_axis_order self))) "" ;;;
         massert (shape_is (fst cached_ar_value_var)
                    (cached_kv_shape
                       [Z.of_nat heads; Z.of_nat batch; ar_capacity; Z.of_nat kv_head_size]
                       (ar_cache_axis_order self))) ""
       else ret tt) ;;;
      massert (shape_is (fst cached_prefill_key_var)
                 (cached_kv_shape
                    [Z.of_nat heads; Z.of_nat batch; max_prefill_predict_length self;
                     Z.of_nat kv_head_size]
                    (prefill_cache_axis_order self))) "" ;;;
      massert (shape_is (fst cached_prefill_value_var)
                 (cached_kv_shape
                    [Z.of_nat heads; Z.of_nat batch; max_prefill_predict_length self;
                     Z.of_nat kv_head_size]
                    (prefill_cache_axis_order self))) "" ;;;
      let prefill_key_layout :=
        cached_kv_layout (kv_cache_logical_layout self) (prefill_cache_axis_order self) in
      let prefill_value_layout :=
        cached_kv_layout (kv_cache_logical_layout self) (prefill_cache_axis_order self) in
      let key_shaped_for_cache := reshape_kv_cache key (prefill_cache_axis_order self) in
      let value_shaped_for_cache := reshape_kv_cache value (prefill_cache_axis_order self) in
      '(key_shaped_for_cache, value_shaped_for_cache) <-
        (if quantize_kvcache self then
           key_axis <- lift (index_in_layout CACHE_KV prefill_key_layout) ;;
           let '(key_shaped_for_cache, key_scale) :=
             quantize_kv key_shaped_for_cache key_axis in
           value_axis <- lift (index_in_layout CACHE_KV prefill_value_layout) ;;
           let '(value_shaped_for_cache, value_scale) :=
             quantize_kv value_shaped_for_cache value_axis in
           assign_float cached_prefill_key_scale key_scale ;;;
           assign_float cached_prefill_value_scale value_scale ;;;
           ret (key_shaped_for_cache, value_shaped_for_cache)
         else ret (key_shaped_for_cache, value_shaped_for_cache)) ;;
      assign_float cached_prefill_key key_shaped_for_cache ;;;
      assign_float cached_prefill_value value_shaped_for_cache ;;;
      match decoder_segment_ids with
      | Some ids => assign_int cache_prefill_segment_id ids
      | None => ret tt
      end ;;;
      ret (key, value, decoder_segment_ids)
  | _ => throw (ValueError "not enough values to unpack")
  end.

(** The write of one token into an autoregressive array: at every
    position listed in [lengths] (ragged), or at the cursor (indexed). *)
Definition write_token (use_ragged : bool) (cache token : Tensor R)
    (one_hot_indices lengths : Tensor Z) (seq_axis : nat) : Result (Tensor R) :=
  if use_ragged then ok (at_set_axis cache seq_axis lengths token)
  else dynamic_update_index_in_dim cache token (item one_hot_indices) seq_axis.

(** [AttentionOp.update_ar_key_value]. *)
Definition update_ar_key_value (one_token_key one_token_value : Tensor R)
    (cached_key_vars cached_value_vars : Tensor R * option (Tensor R))
    (one_hot_indices lengths : Tensor Z) (use_ragged : bool)
    : M (Tensor R * Tensor R) :=
  let '(cached_key_var, cached_key_scale_var) := cached_key_vars in
  let '(cached_value_var, cached_value_scale_var) := cached_value_vars in
  let one_token_key_shaped_for_cache :=
    reshape_kv_cache one_token_key (ar_cache_axis_order self) in
  let one_token_value_shaped_for_cache :=
    reshape_kv_cache one_token_value (ar_cache_axis_order self) in
  let ar_key_layout :=
    cached_kv_layout (kv_cache_logical_layout self) (ar_cache_axis_order self) in
  let ar_value_layout :=
    cached_kv_layout (kv_cache_logical_layout self) (ar_cache_axis_order self) in
  '(one_token_key_shaped_for_cache, one_token_value_shaped_for_cache, token_scales) <-
    (if quantize_kvcache self then
       key_axis <- lift (index_in_layout CACHE_KV ar_key_layout) ;;
       let '(k, one_token_key_scale) :=
         quantize_kv one_token_key_shaped_for_cache key_axis in
       value_axis <- lift (index_in_layout CACHE_KV ar_value_layout) ;;
       let '(v, one_token_value_scale) :=
         quantize_kv one_token_value_shaped_for_cache value_axis in
       ret (k, v, Some (one_token_key_scale, one_token_value_scale))
     else
       ret (one_token_key_shaped_for_cache, one_token_value_shaped_for_cache, None)) ;;
  key_seq_axis <- lift (index_in_layout CACHE_SEQUENCE ar_key_layout) ;;
  ar_key <- lift (write_token use_ragged cached_key_var one_token_key_shaped_for_cache
                    one_hot_indices lengths key_seq_axis) ;;
  assign_float cached_ar_key ar_key ;;;
  value_seq_axis <-
    lift (index_in_layout CACHE_SEQUENCE
            (if use_ragged then ar_value_layout else ar_key_layout)) ;;
  ar_value <- lift (write_token use_ragged cached_value_var
                      one_token_value_shaped_for_cache
                      one_hot_indices lengths value_seq_axis) ;;
  assign_float cached_ar_value ar_value ;;;
  if quantize_kvcache self then
    match token_scales, cached_key_scale_var, cached_value_scale_var with
    | Some (one_token_key_scale, one_token_value_scale),
      Some key_scale, Some value_scale =>
        ar_key_scale <-
          lift (dynamic_update_index_in_dim key_scale one_token_key_scale
                  (item one_hot_indices) key_seq_axis) ;;
        ar_value_scale <-
          lift (dynamic_update_index_in_dim value_scale one_token_value_scale
                  (item one_hot_indices) key_seq_axis) ;;
        assign_float cached_ar_key_scale ar_key_scale ;;;
        assign_float cached_ar_value_scale ar_value_scale ;;;
        let ar_key := unquantize_kv ar_key ar_key_scale (dtype one_token_key) in
        let ar_value := unquantize_kv ar_value ar_value_scale (dtype one_token_value) in
        ret (revert_kv_cache ar_key (ar_cache_axis_order self),
             revert_kv_cache ar_value (ar_cache_axis_order self))
    | _, _, _ => throw (TypeError "'NoneType' object has no attribute 'value'")
    end
  else
    (* Revert the keys and values back to original logical shapes. *)
    ret (revert_kv_cache ar_key (ar_cache_axis_order self),
         revert_kv_cache ar_value (ar_cache_axis_order self)).

(** [AttentionOp.prefill_cache_var_model_var]. *)
Definition prefill_cache_var_model_var (cache_var : Tensor R * option (Tensor R))
    (target_dtype : DType) (cache_axis_order : list nat) : Result (Tensor R) :=
  if negb (quantize_kvcache self) then
    ok (revert_kv_cache (fst cache_var) cache_axis_order)
  else
    match cache_var with
    | (raw_cache, Some quant_scale) =>
        ok (revert_kv_cache (unquantize_kv raw_cache quant_scale target_dtype)
              cache_axis_order)
    | (_, None) => raise (TypeError "'NoneType' object has no attribute 'value'")
    end.

(** [jnp.mod(cache_ar_index.value + 1, capacity)] on the [int32] cursor. *)
Definition advance_index (index : Tensor Z) : Tensor Z :=
  map_tensor (fun i => (wrap32 (i + 1) mod ar_capacity)%Z) index.

(** [cache_ar_lengths.value.at[:].add(1)]. *)
Definition advance_lengths (lengths : Tensor Z) : Tensor Z :=
  map_tensor (fun l => wrap32 (l + 1)) lengths.

(** [AttentionOp.kv_cache_autoregressive]. *)
Definition kv_cache_autoregressive (key value : Tensor R) (use_ragged : bool)
    : M ((Tensor R * Tensor R * Tensor Z)
         * (Tensor R * Tensor R * Tensor Z * Tensor Z)) :=
  match shape key with
  | [heads; batch; sequence; kv_head_size] =>
      if negb (sequence =? 1)%nat then
        throw (ValueError "Sequence length should be 1 during autoregression")
      else
        is_initialized <- has_variable cache_ar_index ;;
        if negb is_initialized then
          throw (ValueError
            "Error, we can't do autoregression if we haven't seeded the KV Cache.")
        else
          '(cached_ar_key_var, cached_ar_value_var, cached_ar_segment_id,
            cache_ar_index_value, cache_ar_lengths_value) <-
            _get_ar_cache batch heads kv_head_size (quantize_kvcache self) ;;
          massert (shape_is (fst cached_ar_key_var)
                     (cached_kv_shape
                        [Z.of_nat heads; Z.of_nat batch; ar_capacity; Z.of_nat kv_head_size]
                        (ar_cache_axis_order self))) "" ;;;
          massert (shape_is (fst cached_ar_value_var)
                     (cached_kv_shape
                        [Z.of_nat heads; Z.of_nat batch; ar_capacity; Z.of_nat kv_head_size]
                        (ar_cache_axis_order self))) "" ;;;
          '(ar_key, ar_value) <-
            update_ar_key_value key value cached_ar_key_var cached_ar_value_var
              cache_ar_index_value cache_ar_lengths_value use_ragged ;;
          let active_indicator :=
            mkTensor int32 [batch; 1%nat]
              (fun _ => wrap32 (0 + DECODING_ACTIVE_SEQUENCE_INDICATOR)) in
          new_segment_id <-
            lift (dynamic_update_index_in_dim cached_ar_segment_id active_indicator
                    (item cache_ar_index_value) 1) ;;
          assign_int cache_ar_segment_id new_segment_id ;;;
          assign_int cache_ar_index (advance_index cache_ar_index_value) ;;;
          let new_lengths := advance_lengths cache_ar_lengths_value in
          assign_int cache_ar_lengths new_lengths ;;;
          (* Prep and return both prefill and ar caches *)
          '(cached_prefill_key_var, cached_prefill_value_var, cached_prefill_segment_id) <-
            _get_prefill_cache batch heads kv_head_size (quantize_kvcache self) ;;
          massert (shape_is (fst cached_prefill_key_var)
                     (cached_kv_shape
                        [Z.of_nat heads; Z.of_nat batch; max_prefill_predict_length self;
                         Z.of_nat kv_head_size]
                        (prefill_cache_axis_order self))) "" ;;;
          massert (shape_is (fst cached_prefill_value_var)
                     (cached_kv_shape
                        [Z.of_nat heads; Z.of_nat batch; max_prefill_predict_length self;
                         Z.of_nat kv_head_size]
                        (prefill_cache_axis_order self))) "" ;;;
          prefill_key <-
            lift (prefill_cache_var_model_var cached_prefill_key_var (dtype key)
                    (prefill_cache_axis_order self)) ;;
          prefill_value <-
            lift (prefill_cache_var_model_var cached_prefill_value_var (dtype value)
                    (prefill_cache_axis_order self)) ;;
          ret ((prefill_key, prefill_value, cached_prefill_segment_id),
               (ar_key, ar_value, new_segment_id, new_lengths))
  | _ => throw (ValueError "not enough values to unpack")
  end.

(** [AttentionOp.kv_cache]. *)
Definition kv_cache (key value : Tensor R) (decoder_segment_ids : option (Tensor Z))
    (model_mode : Mode) (use_ragged : bool)
    : M ((Tensor R * Tensor R * option (Tensor Z))
         * option (Tensor R * Tensor R * Tensor Z * Tensor Z)) :=
  if negb (list_nat_eqb (shape key) (shape value)) then
    throw (ValueError "Can't KV cache with mismatched shapes")
  else
    match model_mode with
    | MODEL_MODE_TRAIN => ret ((key, value, decoder_segment_ids), None)
    | MODEL_MODE_PREFILL =>
        r <- kv_cache_prefill key value decoder_segment_ids ;;
        ret (r, None)
    | MODEL_MODE_AUTOREGRESSIVE =>
        '(prefill, ar) <- kv_cache_autoregressive key value use_ragged ;;
        let '(k, v, ids) := prefill in
        ret ((k, v, Some ids), Some ar)
    | MODEL_MODE_OTHER _ => throw (ValueError "Model Mode isn't supported!")
    end.

(** [AttentionOp.__call__]. *)
Definition __call__ (query key value : Tensor R)
    (decoder_segment_ids : option (Tensor Z)) (model_mode : Mode) : M (Tensor R) :=
  let use_ragged := true in
  '(prefill_kv_cache, ar_kv_cache) <-
    kv_cache key value decoder_segment_ids model_mode use_ragged ;;
  let '(prefill_key, prefill_value, prefill_segment_ids) := prefill_kv_cache in
  '(prefill_unnormalized_output, prefill_exponentials_max, prefill_exponentials_sum) <-
    lift (apply_attention DECODING_ACTIVE_SEQUENCE_INDICATOR vmap_ragged_mqa self
            query prefill_key prefill_value prefill_segment_ids None
            model_mode use_ragged) ;;
  match ar_kv_cache with
  | None =>
      (* Return the "prefill" cache if it actually the combined prefill+ar kv cache *)
      ret (tdiv prefill_unnormalized_output prefill_exponentials_sum)
  | Some (ar_key, ar_value, ar_segment_ids, ar_lengths) =>
      '(ar_output, ar_exponentials_max, ar_exponentials_sum) <-
        lift (apply_attention DECODING_ACTIVE_SEQUENCE_INDICATOR vmap_ragged_mqa self
                query ar_key ar_value (Some ar_segment_ids) (Some ar_lengths)
                model_mode use_ragged) ;;
      lift (normalize_attention
              [prefill_unnormalized_output; ar_output]
              [prefill_exponentials_max; ar_exponentials_max]
              [prefill_exponentials_sum; ar_exponentials_sum])
  end.

End CacheOps.

(* ================================================================= *)
(** ** Row-level quantities used to state the properties *)

(** Row statistics of a score array of shape [(k, b, 1, t, s)], for one
    head, batch entry and query position: the maximum, the sum of
    exponentials and the weighted values. *)
Definition row_max (w : Tensor R) (k b t : nat) : R :=
  Rmax_upto (fun s => at_ w [k; b; 0; t; s]%nat) (dim w 4 - 1).

Definition row_sum (w : Tensor R) (k b t : nat) : R :=
  Rsum_n (fun s => exp (at_ w [k; b; 0; t; s]%nat - row_max w k b t)) (dim w 4).

Definition row_out (w v : Tensor R) (k b t d : nat) : R :=
  Rsum_n (fun s => exp (at_ w [k; b; 0; t; s]%nat - row_max w k b t)
                   * at_ v [k; b; s; d]%nat)%R (dim w 4).

(** The merge rule on the statistics of two chunks. *)
Definition merged_row (O1 O2 M1 M2 S1 S2 : R) : R :=
  let M := Rmax M1 M2 in
  let gs := (0 + exp (M1 - M) * S1 + exp (M2 - M) * S2)%R in
  (0 + exp (M1 - M) / gs * O1 + exp (M2 - M) / gs * O2)%R.

(** The score of key position [j] for query position [i], the predicate
    the train/prefill mask encodes, and the score after masking. *)
Definition logit (q key : Tensor R) (k b i j : nat) : R :=
  Rsum_n (fun d => at_ q [k; b; i; d]%nat * at_ key [k; b; j; d]%nat)%R (dim q 3).

Definition same_segment (segs : option (Tensor Z)) (b i j : nat) : bool :=
  match segs with
  | None => true
  | Some ids => Z.eqb (at_ ids [b; i]%nat) (at_ ids [b; j]%nat)
  end.

Definition visible (segs : option (Tensor Z)) (b i j : nat) : bool :=
  same_segment segs b i j && (j <=? i)%nat.

Definition masked_logit (q key : Tensor R) (segs : option (Tensor Z))
    (k b i j : nat) : R :=
  if visible segs b i j then logit q key k b i j else DEFAULT_MASK_VALUE.

(* ================================================================= *)
(** ** A small configuration and inputs for the concrete checks *)

(** One head, prefill capacity 4, target length 6 (so two decode slots). *)
Definition example_op : AttentionOp :=
  {| max_target_length := 6;
     num_query_heads := 1;
     num_kv_heads := 1;
     float32_qk_product := false;
     max_prefill_predict_length := 4;
     float32_logits := false;
     kv_cache_logical_layout := [CACHE_HEADS; CACHE_BATCH; CACHE_SEQUENCE; CACHE_KV];
     prefill_cache_axis_order := [0; 1; 2; 3]%nat;
     ar_cache_axis_order := [0; 1; 2; 3]%nat;
     compute_axis_order := [0; 1; 2; 3]%nat;
     reshape_q := false;
     quantize_kvcache := false |}.

(** A stand-in for the ragged kernel, for runs that never reach it. *)
Definition unused_kernel (q k v : Tensor R) (lengths : Tensor Z)
    : Tensor R * Tensor R * Tensor R := (q, q, q).

(** Two positions, one head, one batch entry, head dimension one. *)
Definition const_tensor (c : R) : Tensor R :=
  mkTensor float32 [1; 1; 2; 1]%nat (fun _ => c).

(** The key at position 0 is the mask sentinel itself. *)
Definition sentinel_key : Tensor R :=
  mkTensor float32 [1; 1; 2; 1]%nat
    (fun ix => if (nth 2 ix 0 =? 0)%nat then DEFAULT_MASK_VALUE else 0%R).

(** The same key at position 0, another key at position 1. *)
Definition sentinel_key_alt : Tensor R :=
  mkTensor float32 [1; 1; 2; 1]%nat
    (fun ix => if (nth 2 ix 0 =? 0)%nat then DEFAULT_MASK_VALUE else 5%R).

(** A value array that is [c] at position 1 and zero at position 0. *)
Definition value_at_1 (c : R) : Tensor R :=
  mkTensor float32 [1; 1; 2; 1]%nat
    (fun ix => if (nth 2 ix 0 =? 1)%nat then c else 0%R).

(** The configuration above with [float32_qk_product] switched on. *)
Definition float32_qk_op : AttentionOp :=
  {| max_target_length := 6;
     num_query_heads := 1;
     num_kv_heads := 1;
     float32_qk_product := true;
     max_prefill_predict_length := 4;
     float32_logits := false;
     kv_cache_logical_layout := [CACHE_HEADS; CACHE_BATCH; CACHE_SEQUENCE; CACHE_KV];
     prefill_cache_axis_order := [0; 1; 2; 3]%nat;
     ar_cache_axis_order := [0; 1; 2; 3]%nat;
     compute_axis_order := [0; 1; 2; 3]%nat;
     reshape_q := false;
     quantize_kvcache := false |}.

(** Queries and keys stored as [bfloat16]. *)
Definition bf16_tensor : Tensor R := mkTensor bfloat16 [1; 1; 2; 1]%nat (fun _ => 1%R).

(* ================================================================= *)
(** ** Cache states used to state the properties *)

(** The autoregressive region has been allocated: its arrays, counters
    and cursor exist (and so do the scale arrays, when the cache is
    quantised).  [kv_cache_prefill] allocates them together. *)
Record ar_allocated (self : AttentionOp) (c : Cache)
    (ak av : Tensor R) (seg idx lens : Tensor Z) : Prop := {
  alloc_key : float_vars c cached_ar_key = Some ak;
  alloc_value : float_vars c cached_ar_value = Some av;
  alloc_segment : int_vars c cache_ar_segment_id = Some seg;
  alloc_index : int_vars c cache_ar_index = Some idx;
  alloc_lengths : int_vars c cache_ar_lengths = Some lens;
  alloc_scales :
    quantize_kvcache self = true ->
    (exists ks, float_vars c cached_ar_key_scale = Some ks) /\
    (exists vs, float_vars c cached_ar_value_scale = Some vs)
}.

(** The token as [update_ar_key_value] writes it: in cache layout, and
    quantised when the cache is. *)
Definition token_for_cache (quantize_kv : Tensor R -> nat -> Tensor R * Tensor R)
    (self : AttentionOp) (x : Tensor R) : Result (Tensor R) :=
  let shaped := reshape_kv_cache x (ar_cache_axis_order self) in
  if quantize_kvcache self then
    (kv_axis <- index_in_layout CACHE_KV
                  (cached_kv_layout (kv_cache_logical_layout self)
                     (ar_cache_axis_order self)) ;;
     ok (fst (quantize_kv shaped kv_axis)))%result
  else ok shaped.

(** The key or value as [kv_cache_prefill] stores it: in the prefill
    cache layout, and quantised when the cache is. *)
Definition prefill_token (quantize_kv : Tensor R -> nat -> Tensor R * Tensor R)
    (self : AttentionOp) (x : Tensor R) : Result (Tensor R) :=
  let shaped := reshape_kv_cache x (prefill_cache_axis_order self) in
  if quantize_kvcache self then
    (kv_axis <- index_in_layout CACHE_KV
                  (cached_kv_layout (kv_cache_logical_layout self)
                     (prefill_cache_axis_order self)) ;;
     ok (fst (quantize_kv shaped kv_axis)))%result
  else ok shaped.

(** The sequence axis of the autoregressive arrays. *)
Definition ar_seq_axis (self : AttentionOp) : Result nat :=
  index_in_layout CACHE_SEQUENCE
    (cached_kv_layout (kv_cache_logical_layout self) (ar_cache_axis_order self)).

(** The segment-id column written by a decode call. *)
Definition active_indicator (ACTIVE : Z) (batch : nat) : Tensor Z :=
  mkTensor int32 [batch; 1%nat] (fun _ => wrap32 (0 + ACTIVE)).

(** The variables of the autoregressive region. *)
Definition is_ar_var (n : VarName) : bool :=
  match n with
  | cached_ar_key | cached_ar_value | cache_ar_lengths | cache_ar_segment_id
  | cached_ar_key_scale | cached_ar_value_scale | cache_ar_index => true
  | _ => false
  end.

(** A computation that writes only variables selected by [P], whether it
    returns or raises. *)
Definition frames {A} (P : VarName -> bool) (m : M A) : Prop :=
  forall c r c', m c = (r, c') ->
    forall n, P n = false ->
      float_vars c' n = float_vars c n /\ int_vars c' n = int_vars c n.

(** A run of decode calls, one token (key, value) per call; it stops at
    the first call that raises. *)
Fixpoint decode_all (ACTIVE : Z)
    (quantize_kv : Tensor R -> nat -> Tensor R * Tensor R)
    (unquantize_kv : Tensor R -> Tensor R -> DType -> Tensor R)
    (self : AttentionOp) (use_ragged : bool)
    (tokens : list (Tensor R * Tensor R)) (c : Cache) : Result unit * Cache :=
  match tokens with
  | [] => (ok tt, c)
  | (key, value) :: rest =>
      match kv_cache_autoregressive ACTIVE quantize_kv unquantize_kv self
              key value use_ragged c with
      | (inr _, c') => decode_all ACTIVE quantize_kv unquantize_kv self use_ragged rest c'
      | (inl e, c') => (inl e, c')
      end
  end.

(** The cursor and the per-entry length counters, as numbers. *)
Definition cursor (c : Cache) : option Z := option_map item (int_vars c cache_ar_index).

Definition length_of (c : Cache) (b : nat) : option Z :=
  option_map (fun l => at_ l [b]) (int_vars c cache_ar_lengths).

(** A quantiser stand-in for unquantised runs. *)
Definition no_quantize (x : Tensor R) (axis : nat) : Tensor R * Tensor R := (x, x).
Definition no_unquantize (x scale : Tensor R) (d : DType) : Tensor R := x.

(** A four-token prompt for one head and one batch entry, its segment
    ids, and one decode token. *)
Definition prompt (c : R) : Tensor R := mkTensor bfloat16 [1; 1; 4; 1]%nat (fun _ => c).
Definition prompt_ids (s : Z) : Tensor Z := mkTensor int32 [1; 4]%nat (fun _ => s).
Definition token (c : R) : Tensor R := mkTensor bfloat16 [1; 1; 1; 1]%nat (fun _ => c).

(** Three decode tokens, one more than the autoregressive region of
    [example_op] holds. *)
Definition three_tokens : list (Tensor R * Tensor R) :=
  [(token 1, token 1); (token 2, token 2); (token 3, token 3)].

(** The cache after a first prompt with segment ids 1. *)
Definition cache_after_first_prompt : Cache :=
  snd (kv_cache_prefill no_quantize example_op (prompt 1) (prompt 1)
         (Some (prompt_ids 1)) empty_cache).

(* ================================================================= *)
(** ** Slots of the autoregressive region *)

(** [new] is [old] with slot [p] of [axis] replaced by the one-slot
    array [update]; every other slot is as in [old]. *)
Definition slot_written {A} (old new update : Tensor A) (axis p : nat) : Prop :=
  shape new = shape old /\
  (p < nth axis (shape old) 0)%nat /\
  forall ix, in_bounds ix (shape old) ->
    at_ new ix = if (nth axis ix 0 =? p)%nat
                 then at_ update (set_nth axis 0%nat ix)
                 else at_ old ix.

(** An axis order is a rearrangement of the four cache axes. *)
Definition axis_order_ok (order : list nat) : bool :=
  (length order =? 4)%nat
  && forallb (fun a => existsb (Nat.eqb a) order) [0; 1; 2; 3]%nat.

(** The logical layout the key and value arguments are in (heads, batch,
    sequence, head dimension), stored in a rearrangement of these axes. *)
Definition standard_layout (self : AttentionOp) : Prop :=
  kv_cache_logical_layout self = [CACHE_HEADS; CACHE_BATCH; CACHE_SEQUENCE; CACHE_KV]
  /\ axis_order_ok (ar_cache_axis_order self) = true.

(** The quantiser returns values of the shape of its argument. *)
Definition shape_preserving (quantize_kv : Tensor R -> nat -> Tensor R * Tensor R)
    : Prop :=
  forall x axis, shape (fst (quantize_kv x axis)) = shape x.

(** The rearrangements of the four cache axes. *)
Definition axis_orders : list (list nat) :=
  [
  [0; 1; 2; 3]; [0; 1; 3; 2]; [0; 2; 1; 3]; [0; 2; 3; 1];
   [0; 3; 1; 2]; [0; 3; 2; 1]; [1; 0; 2; 3]; [1; 0; 3; 2];
   [1; 2; 0; 3]; [1; 2; 3; 0]; [1; 3; 0; 2]; [1; 3; 2; 0];
   [2; 0; 1; 3]; [2; 0; 3; 1]; [2; 1; 0; 3]; [2; 1; 3; 0];
   [2; 3; 0; 1]; [2; 3; 1; 0]; [3; 0; 1; 2]; [3; 0; 2; 1];
   [3; 1; 0; 2]; [3; 1; 2; 0]; [3; 2; 0; 1]; [3; 2; 1; 0]
  ]%nat.

(** The cache after the first prompt and two ragged decode calls, which
    fill the two slots of the autoregressive region of [example_op]. *)
Definition cache_after_two_decodes : Cache :=
  snd (decode_all 1 no_quantize no_unquantize example_op true
         [(token 1, token 1); (token 2, token 2)] cache_after_first_prompt).

(* ================================================================= *)
(** ** Further inputs for the concrete checks *)

(** An array of shape [sh] whose elements are all different: each holds
    its own row-major position. *)
Definition coords (d : DType) (sh : list nat) : Tensor R :=
  mkTensor d sh (fun ix => INR (ravel sh ix)).

(** The configuration [self] with another [compute_axis_order]. *)
Definition with_compute_axis_order (self : AttentionOp) (order : list nat)
    : AttentionOp :=
  {| max_target_length := max_target_length self;
     num_query_heads := num_query_heads self;
     num_kv_heads := num_kv_heads self;
     float32_qk_product := float32_qk_product self;
     max_prefill_predict_length := max_prefill_predict_length self;
     float32_logits := float32_logits self;
     kv_cache_logical_layout := kv_cache_logical_layout self;
     prefill_cache_axis_order := prefill_cache_axis_order self;
     ar_cache_axis_order := ar_cache_axis_order self;
     compute_axis_order := order;
     reshape_q := reshape_q self;
     quantize_kvcache := quantize_kvcache self |}.

(** A four-token prompt whose entries are all different, and the cache
    after a first prefill with it. *)
Definition varied_prompt : Tensor R := coords bfloat16 [1; 1; 4; 1]%nat.

Definition cache_after_varied_prompt : Cache :=
  snd (kv_cache_prefill no_quantize example_op varied_prompt varied_prompt
         (Some (prompt_ids 1)) empty_cache).

(** Segment ids of one batch entry with two slots, of which only slot 1
    carries the marker 1. *)
Definition second_slot_active : Tensor Z :=
  mkTensor int32 [1; 2]%nat (fun ix => Z.of_nat (nth 1 ix 0%nat)).

(** A kernel stand-in that returns fixed arrays of the shapes the ragged
    kernel returns: a normalised output, row maxima and row sums. *)
Definition fixed_kernel (q k v : Tensor R) (lengths : Tensor Z)
    : Tensor R * Tensor R * Tensor R :=
  (coords float32 [2; 3; 1; 5]%nat, coords float32 [2; 3; 1]%nat,
   zeros 2%R float32 [2; 3; 1]%nat).

(* ================================================================= *)
(** ** Computations that cannot return *)

(** From every cache that satisfies [P] the computation raises. *)
Definition raises_on {A} (P : Cache -> Prop) (m : M A) : Prop :=
  forall c, P c -> exists e c', m c = (inl e, c').

(** The computation leaves [P] true, whether it returns or raises. *)
Definition keeps {A} (P : Cache -> Prop) (m : M A) : Prop :=
  forall c r c', P c -> m c = (r, c') -> P c'.

(** The stored prefill key is [tk]. *)
Definition prefill_key_is (tk : Tensor R) (c : Cache) : Prop :=
  float_vars c cached_prefill_key = Some tk.

(** A prompt of two tokens, shorter than the prefill region of
    [example_op], and the cache after a first prefill with it. *)
Definition short_prompt : Tensor R := coords bfloat16 [1; 1; 2; 1]%nat.

Definition cache_after_short_prompt : Cache :=
  snd (kv_cache_prefill no_quantize example_op short_prompt short_prompt
         None empty_cache).


(** Two chunks of scores and values of different lengths (2 and 3 key
    positions) for two heads, two batch entries and three query positions;
    no two scores of a row are equal. *)
Definition first_chunk_scores : Tensor R := coords float32 [2; 2; 1; 3; 2]%nat.
Definition second_chunk_scores : Tensor R :=
  mkTensor float32 [2; 2; 1; 3; 3]%nat
    (fun ix => (INR (ravel [2; 2; 1; 3; 3]%nat ix) / 2 - 7)%R).
Definition first_chunk_values : Tensor R := coords float32 [2; 2; 2; 2]%nat.
Definition second_chunk_values : Tensor R :=
  mkTensor float32 [2; 2; 3; 2]%nat
    (fun ix => (- INR (ravel [2; 2; 3; 2]%nat ix))%R).

(* ================================================================= *)
(** ** Ragged writes *)

(** Position [p] of an axis of size [n] is addressed by a ragged write
    when one of the entries of [positions], read as a Python index, is
    [p]. *)
Definition listed (positions : Tensor Z) (n p : nat) : bool :=
  existsb (fun i => (normalize_index (at_ positions [i]) n =? Z.of_nat p)%Z)
          (seq 0 (nth 0 (shape positions) 0%nat)).

(** [new] is [old] after a ragged write of the one-slot array [update] on
    [axis]: shape and element type are those of [old], every position
    whose coordinate on [axis] is not addressed keeps its element, and
    every addressed position holds the element of [update] with the same
    other coordinates (as given, when [update] has the element type of
    [old], so that storing it involves no conversion). *)
Definition ragged_written (old new update : Tensor R) (axis : nat)
    (positions : Tensor Z) : Prop :=
  shape new = shape old /\ dtype new = dtype old /\
  forall ix, in_bounds ix (shape old) ->
    if listed positions (nth axis (shape old) 0%nat) (nth axis ix 0%nat)
    then dtype update = dtype old -> at_ new ix = at_ update (set_nth axis 0%nat ix)
    else at_ new ix = at_ old ix.

(** A prompt, segment ids and a decode token for two batch entries, and
    the cache after that prompt with the length counters set to 0 for the
    first entry and 1 for the second. *)
Definition two_entry_prompt : Tensor R := coords bfloat16 [1; 2; 4; 1]%nat.
Definition two_entry_ids : Tensor Z := mkTensor int32 [2; 4]%nat (fun _ => 1%Z).
Definition two_entry_token : Tensor R :=
  mkTensor bfloat16 [1; 2; 1; 1]%nat (fun ix => (INR (nth 1 ix 0%nat) + 7)%R).
Definition uneven_lengths : Tensor Z :=
  mkTensor int32 [2%nat] (fun ix => Z.of_nat (nth 0 ix 0%nat)).
Definition cache_with_uneven_lengths : Cache :=
  set_int cache_ar_lengths uneven_lengths
    (snd (kv_cache_prefill no_quantize example_op two_entry_prompt two_entry_prompt
            (Some two_entry_ids) empty_cache)).

(** A kernel stand-in with results of the shapes the ragged kernel
    returns for a query of shape [(heads, batch, 1, kv)]: the query as the
    normalised output, row maxima 0 and row sums 1. *)
Definition plain_kernel (q k v : Tensor R) (lengths : Tensor Z)
    : Tensor R * Tensor R * Tensor R :=
  (q, zeros 0%R float32 (removelast (shape q)),
   zeros 1%R float32 (removelast (shape q))).

(* ================================================================= *)
(** * Properties *)

(** ** Sums and maxima over an index range *)

Lemma Rsum_n_ext (f g : nat -> R) (n : nat) :
  (forall i, (i < n)%nat -> f i = g i) -> Rsum_n f n = Rsum_n g n.
Proof.
  induction n as [|n IH]; simpl; intros H; [reflexivity|].
  rewrite IH, (H n) by auto with arith. reflexivity.
Qed.

Lemma Rsum_n_app (f : nat -> R) (a b : nat) :
  Rsum_n f (a + b) = (Rsum_n f a + Rsum_n (fun i => f (a + i)%nat) b)%R.
Proof.
  induction b as [|b IH].
  - rewrite Nat.add_0_r. simpl. lra.
  - rewrite Nat.add_succ_r. simpl. rewrite IH. lra.
Qed.

Lemma Rsum_n_scal (c : R) (f : nat -> R) (n : nat) :
  (c * Rsum_n f n)%R = Rsum_n (fun i => c * f i)%R n.
Proof. induction n as [|n IH]; simpl; [lra|]. rewrite <- IH. lra. Qed.

Lemma Rsum_n_pos (f : nat -> R) (n : nat) :
  (0 < n)%nat -> (forall i, 0 < f i)%R -> (0 < Rsum_n f n)%R.
Proof.
  intros Hn Hf. destruct n as [|n]; [lia|]. clear Hn.
  induction n as [|n IH]; simpl in *.
  - specialize (Hf 0%nat). lra.
  - specialize (Hf (S n)). lra.
Qed.

Lemma Rmax_upto_ext (f g : nat -> R) (n : nat) :
  (forall i, (i <= n)%nat -> f i = g i) -> Rmax_upto f n = Rmax_upto g n.
Proof.
  induction n as [|n IH]; simpl; intros H.
  - apply H. lia.
  - rewrite IH, (H (S n)) by auto with arith. reflexivity.
Qed.

Lemma Rmax_upto_app (f : nat -> R) (a b : nat) :
  Rmax_upto f (S (a + b)) =
  Rmax (Rmax_upto f a) (Rmax_upto (fun i => f (S a + i)%nat) b).
Proof.
  induction b as [|b IH].
  - rewrite Nat.add_0_r. simpl. rewrite Nat.add_0_r. reflexivity.
  - rewrite Nat.add_succ_r.
    change (Rmax_upto f (S (S (a + b))))
      with (Rmax (Rmax_upto f (S (a + b))) (f (S (S (a + b))))).
    rewrite IH.
    change (Rmax_upto (fun i => f (S a + i)%nat) (S b))
      with (Rmax (Rmax_upto (fun i => f (S a + i)%nat) b) (f (S a + S b)%nat)).
    rewrite <- Rmax_assoc. do 3 f_equal. lia.
Qed.

(** The identity behind the online softmax: rescaling the statistics of
    two chunks to their common maximum gives the statistics of the
    concatenated row. *)
Lemma online_softmax_merge (f1 f2 g1 g2 : nat -> R) (S1 S2 : nat) :
  (0 < S1)%nat -> (0 < S2)%nat ->
  let f := fun s => if (s <? S1)%nat then f1 s else f2 (s - S1)%nat in
  let g := fun s => if (s <? S1)%nat then g1 s else g2 (s - S1)%nat in
  let M1 := Rmax_upto f1 (S1 - 1) in
  let M2 := Rmax_upto f2 (S2 - 1) in
  let sum1 := Rsum_n (fun s => exp (f1 s - M1)) S1 in
  let sum2 := Rsum_n (fun s => exp (f2 s - M2)) S2 in
  let out1 := Rsum_n (fun s => exp (f1 s - M1) * g1 s)%R S1 in
  let out2 := Rsum_n (fun s => exp (f2 s - M2) * g2 s)%R S2 in
  let M := Rmax M1 M2 in
  let gs := (0 + exp (M1 - M) * sum1 + exp (M2 - M) * sum2)%R in
  let Mf := Rmax_upto f (S1 + S2 - 1) in
  (0 + exp (M1 - M) / gs * out1 + exp (M2 - M) / gs * out2)%R =
  (Rsum_n (fun s => exp (f s - Mf) * g s)%R (S1 + S2)
   / Rsum_n (fun s => exp (f s - Mf)) (S1 + S2))%R.
Proof.
  intros H1 H2 f g M1 M2 sum1 sum2 out1 out2 M gs Mf.
  assert (HM : Mf = M).
  { unfold Mf, M, M1, M2.
    replace (S1 + S2 - 1)%nat with (S ((S1 - 1) + (S2 - 1))) by lia.
    rewrite Rmax_upto_app. f_equal.
    - apply Rmax_upto_ext. intros i Hi. unfold f.
      destruct (Nat.ltb_spec i S1); [reflexivity|lia].
    - apply Rmax_upto_ext. intros i Hi. unfold f.
      destruct (Nat.ltb_spec (S (S1 - 1) + i) S1); [lia|].
      f_equal. lia. }
  rewrite HM.
  assert (Hexp : forall x Mi, (exp (Mi - M) * exp (x - Mi) = exp (x - M))%R).
  { intros x Mi. rewrite <- exp_plus. f_equal. lra. }
  assert (Hsplit : forall (F h0 h1 : nat -> R),
    (forall s, F s = if (s <? S1)%nat then h0 s else h1 (s - S1)%nat) ->
    Rsum_n F (S1 + S2) = (Rsum_n h0 S1 + Rsum_n h1 S2)%R).
  { intros F h0 h1 HF. rewrite Rsum_n_app. f_equal.
    - apply Rsum_n_ext. intros i Hi. rewrite HF.
      destruct (Nat.ltb_spec i S1); [reflexivity|lia].
    - apply Rsum_n_ext. intros i Hi. rewrite HF.
      destruct (Nat.ltb_spec (S1 + i) S1); [lia|]. f_equal. lia. }
  set (A1 := Rsum_n (fun s => exp (f1 s - M) * g1 s)%R S1).
  set (A2 := Rsum_n (fun s => exp (f2 s - M) * g2 s)%R S2).
  set (B1 := Rsum_n (fun s => exp (f1 s - M)) S1).
  set (B2 := Rsum_n (fun s => exp (f2 s - M)) S2).
  assert (Eo1 : (exp (M1 - M) * out1 = A1)%R).
  { unfold out1, A1. rewrite Rsum_n_scal. apply Rsum_n_ext. intros i _.
    rewrite <- Rmult_assoc, Hexp. reflexivity. }
  assert (Eo2 : (exp (M2 - M) * out2 = A2)%R).
  { unfold out2, A2. rewrite Rsum_n_scal. apply Rsum_n_ext. intros i _.
    rewrite <- Rmult_assoc, Hexp. reflexivity. }
  assert (Es1 : (exp (M1 - M) * sum1 = B1)%R).
  { unfold sum1, B1. rewrite Rsum_n_scal. apply Rsum_n_ext. intros i _.
    apply Hexp. }
  assert (Es2 : (exp (M2 - M) * sum2 = B2)%R).
  { unfold sum2, B2. rewrite Rsum_n_scal. apply Rsum_n_ext. intros i _.
    apply Hexp. }
  assert (HB1 : (0 < B1)%R) by (apply Rsum_n_pos; [lia|intros; apply exp_pos]).
  assert (HB2 : (0 < B2)%R) by (apply Rsum_n_pos; [lia|intros; apply exp_pos]).
  rewrite (Hsplit (fun s => exp (f s - M) * g s)%R
                  (fun s => exp (f1 s - M) * g1 s)%R
                  (fun s => exp (f2 s - M) * g2 s)%R)
    by (intros s; unfold f, g; destruct (s <? S1)%nat; reflexivity).
  rewrite (Hsplit (fun s => exp (f s - M))
                  (fun s => exp (f1 s - M)) (fun s => exp (f2 s - M)))
    by (intros s; unfold f; destruct (s <? S1)%nat; reflexivity).
  fold A1 A2 B1 B2.
  unfold gs. rewrite Es1, Es2.
  replace (0 + exp (M1 - M) / (0 + B1 + B2) * out1
           + exp (M2 - M) / (0 + B1 + B2) * out2)%R
    with ((exp (M1 - M) * out1 + exp (M2 - M) * out2) / (B1 + B2))%R
    by (field; lra).
  rewrite Eo1, Eo2. reflexivity.
Qed.

(** ** Layout lemmas *)

Lemma ravel_from_acc (sh : list nat) :
  forall ix acc, in_bounds ix sh ->
    ravel_from acc sh ix = (acc * prod_list sh + ravel_from 0 sh ix)%nat /\
    (ravel_from 0 sh ix < prod_list sh)%nat.
Proof.
  induction sh as [|n sh IH]; intros [|i ix] acc Hb; simpl in Hb;
    try contradiction.
  - simpl. lia.
  - destruct Hb as [Hi Hb]. cbn [ravel_from prod_list].
    destruct (IH ix (acc * n + i)%nat Hb) as [E1 _].
    destruct (IH ix (0 * n + i)%nat Hb) as [E2 Hlt].
    rewrite E1, E2. split; nia.
Qed.

Lemma unravel_ravel (sh : list nat) :
  forall ix, in_bounds ix sh -> unravel sh (ravel sh ix) = ix.
Proof.
  induction sh as [|n sh IH]; intros [|i ix] Hb; simpl in Hb;
    try contradiction; [reflexivity|].
  destruct Hb as [Hi Hb]. unfold ravel. cbn [ravel_from unravel].
    destruct (ravel_from_acc sh ix (0 * n + i)%nat Hb) as [E Hlt].
    rewrite E. replace (0 * n + i)%nat with i by lia.
  f_equal.
  - symmetry. apply Nat.div_unique with (r := ravel_from 0 sh ix); [exact Hlt|lia].
  - rewrite <- (IH ix Hb) at 2. f_equal. unfold ravel.
    symmetry. apply Nat.mod_unique with (q := i); [exact Hlt|lia].
Qed.

Lemma reshape_at {A} (x : Tensor A) (sh ix jx : list nat) :
  in_bounds jx (shape x) -> ravel sh ix = ravel (shape x) jx ->
  at_ (reshape x sh) ix = at_ x jx.
Proof.
  intros Hb E. unfold reshape. cbn [at_]. rewrite E, unravel_ravel by exact Hb.
  reflexivity.
Qed.

Lemma bsel_lt (n i : nat) : (i < n)%nat -> bsel n i = i.
Proof. unfold bsel. destruct (Nat.eqb_spec n 1); lia. Qed.

Lemma bsel_1 (i : nat) : bsel 1 i = 0%nat.
Proof. reflexivity. Qed.

Lemma bdim_same (a : nat) : bdim a a = a.
Proof. unfold bdim. destruct (Nat.eqb_spec a 1); congruence. Qed.

Lemma bdim_1_l (b : nat) : bdim 1 b = b.
Proof. reflexivity. Qed.

Lemma bdim_1_r (a : nat) : bdim a 1 = a.
Proof. unfold bdim. destruct (Nat.eqb_spec a 1); congruence. Qed.

Lemma bidx_in_bounds (sh : list nat) :
  forall ix, in_bounds ix sh -> bidx sh ix = ix.
Proof.
  unfold bidx. induction sh as [|n sh IH]; intros [|i ix] Hb; simpl in Hb;
    try contradiction.
  - reflexivity.
  - destruct Hb as [Hi Hb].
    assert (L : length ix = length sh).
    { clear -Hb. revert ix Hb. induction sh as [|m sh IH]; intros [|j ix] Hb;
        simpl in *; try contradiction; [reflexivity|].
      f_equal. apply IH. tauto. }
    cbn [length]. rewrite L, Nat.sub_diag. cbn [skipn zip_with].
    rewrite bsel_lt by exact Hi. f_equal.
    specialize (IH ix Hb). rewrite L, Nat.sub_diag in IH. exact IH.
Qed.

Arguments bsel : simpl never.
Arguments bdim : simpl never.

(** ** Broadcasting at the shapes the attention code uses *)

Ltac bnorm :=
  cbn [shape at_ dtype broadcast2 arith2 broadcast_shapes bidx pad_left
       zip_with skipn repeat length Nat.max Nat.sub app nth];
  repeat (progress rewrite ?bdim_same, ?bdim_1_r, ?bdim_1_l, ?Nat.mul_1_r);
  repeat (progress rewrite ?bsel_1);
  repeat match goal with
         | H : (?i < ?n)%nat |- context [bsel ?n ?i] => rewrite !(bsel_lt H)
         end.

Lemma broadcast_shapes_same (sh : list nat) : broadcast_shapes sh sh = sh.
Proof.
  unfold broadcast_shapes, pad_left. rewrite Nat.max_id, Nat.sub_diag. simpl.
  induction sh as [|n sh IH]; simpl; [reflexivity|].
  rewrite bdim_same, IH. reflexivity.
Qed.

Lemma broadcast_shapes_scalar (sh : list nat) : broadcast_shapes [] sh = sh.
Proof.
  unfold broadcast_shapes, pad_left. simpl. rewrite Nat.sub_0_r, Nat.sub_diag.
  simpl. rewrite app_nil_r.
  induction sh as [|n sh IH]; simpl; [reflexivity|].
  rewrite bdim_1_l, IH. reflexivity.
Qed.

Lemma arith2_same (f : R -> R -> R) (x y : Tensor R) (sh : list nat) :
  shape x = sh -> shape y = sh ->
  shape (arith2 f x y) = sh /\
  forall ix, in_bounds ix sh -> at_ (arith2 f x y) ix = f (at_ x ix) (at_ y ix).
Proof.
  intros Hx Hy. unfold arith2, broadcast2. cbn [shape at_]. rewrite Hx, Hy.
  split; [apply broadcast_shapes_same|].
  intros ix Hb. rewrite bidx_in_bounds by exact Hb. reflexivity.
Qed.

Lemma arith2_scalar_l (f : R -> R -> R) (c : R) (y : Tensor R) :
  shape (arith2 f (scalar c) y) = shape y /\
  forall ix, in_bounds ix (shape y) ->
    at_ (arith2 f (scalar c) y) ix = f c (at_ y ix).
Proof.
  unfold arith2, broadcast2, scalar. cbn [shape at_].
  split; [apply broadcast_shapes_scalar|].
  intros ix Hb. rewrite bidx_in_bounds by exact Hb. reflexivity.
Qed.

(** A per-row statistic of shape [(a, b, c, 1)] against a full array of
    shape [(a, b, c, d)]. *)
Lemma arith2_stat_l (f : R -> R -> R) (x y : Tensor R) (a b c d : nat) :
  shape x = [a; b; c; 1]%nat -> shape y = [a; b; c; d]%nat ->
  shape (arith2 f x y) = [a; b; c; d]%nat /\
  forall i j k l, (i < a)%nat -> (j < b)%nat -> (k < c)%nat -> (l < d)%nat ->
    at_ (arith2 f x y) [i; j; k; l]%nat =
    f (at_ x [i; j; k; 0]%nat) (at_ y [i; j; k; l]%nat).
Proof.
  intros Hx Hy. unfold arith2, broadcast2. cbn [shape at_]. rewrite Hx, Hy.
  split.
  - bnorm. reflexivity.
  - intros i j k l Hi Hj Hk Hl. bnorm. reflexivity.
Qed.

Lemma arith2_stat_r (f : R -> R -> R) (x y : Tensor R) (a b c d : nat) :
  shape x = [a; b; c; d]%nat -> shape y = [a; b; c; 1]%nat ->
  shape (arith2 f x y) = [a; b; c; d]%nat /\
  forall i j k l, (i < a)%nat -> (j < b)%nat -> (k < c)%nat -> (l < d)%nat ->
    at_ (arith2 f x y) [i; j; k; l]%nat =
    f (at_ x [i; j; k; l]%nat) (at_ y [i; j; k; 0]%nat).
Proof.
  intros Hx Hy. unfold arith2, broadcast2. cbn [shape at_]. rewrite Hx, Hy.
  split.
  - bnorm. reflexivity.
  - intros i j k l Hi Hj Hk Hl. bnorm. reflexivity.
Qed.

Lemma unravel_ravel2 (sh1 sh2 ix jx : list nat) :
  in_bounds jx sh1 -> ravel sh2 ix = ravel sh1 jx ->
  unravel sh1 (ravel sh2 ix) = jx.
Proof. intros Hb E. rewrite E. apply unravel_ravel, Hb. Qed.

Arguments unravel : simpl never.
Arguments ravel : simpl never.

(** The statistics are moved from [(k, b, 1, t, 1)] to [(k, b, t, 1)]. *)
Lemma stat_layout (x : Tensor R) (K B T : nat) :
  shape x = [K; B; 1; T; 1]%nat ->
  let y := moveaxis1 x (ndim x - 2) 2 in
  let z := reshape y [dim y 0; dim y 1; dim y 2 * dim y 3; 1]%nat in
  shape z = [K; B; T; 1]%nat /\
  forall k b t, (k < K)%nat -> (b < B)%nat -> (t < T)%nat ->
    at_ z [k; b; t; 0]%nat = at_ x [k; b; 0; t; 0]%nat.
Proof.
  intros Hx. destruct x as [dx shx fx]. simpl in Hx. subst shx.
  cbn. rewrite Nat.mul_1_r. split; [reflexivity|].
  intros k b t Hk Hb Ht.
  rewrite (unravel_ravel2 [K; B; T; 1; 1]%nat [K; B; T; 1]%nat
             [k; b; t; 0]%nat [k; b; t; 0; 0]%nat).
  - reflexivity.
  - simpl. lia.
  - unfold ravel. simpl. lia.
Qed.

Lemma wv_product_spec (self : AttentionOp) (e v : Tensor R) (K B T S D : nat)
    (model_mode : Mode) :
  shape e = [K; B; 1; T; S]%nat -> shape v = [K; B; S; D]%nat ->
  shape (wv_product e v model_mode) = [K; B; T; D]%nat /\
  forall k b t d, (k < K)%nat -> (b < B)%nat -> (t < T)%nat -> (d < D)%nat ->
    at_ (wv_product e v model_mode) [k; b; t; d]%nat =
    Rsum_n (fun s => at_ e [k; b; 0; t; s]%nat * at_ v [k; b; s; d]%nat)%R S.
Proof.
  intros He Hv. destruct e as [de she fe], v as [dv shv fv].
  simpl in He, Hv. subst she shv.
  unfold wv_product. cbn. rewrite Nat.mul_1_r. split; [reflexivity|].
  intros k b t d Hk Hb Ht Hd.
  rewrite (unravel_ravel2 [K; B; 1; T; D]%nat [K; B; T; D]%nat
             [k; b; t; d]%nat [k; b; 0; t; d]%nat).
  - reflexivity.
  - simpl. lia.
  - unfold ravel. simpl. lia.
Qed.

Lemma local_exps_spec (w : Tensor R) (K B T S : nat) :
  shape w = [K; B; 1; T; S]%nat ->
  let e := texp (tsub w (max_last w)) in
  shape e = [K; B; 1; T; S]%nat /\
  forall k b t s, (k < K)%nat -> (b < B)%nat -> (t < T)%nat -> (s < S)%nat ->
    at_ e [k; b; 0; t; s]%nat =
    exp (at_ w [k; b; 0; t; s]%nat
         - Rmax_upto (fun s' => at_ w [k; b; 0; t; s']%nat) (S - 1)).
Proof.
  intros Hw. destruct w as [dw shw fw]. simpl in Hw. subst shw.
  unfold texp, tsub, map_tensor, max_last, keepdims, last_dim.
  cbn [shape at_ arith2 broadcast2 removelast app last].
  split.
  - bnorm. reflexivity.
  - intros k b t s Hk Hb Ht Hs. bnorm.
    cbn [removelast app]. reflexivity.
Qed.

(** ** What [compute_local_attention] returns, element by element *)

Section LocalAttention.

Variable self : AttentionOp.

Lemma compute_local_attention_spec (w v : Tensor R) (K B T S D : nat)
    (q_seq_len : nat) (model_mode : Mode) :
  shape w = [K; B; 1; T; S]%nat -> shape v = [K; B; S; D]%nat ->
  let B' := if reshape_q self && (q_seq_len =? 1)%nat then Nat.min 1 B else B in
  let '(o, m, s) := compute_local_attention self w v q_seq_len model_mode in
  shape o = [K; B'; T; D]%nat /\ shape m = [K; B'; T; 1]%nat /\
  shape s = [K; B'; T; 1]%nat /\
  forall k b t, (k < K)%nat -> (b < B)%nat -> (t < T)%nat ->
    at_ m [k; b; t; 0]%nat = row_max w k b t /\
    at_ s [k; b; t; 0]%nat = row_sum w k b t /\
    forall d, (d < D)%nat -> at_ o [k; b; t; d]%nat = row_out w v k b t d.
Proof.
  intros Hw Hv B'. unfold compute_local_attention.
  destruct (local_exps_spec w Hw) as [She Ate].
  set (e := texp (tsub w (max_last w))) in *.
  assert (Shm : shape (max_last w) = [K; B; 1; T; 1]%nat).
  { unfold max_last, keepdims. cbn [shape]. rewrite Hw. reflexivity. }
  assert (Atm : forall k b t,
             at_ (max_last w) [k; b; 0; t; 0]%nat = row_max w k b t).
  { intros. unfold max_last, last_dim, row_max, dim. cbn [at_].
    rewrite Hw. reflexivity. }
  assert (Shs : shape (sum_last e) = [K; B; 1; T; 1]%nat).
  { unfold sum_last, keepdims. cbn [shape]. rewrite She. reflexivity. }
  assert (Ats : forall k b t, (k < K)%nat -> (b < B)%nat -> (t < T)%nat ->
             at_ (sum_last e) [k; b; 0; t; 0]%nat = row_sum w k b t).
  { intros k b t Hk Hb Ht. unfold sum_last, last_dim, row_sum, row_max, dim.
    cbn [at_]. rewrite She, Hw. cbn [last removelast app nth].
    apply Rsum_n_ext. intros s Hs. apply Ate; assumption. }
  destruct (stat_layout (max_last w) Shm) as [Shm' Atm'].
  destruct (stat_layout (sum_last e) Shs) as [Shs' Ats'].
  destruct (wv_product_spec self e v model_mode She Hv) as [Sho Ato].
  cbv zeta in Shm', Atm', Shs', Ats'.
  assert (Hrows : forall k b t, (k < K)%nat -> (b < B)%nat -> (t < T)%nat ->
    at_ (reshape (moveaxis1 (max_last w) (ndim (max_last w) - 2) 2)
           [dim (moveaxis1 (max_last w) (ndim (max_last w) - 2) 2) 0;
            dim (moveaxis1 (max_last w) (ndim (max_last w) - 2) 2) 1;
            dim (moveaxis1 (max_last w) (ndim (max_last w) - 2) 2) 2
            * dim (moveaxis1 (max_last w) (ndim (max_last w) - 2) 2) 3; 1]%nat)
        [k; b; t; 0]%nat = row_max w k b t /\
    at_ (reshape (moveaxis1 (sum_last e) (ndim (sum_last e) - 2) 2)
           [dim (moveaxis1 (sum_last e) (ndim (sum_last e) - 2) 2) 0;
            dim (moveaxis1 (sum_last e) (ndim (sum_last e) - 2) 2) 1;
            dim (moveaxis1 (sum_last e) (ndim (sum_last e) - 2) 2) 2
            * dim (moveaxis1 (sum_last e) (ndim (sum_last e) - 2) 2) 3; 1]%nat)
        [k; b; t; 0]%nat = row_sum w k b t /\
    forall d, (d < D)%nat ->
      at_ (wv_product e v model_mode) [k; b; t; d]%nat = row_out w v k b t d).
  { intros k b t Hk Hb Ht. split; [|split].
    - rewrite Atm' by assumption. apply Atm.
    - rewrite Ats' by assumption. apply Ats; assumption.
    - intros d Hd. rewrite Ato by assumption. unfold row_out, row_max, dim.
      rewrite Hw. cbn [nth]. apply Rsum_n_ext. intros s Hs.
      rewrite Ate by assumption. reflexivity. }
  subst B'. destruct (reshape_q self && (q_seq_len =? 1)%nat).
  - unfold slice_axis1_first. cbn [shape at_]. rewrite Sho, Shm', Shs'.
    repeat split; try reflexivity; apply Hrows; assumption.
  - repeat split; try assumption; apply Hrows; assumption.
Qed.

End LocalAttention.

(** ** What [normalize_attention] returns for two chunks *)

Lemma texp_spec (x : Tensor R) :
  shape (texp x) = shape x /\ forall ix, at_ (texp x) ix = exp (at_ x ix).
Proof. split; reflexivity. Qed.

Lemma normalize_attention_two (o1 o2 m1 m2 s1 s2 : Tensor R) (a b c d : nat) :
  shape o1 = [a; b; c; d]%nat -> shape o2 = [a; b; c; d]%nat ->
  shape m1 = [a; b; c; 1]%nat -> shape m2 = [a; b; c; 1]%nat ->
  shape s1 = [a; b; c; 1]%nat -> shape s2 = [a; b; c; 1]%nat ->
  exists merged,
    normalize_attention [o1; o2] [m1; m2] [s1; s2] = ok merged /\
    shape merged = [a; b; c; d]%nat /\
    forall i j k l, (i < a)%nat -> (j < b)%nat -> (k < c)%nat -> (l < d)%nat ->
      at_ merged [i; j; k; l]%nat =
      merged_row (at_ o1 [i; j; k; l]%nat) (at_ o2 [i; j; k; l]%nat)
                 (at_ m1 [i; j; k; 0]%nat) (at_ m2 [i; j; k; 0]%nat)
                 (at_ s1 [i; j; k; 0]%nat) (at_ s2 [i; j; k; 0]%nat).
Proof.
  intros Ho1 Ho2 Hm1 Hm2 Hs1 Hs2.
  unfold normalize_attention, reduce, py_sum, zip.
  cbn [rbind ok fold_left map combine].
  eexists. split; [reflexivity|].
  destruct (arith2_same Rmax m1 m2 Hm1 Hm2) as [Sgmax Agmax].
  set (gmax := maximum m1 m2) in *.
  destruct (arith2_same Rminus m1 gmax Hm1 Sgmax) as [Sd1 Ad1].
  destruct (arith2_same Rminus m2 gmax Hm2 Sgmax) as [Sd2 Ad2].
  assert (Se1 : shape (texp (tsub m1 gmax)) = [a; b; c; 1]%nat) by exact Sd1.
  assert (Se2 : shape (texp (tsub m2 gmax)) = [a; b; c; 1]%nat) by exact Sd2.
  set (e1 := texp (tsub m1 gmax)) in *. set (e2 := texp (tsub m2 gmax)) in *.
  destruct (arith2_same Rmult e1 s1 Se1 Hs1) as [St1 At1].
  destruct (arith2_same Rmult e2 s2 Se2 Hs2) as [St2 At2].
  destruct (arith2_scalar_l Rplus 0%R (tmul e1 s1)) as [Sg0 Ag0].
  rewrite St1 in Sg0, Ag0.
  destruct (arith2_same Rplus (tadd (scalar 0%R) (tmul e1 s1)) (tmul e2 s2) Sg0 St2)
    as [Sgs Ags].
  set (gsum := tadd (tadd (scalar 0%R) (tmul e1 s1)) (tmul e2 s2)) in *.
  destruct (arith2_same Rdiv e1 gsum Se1 Sgs) as [Sn1 An1].
  destruct (arith2_same Rdiv e2 gsum Se2 Sgs) as [Sn2 An2].
  destruct (arith2_stat_l Rmult (tdiv e1 gsum) o1 Sn1 Ho1) as [Sp1 Ap1].
  destruct (arith2_stat_l Rmult (tdiv e2 gsum) o2 Sn2 Ho2) as [Sp2 Ap2].
  destruct (arith2_scalar_l Rplus 0%R (tmul (tdiv e1 gsum) o1)) as [Sa0 Aa0].
  rewrite Sp1 in Sa0, Aa0.
  destruct (arith2_same Rplus (tadd (scalar 0%R) (tmul (tdiv e1 gsum) o1))
              (tmul (tdiv e2 gsum) o2) Sa0 Sp2) as [Sres Ares].
  split; [exact Sres|].
  intros i j k l Hi Hj Hk Hl.
  assert (Bfull : in_bounds [i; j; k; l]%nat [a; b; c; d]%nat) by (simpl; tauto).
  assert (Bstat : in_bounds [i; j; k; 0]%nat [a; b; c; 1]%nat) by (simpl; intuition lia).
  rewrite Ares, Aa0, Ap1, Ap2 by assumption.
  rewrite An1, An2 by assumption.
  unfold gsum. rewrite Ags, Ag0, At1, At2 by assumption.
  unfold e1, e2. rewrite !(proj2 (texp_spec _)).
  rewrite Ad1, Ad2, Agmax by assumption.
  reflexivity.
Qed.

(** ** Merging two chunks *)

Lemma in_bounds4 (ix : list nat) (a b c d : nat) :
  in_bounds ix [a; b; c; d]%nat ->
  exists i j k l, ix = [i; j; k; l]%nat /\
    (i < a)%nat /\ (j < b)%nat /\ (k < c)%nat /\ (l < d)%nat.
Proof.
  destruct ix as [|i [|j [|k [|l [|? ?]]]]]; simpl; try tauto.
  intros (Hi & Hj & Hk & Hl & _). exists i, j, k, l. tauto.
Qed.

(** C1.  For every score array split into two chunks along the
    key/value-length axis (one query head per key/value head, as
    [check_attention_inputs] demands), merging the per-chunk results of
    [compute_local_attention] with [normalize_attention] gives the
    softmax-weighted values over the concatenated chunks: with [score j]
    and [val j] the scores and values of the two chunks laid end to end
    and [top] the largest score of the row, each element is the sum of
    [exp (score j - top) * val j] divided by the sum of
    [exp (score j - top)].  It is also, element by element, what one pass
    of [compute_local_attention] over the concatenation gives after the
    division by its sum of exponentials. *)
Theorem merge_of_chunks_is_one_pass_softmax
    (self : AttentionOp) (w1 w2 v1 v2 : Tensor R) (K B T S1 S2 D : nat)
    (q_seq_len : nat) (model_mode : Mode) :
  shape w1 = [K; B; 1; T; S1]%nat -> shape w2 = [K; B; 1; T; S2]%nat ->
  shape v1 = [K; B; S1; D]%nat -> shape v2 = [K; B; S2; D]%nat ->
  (0 < S1)%nat -> (0 < S2)%nat ->
  let '(o1, m1, s1) := compute_local_attention self w1 v1 q_seq_len model_mode in
  let '(o2, m2, s2) := compute_local_attention self w2 v2 q_seq_len model_mode in
  let '(o, m, s) :=
    compute_local_attention self (concatenate w1 w2 4) (concatenate v1 v2 2)
      q_seq_len model_mode in
  exists merged,
    normalize_attention [o1; o2] [m1; m2] [s1; s2] = ok merged /\
    shape merged = shape (tdiv o s) /\
    (forall ix, in_bounds ix (shape merged) ->
       at_ merged ix = at_ (tdiv o s) ix) /\
    shape merged
      = [K; if reshape_q self && (q_seq_len =? 1)%nat then Nat.min 1 B else B;
         T; D]%nat /\
    forall k b t d,
      (k < K)%nat -> (b < nth 1 (shape merged) 0)%nat -> (t < T)%nat -> (d < D)%nat ->
      let score := fun j => if (j <? S1)%nat then at_ w1 [k; b; 0; t; j]%nat
                            else at_ w2 [k; b; 0; t; j - S1]%nat in
      let val := fun j => if (j <? S1)%nat then at_ v1 [k; b; j; d]%nat
                          else at_ v2 [k; b; j - S1; d]%nat in
      let top := Rmax_upto score (S1 + S2 - 1) in
      at_ merged [k; b; t; d]%nat
      = (Rsum_n (fun j => exp (score j - top) * val j) (S1 + S2)
         / Rsum_n (fun j => exp (score j - top)) (S1 + S2))%R.
Proof.
  intros Hw1 Hw2 Hv1 Hv2 HS1 HS2.
  pose proof (compute_local_attention_spec self w1 v1 q_seq_len model_mode Hw1 Hv1) as C1.
  pose proof (compute_local_attention_spec self w2 v2 q_seq_len model_mode Hw2 Hv2) as C2.
  assert (Hwc : shape (concatenate w1 w2 4) = [K; B; 1; T; S1 + S2]%nat).
  { unfold concatenate. cbn [shape]. rewrite Hw1, Hw2. reflexivity. }
  assert (Hvc : shape (concatenate v1 v2 2) = [K; B; S1 + S2; D]%nat).
  { unfold concatenate. cbn [shape]. rewrite Hv1, Hv2. reflexivity. }
  pose proof (compute_local_attention_spec self _ _ q_seq_len model_mode Hwc Hvc) as C.
  cbv zeta in C1, C2, C.
  destruct (compute_local_attention self w1 v1 q_seq_len model_mode) as [[o1 m1] s1].
  destruct (compute_local_attention self w2 v2 q_seq_len model_mode) as [[o2 m2] s2].
  destruct (compute_local_attention self (concatenate w1 w2 4)
              (concatenate v1 v2 2) q_seq_len model_mode) as [[o m] s].
  set (B' := if reshape_q self && (q_seq_len =? 1)%nat then Nat.min 1 B else B) in *.
  assert (HB' : forall b, (b < B')%nat -> (b < B)%nat).
  { intros b. unfold B'. destruct (reshape_q self && (q_seq_len =? 1)%nat); lia. }
  destruct C1 as (So1 & Sm1 & Ss1 & R1).
  destruct C2 as (So2 & Sm2 & Ss2 & R2).
  destruct C as (So & Sm & Ss & Rc).
  destruct (normalize_attention_two o1 o2 m1 m2 s1 s2 So1 So2 Sm1 Sm2 Ss1 Ss2)
    as (merged & Hnorm & Smerged & Amerged).
  destruct (arith2_stat_r Rdiv o s So Ss) as [Sdiv Adiv].
  assert (Explicit : forall k b t d,
            (k < K)%nat -> (b < B')%nat -> (t < T)%nat -> (d < D)%nat ->
            at_ merged [k; b; t; d]%nat
            = (Rsum_n (fun j =>
                         exp ((if (j <? S1)%nat then at_ w1 [k; b; 0; t; j]%nat
                               else at_ w2 [k; b; 0; t; j - S1]%nat)
                              - Rmax_upto
                                  (fun j => if (j <? S1)%nat
                                            then at_ w1 [k; b; 0; t; j]%nat
                                            else at_ w2 [k; b; 0; t; j - S1]%nat)
                                  (S1 + S2 - 1))
                         * (if (j <? S1)%nat then at_ v1 [k; b; j; d]%nat
                            else at_ v2 [k; b; j - S1; d]%nat)) (S1 + S2)
               / Rsum_n (fun j =>
                           exp ((if (j <? S1)%nat then at_ w1 [k; b; 0; t; j]%nat
                                 else at_ w2 [k; b; 0; t; j - S1]%nat)
                                - Rmax_upto
                                    (fun j => if (j <? S1)%nat
                                              then at_ w1 [k; b; 0; t; j]%nat
                                              else at_ w2 [k; b; 0; t; j - S1]%nat)
                                    (S1 + S2 - 1))) (S1 + S2))%R).
  { intros k b t d Hk Hb Ht Hd.
    rewrite Amerged by assumption.
    pose proof (HB' b Hb) as HbB.
    destruct (R1 k b t Hk HbB Ht) as (E1m & E1s & E1o).
    destruct (R2 k b t Hk HbB Ht) as (E2m & E2s & E2o).
    rewrite E1m, E1s, E1o, E2m, E2s, E2o by assumption.
    unfold merged_row, row_out, row_sum, row_max, dim.
    rewrite Hw1, Hw2. cbn [nth].
    pose proof (online_softmax_merge
                  (fun s => at_ w1 [k; b; 0; t; s]%nat)
                  (fun s => at_ w2 [k; b; 0; t; s]%nat)
                  (fun s => at_ v1 [k; b; s; d]%nat)
                  (fun s => at_ v2 [k; b; s; d]%nat) HS1 HS2) as Hmerge.
    cbv zeta in Hmerge. rewrite Hmerge. reflexivity. }
  exists merged. split; [exact Hnorm|]. split; [congruence|].
  split; [|split; [exact Smerged|]].
  - intros ix Hix. rewrite Smerged in Hix.
    destruct (in_bounds4 _ _ _ _ _ Hix) as (k & b & t & d & -> & Hk & Hb & Ht & Hd).
    rewrite Explicit, Adiv by assumption.
    destruct (Rc k b t Hk (HB' b Hb) Ht) as (Em & Es & Eo).
    rewrite Es, Eo by assumption.
    unfold row_out, row_sum, row_max, dim. rewrite Hwc. cbn [nth].
    assert (Ew : forall s', at_ (concatenate w1 w2 4) [k; b; 0; t; s']%nat =
                   if (s' <? S1)%nat then at_ w1 [k; b; 0; t; s']%nat
                   else at_ w2 [k; b; 0; t; (s' - S1)]%nat).
    { intros s'. unfold concatenate. cbn [at_ nth]. rewrite Hw1. reflexivity. }
    assert (Ev : forall s', at_ (concatenate v1 v2 2) [k; b; s'; d]%nat =
                   if (s' <? S1)%nat then at_ v1 [k; b; s'; d]%nat
                   else at_ v2 [k; b; (s' - S1); d]%nat).
    { intros s'. unfold concatenate. cbn [at_ nth]. rewrite Hv1. reflexivity. }
    assert (Emax : Rmax_upto (fun s0 => at_ (concatenate w1 w2 4) [k; b; 0; t; s0]%nat)
                     (S1 + S2 - 1) =
                   Rmax_upto (fun s0 => if (s0 <? S1)%nat
                                        then at_ w1 [k; b; 0; t; s0]%nat
                                        else at_ w2 [k; b; 0; t; (s0 - S1)]%nat)
                     (S1 + S2 - 1)).
    { apply Rmax_upto_ext. intros i _. apply Ew. }
    rewrite Emax. f_equal.
    + apply Rsum_n_ext. intros i _. rewrite Ew, Ev. reflexivity.
    + apply Rsum_n_ext. intros i _. rewrite Ew. reflexivity.
  - intros k b t d Hk Hb Ht Hd. rewrite Smerged in Hb. cbn [nth] in Hb.
    exact (Explicit k b t d Hk Hb Ht Hd).
Qed.

(** ** The mask sentinel *)

Lemma float32_max_pos : (0 < float32_max)%R.
Proof.
  unfold float32_max.
  assert (H1 : (0 < 2 ^ 127)%R) by (apply pow_lt; lra).
  assert (H2 : (1 <= 2 ^ 23)%R) by (apply pow_R1_Rle; lra).
  assert (H3 : (/ 2 ^ 23 <= 1)%R).
  { rewrite <- Rinv_1. apply Rinv_le_contravar; lra. }
  apply Rmult_lt_0_compat; lra.
Qed.

Lemma DEFAULT_MASK_VALUE_neg : (DEFAULT_MASK_VALUE < 0)%R.
Proof. unfold DEFAULT_MASK_VALUE. pose proof float32_max_pos. lra. Qed.

Lemma DEFAULT_MASK_VALUE_finite : (- float32_max < DEFAULT_MASK_VALUE < 0)%R.
Proof. unfold DEFAULT_MASK_VALUE. pose proof float32_max_pos. lra. Qed.

Lemma Rge_b_true (x y : R) : (y <= x)%R -> Rge_b x y = true.
Proof. intros H. unfold Rge_b. destruct (Rle_dec y x); [reflexivity|contradiction]. Qed.

Lemma Rge_b_false (x y : R) : (x < y)%R -> Rge_b x y = false.
Proof. intros H. unfold Rge_b. destruct (Rle_dec y x); [lra|reflexivity]. Qed.

Lemma mask_permits_zero : Rge_b 0 (DEFAULT_MASK_VALUE * 0.5) = true.
Proof. apply Rge_b_true. pose proof DEFAULT_MASK_VALUE_neg. lra. Qed.

Lemma mask_forbids_sentinel :
  Rge_b DEFAULT_MASK_VALUE (DEFAULT_MASK_VALUE * 0.5) = false.
Proof. apply Rge_b_false. pose proof DEFAULT_MASK_VALUE_neg. lra. Qed.

(** C9.  At every position of its result, [apply_mask_to_logits] returns
    the logit found there when the mask value there is at least half the
    sentinel, and the constant [DEFAULT_MASK_VALUE] otherwise, whatever
    the logit was; the sentinel is a finite negative number, inside the
    [float32] range.  (Operands are broadcast; for equal shapes the
    operand position is the result position, see [bidx_in_bounds].) *)
Theorem apply_mask_to_logits_selects (logits mask : Tensor R) (ix : list nat) :
  let m := at_ mask (bidx (shape mask) ix) in
  let l := at_ logits (bidx (shape logits) ix) in
  ((DEFAULT_MASK_VALUE * 0.5 <= m)%R ->
     at_ (apply_mask_to_logits logits mask) ix = l) /\
  ((m < DEFAULT_MASK_VALUE * 0.5)%R ->
     at_ (apply_mask_to_logits logits mask) ix = DEFAULT_MASK_VALUE) /\
  (- float32_max < DEFAULT_MASK_VALUE < 0)%R.
Proof.
  intros m l. unfold apply_mask_to_logits, where_, map_tensor. cbn [at_ shape].
  fold m l. split; [|split].
  - intros H. rewrite (Rge_b_true H). reflexivity.
  - intros H. rewrite (Rge_b_false H). reflexivity.
  - exact DEFAULT_MASK_VALUE_finite.
Qed.

(** ** The train/prefill pipeline, element by element *)

Section DotAttention.

Variable ACTIVE : Z.
Variable self : AttentionOp.

Lemma qk_product_spec (q key : Tensor R) (K B T S D : nat)
    (q_seq_len : nat) (model_mode : Mode) :
  shape q = [K; B; T; D]%nat -> shape key = [K; B; S; D]%nat ->
  num_kv_heads self = K -> (0 < K)%nat ->
  exists a, qk_product self q key q_seq_len model_mode = ok a /\
    shape a = [K; B; 1; T; S]%nat /\
    forall k b t s, (k < K)%nat -> (b < B)%nat -> (t < T)%nat -> (s < S)%nat ->
      at_ a [k; b; 0; t; s]%nat = logit q key k b t s.
Proof.
  intros Hq Hk Hn HK. unfold qk_product. rewrite Hq.
  unfold dim. rewrite Hk. cbn [nth]. rewrite Hn, Nat.eqb_refl.
  cbn [assert_ rbind ok]. rewrite Nat.div_same by lia.
  eexists. split; [reflexivity|]. split; [reflexivity|].
  intros k b t s Hk' Hb Ht Hs. cbn [at_ nth]. unfold logit, dim. rewrite Hq.
  cbn [nth]. apply Rsum_n_ext. intros d Hd. f_equal.
  apply reshape_at.
  - rewrite Hq. simpl. lia.
  - rewrite Hq. unfold ravel. simpl. lia.
Qed.

Lemma mask_spec (q key : Tensor R) (segs : option (Tensor Z)) (model_mode : Mode)
    (K B T D : nat) :
  is_autoregressive model_mode = false ->
  shape q = [K; B; T; D]%nat -> shape key = [K; B; T; D]%nat ->
  match segs with Some ids => shape ids = [B; T]%nat | None => True end ->
  exists m, generate_attention_mask ACTIVE q key segs model_mode = ok (Some m) /\
    forall a, shape a = [K; B; 1; T; T]%nat ->
      shape (apply_mask_to_logits a m) = [K; B; 1; T; T]%nat /\
      forall k b i j, (k < K)%nat -> (b < B)%nat -> (i < T)%nat -> (j < T)%nat ->
        at_ (apply_mask_to_logits a m) [k; b; 0; i; j]%nat =
        if visible segs b i j then at_ a [k; b; 0; i; j]%nat
        else DEFAULT_MASK_VALUE.
Proof.
  intros Hm Hq Hk Hs. unfold generate_attention_mask. rewrite Hm.
  unfold dim. rewrite Hq, Hk. cbn [negb nth].
  destruct segs as [ids|].
  - rewrite Hs. cbn [rbind ok nth]. eexists. split; [reflexivity|].
    intros a Ha. unfold apply_mask_to_logits, where_, map_tensor, logical_and, scalar.
    cbn [shape at_ broadcast2]. rewrite Ha. split.
    + bnorm. reflexivity.
    + intros k b i j Hk' Hb Hi Hj. bnorm.
      unfold visible, same_segment.
      destruct (Z.eqb (at_ ids [b; i]%nat) (at_ ids [b; j]%nat) && (j <=? i)%nat).
      * rewrite mask_permits_zero. reflexivity.
      * rewrite mask_forbids_sentinel. reflexivity.
  - cbn [rbind ok nth]. eexists. split; [reflexivity|].
    intros a Ha. unfold apply_mask_to_logits, where_, map_tensor, scalar.
    cbn [shape at_]. rewrite Ha. split.
    + bnorm. reflexivity.
    + intros k b i j Hk' Hb Hi Hj. bnorm.
      unfold visible, same_segment. cbn [andb].
      destruct (j <=? i)%nat.
      * rewrite mask_permits_zero. reflexivity.
      * rewrite mask_forbids_sentinel. reflexivity.
Qed.

End DotAttention.

Lemma row_stats_ext (w w' v : Tensor R) (k b t S : nat) :
  dim w 4 = S -> dim w' 4 = S -> (0 < S)%nat ->
  (forall s, (s < S)%nat -> at_ w [k; b; 0; t; s]%nat = at_ w' [k; b; 0; t; s]%nat) ->
  row_max w k b t = row_max w' k b t /\
  row_sum w k b t = row_sum w' k b t /\
  forall d, row_out w v k b t d = row_out w' v k b t d.
Proof.
  intros Hw Hw' HS Hrow.
  assert (Emax : row_max w k b t = row_max w' k b t).
  { unfold row_max. rewrite Hw, Hw'. apply Rmax_upto_ext.
    intros i Hi. apply Hrow. lia. }
  split; [exact Emax|]. split.
  - unfold row_sum. rewrite Emax, Hw, Hw'. apply Rsum_n_ext.
    intros s Hs. rewrite Hrow by exact Hs. reflexivity.
  - intros d. unfold row_out. rewrite Emax, Hw, Hw'. apply Rsum_n_ext.
    intros s Hs. rewrite Hrow by exact Hs. reflexivity.
Qed.

Section DotAttentionPipeline.

Variable ACTIVE : Z.
Variable self : AttentionOp.

Lemma apply_attention_dot_spec (q key v : Tensor R) (segs : option (Tensor Z))
    (model_mode : Mode) (K B T D : nat) :
  is_autoregressive model_mode = false ->
  validate_compute_axis_order (compute_axis_order self) = ok tt ->
  shape q = [K; B; T; D]%nat -> shape key = [K; B; T; D]%nat ->
  num_kv_heads self = K -> (0 < K)%nat ->
  match segs with Some ids => shape ids = [B; T]%nat | None => True end ->
  exists w,
    apply_attention_dot ACTIVE self q key v segs model_mode =
      ok (compute_local_attention self w v T model_mode) /\
    shape w = [K; B; 1; T; T]%nat /\
    forall k b i j, (k < K)%nat -> (b < B)%nat -> (i < T)%nat -> (j < T)%nat ->
      at_ w [k; b; 0; i; j]%nat = masked_logit q key segs k b i j.
Proof.
  intros Hm Hval Hq Hk Hn HK Hs. unfold apply_attention_dot.
  rewrite Hval. cbn [rbind ok].
  set (ops := qk_operands self q key model_mode).
  assert (Hops : exists q' key', ops = (q', key') /\
            shape q' = [K; B; T; D]%nat /\ shape key' = [K; B; T; D]%nat /\
            at_ q' = at_ q /\ at_ key' = at_ key).
  { unfold ops, qk_operands.
    destruct (is_train model_mode && float32_qk_product self);
      eexists; eexists; (split; [reflexivity|]); cbn [astype shape at_]; auto. }
  destruct Hops as (q' & key' & -> & Hq' & Hk' & Eq & Ek).
  assert (Hd : dim q' 2 = T) by (unfold dim; rewrite Hq'; reflexivity).
  rewrite Hd.
  destruct (qk_product_spec self q' key' T model_mode Hq' Hk' Hn HK)
    as (a & Ea & Sa & Aa).
  rewrite Ea. cbn [rbind ok].
  destruct (mask_spec ACTIVE q' key' segs model_mode Hm Hq' Hk' Hs)
    as (m & Em & Hmask).
  rewrite Em. cbn [rbind ok].
  set (a' := if is_train model_mode && float32_logits self
             then astype a float32 else a).
  assert (Sa' : shape a' = [K; B; 1; T; T]%nat).
  { unfold a'. destruct (is_train model_mode && float32_logits self); exact Sa. }
  assert (Aa' : at_ a' = at_ a).
  { unfold a'. destruct (is_train model_mode && float32_logits self); reflexivity. }
  destruct (Hmask a' Sa') as [Sw Aw].
  eexists. split; [reflexivity|]. split; [exact Sw|].
  intros k b i j Hk'' Hb Hi Hj. rewrite Aw by assumption.
  unfold masked_logit. rewrite Aa', Aa by assumption.
  unfold logit, dim. rewrite Hq, Hq', Eq, Ek. reflexivity.
Qed.

Lemma check_attention_inputs_ok (q key v : Tensor R) (K B T D : nat) :
  shape q = [K; B; T; D]%nat -> shape key = [K; B; T; D]%nat ->
  shape v = [K; B; T; D]%nat ->
  check_attention_inputs q key v = ok tt.
Proof.
  intros Hq Hk Hv. unfold check_attention_inputs, ndim, dim, list_nat_eqb.
  rewrite Hq, Hk, Hv. cbn [length Nat.sub firstn nth].
  rewrite !Nat.eqb_refl.
  destruct (list_eq_dec Nat.eq_dec [K] [K]); [|congruence].
  reflexivity.
Qed.

End DotAttentionPipeline.

(** ** Causality in train and prefill mode *)

(** C2, as the code has it.  In train and prefill mode the score of key
    position [j] for query position [i] is kept iff [j <= i] (and the two
    positions share a segment, when segment ids are given); every other
    score is replaced by [DEFAULT_MASK_VALUE], whatever the key is.  So two
    runs whose keys agree up to position [i] return the same output at
    query position [i].  Value entries behind [i] are not cut off: each
    enters the output row with the weight [exp (DEFAULT_MASK_VALUE - row
    maximum)], which is positive because the sentinel is finite. *)
Theorem causal_mask_hides_future_keys
    (ACTIVE : Z)
    (kernel : Tensor R -> Tensor R -> Tensor R -> Tensor Z ->
              Tensor R * Tensor R * Tensor R)
    (self : AttentionOp) (q key key' v : Tensor R)
    (segs lengths : option (Tensor Z)) (model_mode : Mode) (use_ragged : bool)
    (K B T D i : nat) :
  model_mode = MODEL_MODE_TRAIN \/ model_mode = MODEL_MODE_PREFILL ->
  validate_compute_axis_order (compute_axis_order self) = ok tt ->
  shape q = [K; B; T; D]%nat -> shape key = [K; B; T; D]%nat ->
  shape key' = [K; B; T; D]%nat -> shape v = [K; B; T; D]%nat ->
  num_kv_heads self = K -> (0 < K)%nat ->
  match segs with Some ids => shape ids = [B; T]%nat | None => True end ->
  (i < T)%nat ->
  (forall k b j d, (j <= i)%nat ->
     at_ key [k; b; j; d]%nat = at_ key' [k; b; j; d]%nat) ->
  exists w w',
    apply_attention ACTIVE kernel self q key v segs lengths model_mode use_ragged
      = ok (compute_local_attention self w v T model_mode) /\
    apply_attention ACTIVE kernel self q key' v segs lengths model_mode use_ragged
      = ok (compute_local_attention self w' v T model_mode) /\
    (forall k b j, (k < K)%nat -> (b < B)%nat -> (j < T)%nat ->
       at_ w [k; b; 0; i; j]%nat =
       if same_segment segs b i j && (j <=? i)%nat
       then logit q key k b i j else DEFAULT_MASK_VALUE) /\
    (forall k b j, (k < K)%nat -> (b < B)%nat -> (j < T)%nat ->
       at_ w [k; b; 0; i; j]%nat = at_ w' [k; b; 0; i; j]%nat) /\
    let '(o, _, s) := compute_local_attention self w v T model_mode in
    let '(o', _, s') := compute_local_attention self w' v T model_mode in
    forall ix, in_bounds ix (shape (tdiv o s)) -> nth 2 ix 0%nat = i ->
      at_ (tdiv o s) ix = at_ (tdiv o' s') ix.
Proof.
  intros Hmode Hval Hq Hk Hk' Hv Hn HK Hs Hi Hagree.
  assert (Hm : is_autoregressive model_mode = false)
    by (destruct Hmode; subst; reflexivity).
  destruct (apply_attention_dot_spec ACTIVE self q key v segs model_mode
              Hm Hval Hq Hk Hn HK Hs) as (w & Ew & Sw & Aw).
  destruct (apply_attention_dot_spec ACTIVE self q key' v segs model_mode
              Hm Hval Hq Hk' Hn HK Hs) as (w' & Ew' & Sw' & Aw').
  exists w, w'.
  unfold apply_attention.
  rewrite (check_attention_inputs_ok q key v Hq Hk Hv).
  rewrite (check_attention_inputs_ok q key' v Hq Hk' Hv).
  cbn [rbind ok]. rewrite Hm, andb_false_r.
  split; [exact Ew|]. split; [exact Ew'|].
  assert (Hrow : forall k b j, (k < K)%nat -> (b < B)%nat -> (j < T)%nat ->
             at_ w [k; b; 0; i; j]%nat = at_ w' [k; b; 0; i; j]%nat).
  { intros k b j Hk0 Hb Hj. rewrite Aw, Aw' by assumption.
    unfold masked_logit, visible.
    destruct (same_segment segs b i j); cbn [andb]; [|reflexivity].
    destruct (Nat.leb_spec j i); [|reflexivity].
    unfold logit. apply Rsum_n_ext. intros d _. rewrite Hagree by assumption.
    reflexivity. }
  split; [intros k b j Hk0 Hb Hj; rewrite Aw by assumption; reflexivity|].
  split; [exact Hrow|].
  pose proof (compute_local_attention_spec self w v T model_mode Sw Hv) as C.
  pose proof (compute_local_attention_spec self w' v T model_mode Sw' Hv) as C'.
  cbv zeta in C, C'.
  destruct (compute_local_attention self w v T model_mode) as [[o m] s].
  destruct (compute_local_attention self w' v T model_mode) as [[o' m'] s'].
  set (B' := if reshape_q self && (T =? 1)%nat then Nat.min 1 B else B) in *.
  assert (HB' : forall b, (b < B')%nat -> (b < B)%nat).
  { intros b. unfold B'. destruct (reshape_q self && (T =? 1)%nat); lia. }
  destruct C as (So & _ & Ss & R1). destruct C' as (So' & _ & Ss' & R2).
  destruct (arith2_stat_r Rdiv o s So Ss) as [Sdiv Adiv].
  destruct (arith2_stat_r Rdiv o' s' So' Ss') as [Sdiv' Adiv'].
  intros ix Hix Hpos. rewrite Sdiv in Hix.
  destruct (in_bounds4 _ _ _ _ _ Hix) as (k & b & t & d & -> & Hk0 & Hb & Ht & Hd).
  cbn [nth] in Hpos. subst t.
  rewrite Adiv, Adiv' by assumption.
  specialize (HB' b Hb).
  destruct (R1 k b i Hk0 HB' Hi) as (_ & E1s & E1o).
  destruct (R2 k b i Hk0 HB' Hi) as (_ & E2s & E2o).
  rewrite E1s, E1o, E2s, E2o by assumption.
  assert (HT : (0 < T)%nat) by lia.
  destruct (@row_stats_ext w w' v k b i T) as (_ & Es & Eo);
    try (unfold dim; rewrite ?Sw, ?Sw'; reflexivity); try assumption.
  { intros s0 Hs0. apply Hrow; assumption. }
  rewrite Es, Eo. reflexivity.
Qed.

Lemma sentinel_run (c : R) :
  exists o m s,
    apply_attention 1 unused_kernel example_op (const_tensor 1) sentinel_key
      (value_at_1 c) None None MODEL_MODE_TRAIN true = ok (o, m, s) /\
    at_ (tdiv o s) [0; 0; 0; 0]%nat = (c / 2)%R.
Proof.
  destruct (@apply_attention_dot_spec 1 example_op (const_tensor 1) sentinel_key
              (value_at_1 c) None MODEL_MODE_TRAIN 1 1 2 1
              eq_refl eq_refl eq_refl eq_refl eq_refl Nat.lt_0_1 I)
    as (w & Ew & Sw & Aw).
  pose proof (@compute_local_attention_spec example_op w (value_at_1 c)
                1 1 2 2 1 2 MODEL_MODE_TRAIN Sw eq_refl) as C.
  cbv zeta in C.
  destruct (compute_local_attention example_op w (value_at_1 c) 2 MODEL_MODE_TRAIN)
    as [[o m] s] eqn:E.
  cbn [example_op reshape_q andb] in C.
  destruct C as (So & _ & Ss & Rows).
  exists o, m, s. split.
  - unfold apply_attention.
    rewrite (@check_attention_inputs_ok (const_tensor 1) sentinel_key
               (value_at_1 c) 1 1 2 1 eq_refl eq_refl eq_refl).
    cbn [rbind ok is_autoregressive andb]. rewrite Ew. reflexivity.
  - destruct (arith2_stat_r Rdiv o s So Ss) as [_ Adiv].
    rewrite Adiv by lia.
    destruct (Rows 0%nat 0%nat 0%nat Nat.lt_0_1 Nat.lt_0_1 Nat.lt_0_2)
      as (_ & Es & Eo).
    rewrite Es, (Eo 0%nat Nat.lt_0_1).
    unfold row_out, row_sum, row_max, dim. rewrite Sw.
    cbn [nth Nat.sub Rsum_n Rmax_upto].
    rewrite !Aw by lia.
    unfold masked_logit, visible, same_segment, logit, dim.
    cbn [const_tensor sentinel_key value_at_1 shape at_ nth Nat.leb Nat.eqb
         andb Rsum_n].
    replace (0 + 1 * DEFAULT_MASK_VALUE)%R with DEFAULT_MASK_VALUE by lra.
    rewrite Rmax_left by lra.
    rewrite Rminus_diag, exp_0. field.
Qed.

(** C2, as stated, fails: with the key at position 0 equal to the mask
    sentinel, the output at query position 0 is the mean of the values
    at positions 0 and 1, so changing only the value at position 1
    changes it. *)
Lemma future_value_changes_output :
  (forall k b d, at_ (value_at_1 0) [k; b; 0; d]%nat =
                 at_ (value_at_1 1) [k; b; 0; d]%nat) /\
  exists o m s o' m' s',
    apply_attention 1 unused_kernel example_op (const_tensor 1) sentinel_key
      (value_at_1 0) None None MODEL_MODE_TRAIN true = ok (o, m, s) /\
    apply_attention 1 unused_kernel example_op (const_tensor 1) sentinel_key
      (value_at_1 1) None None MODEL_MODE_TRAIN true = ok (o', m', s') /\
    at_ (tdiv o s) [0; 0; 0; 0]%nat = 0%R /\
    at_ (tdiv o' s') [0; 0; 0; 0]%nat = (1 / 2)%R /\
    at_ (tdiv o s) [0; 0; 0; 0]%nat <> at_ (tdiv o' s') [0; 0; 0; 0]%nat.
Proof.
  split; [reflexivity|].
  destruct (sentinel_run 0) as (o & m & s & E & A).
  destruct (sentinel_run 1) as (o' & m' & s' & E' & A').
  exists o, m, s, o', m', s'.
  split; [exact E|]. split; [exact E'|].
  rewrite A, A'. repeat split; lra.
Qed.

Lemma merge_of_chunks_witness :
  let '(o1, m1, s1) :=
    compute_local_attention example_op first_chunk_scores first_chunk_values 3
      MODEL_MODE_PREFILL in
  let '(o2, m2, s2) :=
    compute_local_attention example_op second_chunk_scores second_chunk_values 3
      MODEL_MODE_PREFILL in
  let '(o, m, s) :=
    compute_local_attention example_op
      (concatenate first_chunk_scores second_chunk_scores 4)
      (concatenate first_chunk_values second_chunk_values 2) 3 MODEL_MODE_PREFILL in
  exists merged,
    normalize_attention [o1; o2] [m1; m2] [s1; s2] = ok merged /\
    shape merged = shape (tdiv o s) /\
    (forall ix, in_bounds ix (shape merged) ->
       at_ merged ix = at_ (tdiv o s) ix) /\
    shape merged
      = [2; if reshape_q example_op && (3 =? 1)%nat then Nat.min 1 2 else 2;
         3; 2]%nat /\
    forall k b t d,
      (k < 2)%nat -> (b < nth 1 (shape merged) 0)%nat -> (t < 3)%nat -> (d < 2)%nat ->
      let score := fun j => if (j <? 2)%nat
                            then at_ first_chunk_scores [k; b; 0; t; j]%nat
                            else at_ second_chunk_scores [k; b; 0; t; j - 2]%nat in
      let val := fun j => if (j <? 2)%nat
                          then at_ first_chunk_values [k; b; j; d]%nat
                          else at_ second_chunk_values [k; b; j - 2; d]%nat in
      let top := Rmax_upto score (2 + 3 - 1) in
      at_ merged [k; b; t; d]%nat
      = (Rsum_n (fun j => exp (score j - top) * val j) (2 + 3)
         / Rsum_n (fun j => exp (score j - top)) (2 + 3))%R.
Proof.
  exact (@merge_of_chunks_is_one_pass_softmax example_op
           first_chunk_scores second_chunk_scores
           first_chunk_values second_chunk_values 2 2 3 2 3 2 3
           MODEL_MODE_PREFILL eq_refl eq_refl eq_refl eq_refl
           ltac:(lia) ltac:(lia)).
Defined.

Lemma causal_mask_witness :
  exists w w',
    apply_attention 1 unused_kernel example_op (const_tensor 1) sentinel_key
      (value_at_1 1) None None MODEL_MODE_PREFILL true
      = ok (compute_local_attention example_op w (value_at_1 1) 2 MODEL_MODE_PREFILL) /\
    apply_attention 1 unused_kernel example_op (const_tensor 1) sentinel_key_alt
      (value_at_1 1) None None MODEL_MODE_PREFILL true
      = ok (compute_local_attention example_op w' (value_at_1 1) 2 MODEL_MODE_PREFILL) /\
    (forall k b j, (k < 1)%nat -> (b < 1)%nat -> (j < 2)%nat ->
       at_ w [k; b; 0; 0; j]%nat =
       if same_segment None b 0 j && (j <=? 0)%nat
       then logit (const_tensor 1) sentinel_key k b 0 j else DEFAULT_MASK_VALUE) /\
    (forall k b j, (k < 1)%nat -> (b < 1)%nat -> (j < 2)%nat ->
       at_ w [k; b; 0; 0; j]%nat = at_ w' [k; b; 0; 0; j]%nat) /\
    let '(o, _, s) :=
      compute_local_attention example_op w (value_at_1 1) 2 MODEL_MODE_PREFILL in
    let '(o', _, s') :=
      compute_local_attention example_op w' (value_at_1 1) 2 MODEL_MODE_PREFILL in
    forall ix, in_bounds ix (shape (tdiv o s)) -> nth 2 ix 0%nat = 0%nat ->
      at_ (tdiv o s) ix = at_ (tdiv o' s') ix.
Proof.
  apply (@causal_mask_hides_future_keys 1 unused_kernel example_op
           (const_tensor 1) sentinel_key sentinel_key_alt (value_at_1 1)
           None None MODEL_MODE_PREFILL true 1 1 2 1 0
           (or_intror eq_refl) eq_refl eq_refl eq_refl eq_refl eq_refl eq_refl
           Nat.lt_0_1 I Nat.lt_0_2).
  intros k b j d Hj. assert (E : j = 0%nat) by lia. rewrite E. reflexivity.
Defined.

(** ** The float32 upcast of the query-key product *)



(** ** Running cache computations *)

Tactic Notation "csimp" :=
  cbn [ok raise float_vars int_vars set_float set_int upd VarName_eqb fst snd].
Tactic Notation "csimp" "in" hyp(H) :=
  cbn [ok raise float_vars int_vars set_float set_int upd VarName_eqb fst snd] in H.

Lemma bind_ok_inv {A B} (m : M A) (k : A -> M B) (c c' : Cache) (b : B) :
  bind m k c = (inr b, c') ->
  exists a c1, m c = (inr a, c1) /\ k a c1 = (inr b, c').
Proof.
  unfold bind. destruct (m c) as [[e|a] c1]; intros H; [discriminate|].
  exists a, c1. auto.
Qed.

Lemma bind_run {A B} (m : M A) (k : A -> M B) (c c1 : Cache) (a : A) :
  m c = (inr a, c1) -> bind m k c = k a c1.
Proof. intros H. unfold bind. rewrite H. reflexivity. Qed.

Lemma bind_fail {A B} (m : M A) (k : A -> M B) (c c1 : Cache) (e : Error) :
  m c = (inl e, c1) -> bind m k c = (inl e, c1).
Proof. intros H. unfold bind. rewrite H. reflexivity. Qed.

Lemma float_variable_found (n : VarName) (sh : list Z) (d : DType) (c : Cache)
    (v : Tensor R) :
  float_vars c n = Some v -> float_variable n sh d c = (inr v, c).
Proof. intros H. unfold float_variable. rewrite H. reflexivity. Qed.

Lemma int_variable_found (n : VarName) (sh : list Z) (c : Cache) (v : Tensor Z) :
  int_vars c n = Some v -> int_variable n sh c = (inr v, c).
Proof. intros H. unfold int_variable. rewrite H. reflexivity. Qed.

(** Creating or reading one variable leaves every other variable alone. *)
Lemma float_variable_frame (n : VarName) (sh : list Z) (d : DType) (c c' : Cache)
    (r : Result (Tensor R)) :
  float_variable n sh d c = (r, c') ->
  int_vars c' = int_vars c /\
  forall m, VarName_eqb n m = false -> float_vars c' m = float_vars c m.
Proof.
  unfold float_variable. destruct (float_vars c n) as [v|].
  - intros [= <- <-]. auto.
  - destruct (jnp_zeros 0%R sh d) as [e|z]; intros [= <- <-]; [auto|].
    split; [reflexivity|]. intros m Hm. cbn. unfold upd. rewrite Hm. reflexivity.
Qed.

Lemma int_variable_frame (n : VarName) (sh : list Z) (c c' : Cache)
    (r : Result (Tensor Z)) :
  int_variable n sh c = (r, c') ->
  float_vars c' = float_vars c /\
  forall m, VarName_eqb n m = false -> int_vars c' m = int_vars c m.
Proof.
  unfold int_variable. destruct (int_vars c n) as [v|].
  - intros [= <- <-]. auto.
  - destruct (jnp_zeros 0%Z sh int32) as [e|z]; intros [= <- <-]; [auto|].
    split; [reflexivity|]. intros m Hm. cbn. unfold upd. rewrite Hm. reflexivity.
Qed.

Lemma frames_bind {A B} (P : VarName -> bool) (m : M A) (k : A -> M B) :
  frames P m -> (forall a, frames P (k a)) -> frames P (bind m k).
Proof.
  intros Hm Hk c r c' H n Hn. unfold bind in H.
  destruct (m c) as [[e|a] c1] eqn:E.
  - injection H as <- <-. exact (Hm _ _ _ E n Hn).
  - destruct (Hm _ _ _ E n Hn) as [F1 I1].
    destruct (Hk a _ _ _ H n Hn) as [F2 I2]. split; congruence.
Qed.

Lemma frames_ret {A} (P : VarName -> bool) (a : A) : frames P (ret a).
Proof. intros c r c' [= <- <-] n _. auto. Qed.

Lemma frames_lift {A} (P : VarName -> bool) (r : Result A) : frames P (lift r).
Proof. intros c r' c' [= <- <-] n _. auto. Qed.

Lemma frames_float_variable (P : VarName -> bool) (n : VarName) (sh : list Z)
    (d : DType) :
  P n = true -> frames P (float_variable n sh d).
Proof.
  intros Hn c r c' H m Hm. destruct (float_variable_frame _ _ _ _ H) as [Fi Ff].
  rewrite Fi. split; [|reflexivity]. apply Ff.
  destruct n, m; try reflexivity; congruence.
Qed.

Lemma frames_int_variable (P : VarName -> bool) (n : VarName) (sh : list Z) :
  P n = true -> frames P (int_variable n sh).
Proof.
  intros Hn c r c' H m Hm. destruct (int_variable_frame _ _ _ H) as [Ff Fi].
  rewrite Ff. split; [reflexivity|]. apply Fi.
  destruct n, m; try reflexivity; congruence.
Qed.

Lemma frames_assign_float (P : VarName -> bool) (n : VarName) (v : Tensor R) :
  P n = true -> frames P (assign_float n v).
Proof.
  intros Hn c r c' [= <- <-] m Hm. csimp. split; [|reflexivity].
  destruct n, m; try reflexivity; congruence.
Qed.

Lemma frames_assign_int (P : VarName -> bool) (n : VarName) (v : Tensor Z) :
  P n = true -> frames P (assign_int n v).
Proof.
  intros Hn c r c' [= <- <-] m Hm. csimp. split; [reflexivity|].
  destruct n, m; try reflexivity; congruence.
Qed.

Ltac frames_tac :=
  repeat first
    [ apply frames_ret
    | apply frames_lift
    | apply frames_float_variable; reflexivity
    | apply frames_int_variable; reflexivity
    | apply frames_assign_float; reflexivity
    | apply frames_assign_int; reflexivity
    | apply frames_bind; [|intros ?]
    | match goal with
      | |- frames _ (let '(_, _) := ?p in _) => destruct p
      | |- frames _ (if ?b then _ else _) => destruct b
      | |- frames _ (massert _ _) => apply frames_lift
      end ].

Lemma get_ar_cache_frames (self : AttentionOp) (batch heads kv : nat) (q : bool) :
  frames is_ar_var (_get_ar_cache self batch heads kv q).
Proof. unfold _get_ar_cache. frames_tac. Qed.

Section CacheProofs.

Variable ACTIVE : Z.
Variable quantize_kv : Tensor R -> nat -> Tensor R * Tensor R.
Variable unquantize_kv : Tensor R -> Tensor R -> DType -> Tensor R.
Variable kernel :
  Tensor R -> Tensor R -> Tensor R -> Tensor Z -> Tensor R * Tensor R * Tensor R.
Variable self : AttentionOp.

(** [_get_prefill_cache] touches the prefill-region variables only. *)
Lemma get_prefill_cache_frame (batch heads kv : nat) (q : bool) (c c' : Cache) r :
  _get_prefill_cache self batch heads kv q c = (r, c') ->
  forall n,
    match n with
    | cached_ar_key | cached_ar_value | cache_ar_lengths | cache_ar_segment_id
    | cached_ar_key_scale | cached_ar_value_scale | cache_ar_index =>
        float_vars c' n = float_vars c n /\ int_vars c' n = int_vars c n
    | _ => True
    end.
Proof.
  unfold _get_prefill_cache, bind. intros H.
  destruct (float_variable cached_prefill_key _ _ c) as [[e1|k1] c1] eqn:E1.
  { injection H as <- <-. destruct (float_variable_frame _ _ _ _ E1) as [Fi Ff].
    intros n; destruct n; try exact I; rewrite Fi; rewrite ?Ff by reflexivity; auto. }
  destruct (float_variable cached_prefill_value _ _ c1) as [[e2|k2] c2] eqn:E2.
  { injection H as <- <-.
    destruct (float_variable_frame _ _ _ _ E1) as [Fi1 Ff1].
    destruct (float_variable_frame _ _ _ _ E2) as [Fi2 Ff2].
    intros n; destruct n; try exact I; rewrite Fi2, Fi1;
      rewrite ?Ff2, ?Ff1 by reflexivity; auto. }
  destruct (int_variable cache_prefill_segment_id _ c2) as [[e3|k3] c3] eqn:E3.
  { injection H as <- <-.
    destruct (float_variable_frame _ _ _ _ E1) as [Fi1 Ff1].
    destruct (float_variable_frame _ _ _ _ E2) as [Fi2 Ff2].
    destruct (int_variable_frame _ _ _ E3) as [Ff3 Fi3].
    intros n; destruct n; try exact I; rewrite Ff3;
      rewrite ?Fi3 by reflexivity; rewrite Fi2, Fi1;
      rewrite ?Ff2, ?Ff1 by reflexivity; auto. }
  destruct (float_variable_frame _ _ _ _ E1) as [Fi1 Ff1].
  destruct (float_variable_frame _ _ _ _ E2) as [Fi2 Ff2].
  destruct (int_variable_frame _ _ _ E3) as [Ff3 Fi3].
  assert (F3 : forall n,
    match n with
    | cached_ar_key | cached_ar_value | cache_ar_lengths | cache_ar_segment_id
    | cached_ar_key_scale | cached_ar_value_scale | cache_ar_index =>
        float_vars c3 n = float_vars c n /\ int_vars c3 n = int_vars c n
    | _ => True
    end).
  { intros n; destruct n; try exact I; rewrite Ff3;
      rewrite ?Fi3 by reflexivity; rewrite Fi2, Fi1;
      rewrite ?Ff2, ?Ff1 by reflexivity; auto. }
  destruct (quantize_kvcache self).
  - destruct (float_variable cached_prefill_key_scale _ _ c3) as [[e4|k4] c4] eqn:E4.
    { injection H as <- <-. destruct (float_variable_frame _ _ _ _ E4) as [Fi4 Ff4].
      intros n; specialize (F3 n); destruct n; try exact I; rewrite Fi4;
        rewrite ?Ff4 by reflexivity; exact F3. }
    destruct (float_variable cached_prefill_value_scale _ _ c4) as [[e5|k5] c5] eqn:E5.
    { injection H as <- <-.
      destruct (float_variable_frame _ _ _ _ E4) as [Fi4 Ff4].
      destruct (float_variable_frame _ _ _ _ E5) as [Fi5 Ff5].
      intros n; specialize (F3 n); destruct n; try exact I; rewrite Fi5, Fi4;
        rewrite ?Ff5, ?Ff4 by reflexivity; exact F3. }
    injection H as <- <-.
    destruct (float_variable_frame _ _ _ _ E4) as [Fi4 Ff4].
    destruct (float_variable_frame _ _ _ _ E5) as [Fi5 Ff5].
    intros n; specialize (F3 n); destruct n; try exact I; rewrite Fi5, Fi4;
      rewrite ?Ff5, ?Ff4 by reflexivity; exact F3.
  - injection H as <- <-. exact F3.
Qed.

Lemma get_ar_cache_allocated (c : Cache) (ak av : Tensor R) (seg idx lens : Tensor Z)
    (batch heads kv : nat) (q : bool) :
  ar_allocated self c ak av seg idx lens ->
  exists ks vs,
    _get_ar_cache self batch heads kv q c =
      (inr ((ak, ks), (av, vs), seg, idx, lens),
       set_float cached_ar_value av (set_float cached_ar_key ak c)) /\
    (quantize_kvcache self = true ->
       ks = float_vars c cached_ar_key_scale /\ ks <> None /\
       vs = float_vars c cached_ar_value_scale /\ vs <> None) /\
    (quantize_kvcache self = false -> ks = None /\ vs = None).
Proof.
  intros [Hk Hv Hs Hi Hl Hq].
  unfold _get_ar_cache, bind, assign_float, ret, float_variable, int_variable.
  rewrite Hk. csimp. rewrite Hv. csimp. rewrite Hl. csimp. rewrite Hs. csimp.
  destruct (quantize_kvcache self) eqn:Q.
  - destruct (Hq eq_refl) as [[ks Hks] [vs Hvs]].
    csimp. rewrite Hks. csimp. rewrite Hvs. csimp. rewrite Hi.
    exists (Some ks), (Some vs). csimp.
    split; [reflexivity|]. split; [|discriminate].
    intros _. repeat split; congruence.
  - csimp. rewrite Hi. exists None, None. csimp.
    split; [reflexivity|]. split; [discriminate|auto].
Qed.

Lemma update_ar_key_value_effect (key value ak av : Tensor R)
    (ks vs : option (Tensor R)) (idx lens : Tensor Z) (use_ragged : bool)
    (c c' : Cache) (r : Tensor R * Tensor R) :
  update_ar_key_value quantize_kv unquantize_kv self key value (ak, ks) (av, vs)
    idx lens use_ragged c = (inr r, c') ->
  exists axis tokk tokv ak' av',
    ar_seq_axis self = ok axis /\
    token_for_cache quantize_kv self key = ok tokk /\
    token_for_cache quantize_kv self value = ok tokv /\
    write_token use_ragged ak tokk idx lens axis = ok ak' /\
    write_token use_ragged av tokv idx lens axis = ok av' /\
    float_vars c' cached_ar_key = Some ak' /\
    float_vars c' cached_ar_value = Some av' /\
    int_vars c' = int_vars c /\
    (forall n, match n with
               | cached_ar_key | cached_ar_value
               | cached_ar_key_scale | cached_ar_value_scale => True
               | _ => float_vars c' n = float_vars c n
               end) /\
    (quantize_kvcache self = true ->
       float_vars c' cached_ar_key_scale <> None /\
       float_vars c' cached_ar_value_scale <> None) /\
    (quantize_kvcache self = false ->
       float_vars c' cached_ar_key_scale = float_vars c cached_ar_key_scale /\
       float_vars c' cached_ar_value_scale = float_vars c cached_ar_value_scale).
Proof.
  unfold update_ar_key_value, ar_seq_axis, token_for_cache.
  intros H.
  destruct (quantize_kvcache self) eqn:Q.
  - unfold bind, lift, ret, assign_float in H.
    destruct (index_in_layout CACHE_KV _) as [e|kvax]; [discriminate|].
    csimp in H. cbn [rbind].
    destruct (quantize_kv (reshape_kv_cache key _) kvax) as [tk sk] eqn:Ek.
    destruct (quantize_kv (reshape_kv_cache value _) kvax) as [tv sv] eqn:Ev.
    csimp in H.
    destruct (index_in_layout CACHE_SEQUENCE _) as [e|axis] eqn:Eax; [discriminate|].
    csimp in H.
    destruct (write_token use_ragged ak tk idx lens axis) as [e|ak'] eqn:Wk;
      [discriminate|].
    csimp in H.
    assert (Eax2 : index_in_layout CACHE_SEQUENCE
               (if use_ragged
                then cached_kv_layout (kv_cache_logical_layout self)
                       (ar_cache_axis_order self)
                else cached_kv_layout (kv_cache_logical_layout self)
                       (ar_cache_axis_order self)) = inr axis)
      by (destruct use_ragged; exact Eax).
    rewrite Eax2 in H. csimp in H.
    destruct (write_token use_ragged av tv idx lens axis) as [e|av'] eqn:Wv;
      [discriminate|].
    csimp in H.
    destruct ks as [ks0|]; [|discriminate].
    destruct vs as [vs0|]; [|discriminate].
    destruct (dynamic_update_index_in_dim ks0 sk (item idx) axis) as [e|ks'];
      [discriminate|].
    csimp in H.
    destruct (dynamic_update_index_in_dim vs0 sv (item idx) axis) as [e|vs'];
      [discriminate|].
    csimp in H. injection H as _ <-.
    exists axis, tk, tv, ak', av'. csimp.
    repeat (split; [first [reflexivity|assumption]|]).
    split; [intros n; destruct n; try exact I; reflexivity|].
    split; [intros _; split; discriminate|discriminate].
  - unfold bind, lift, ret, assign_float in H. csimp in H.
    destruct (index_in_layout CACHE_SEQUENCE _) as [e|axis] eqn:Eax; [discriminate|].
    csimp in H.
    destruct (write_token use_ragged ak _ idx lens axis) as [e|ak'] eqn:Wk;
      [discriminate|].
    csimp in H.
    assert (Eax2 : index_in_layout CACHE_SEQUENCE
               (if use_ragged
                then cached_kv_layout (kv_cache_logical_layout self)
                       (ar_cache_axis_order self)
                else cached_kv_layout (kv_cache_logical_layout self)
                       (ar_cache_axis_order self)) = inr axis)
      by (destruct use_ragged; exact Eax).
    rewrite Eax2 in H. csimp in H.
    destruct (write_token use_ragged av _ idx lens axis) as [e|av'] eqn:Wv;
      [discriminate|].
    csimp in H. injection H as _ <-.
    exists axis. do 4 eexists. csimp.
    repeat (split; [first [reflexivity|eassumption]|]).
    split; [intros n; destruct n; try exact I; reflexivity|].
    split; [discriminate|intros _; split; reflexivity].
Qed.

Lemma shape_is_true {A} (x : Tensor A) (sh : list Z) :
  shape_is x sh = true -> map Z.of_nat (shape x) = sh.
Proof.
  unfold shape_is. destruct (list_eq_dec Z.eq_dec _ sh); [auto|discriminate].
Qed.

(** What a successful decode call does to an allocated cache. *)
Lemma decode_effect (key value : Tensor R) (use_ragged : bool) (c c' : Cache)
    (ak av : Tensor R) (seg idx lens : Tensor Z) out :
  ar_allocated self c ak av seg idx lens ->
  kv_cache_autoregressive ACTIVE quantize_kv unquantize_kv self key value
    use_ragged c = (inr out, c') ->
  exists heads batch kv axis tokk tokv ak' av' seg',
    shape key = [heads; batch; 1; kv]%nat /\
    ar_seq_axis self = ok axis /\
    token_for_cache quantize_kv self key = ok tokk /\
    token_for_cache quantize_kv self value = ok tokv /\
    write_token use_ragged ak tokk idx lens axis = ok ak' /\
    write_token use_ragged av tokv idx lens axis = ok av' /\
    dynamic_update_index_in_dim seg (active_indicator ACTIVE batch) (item idx) 1
      = ok seg' /\
    ar_allocated self c' ak' av' seg' (advance_index self idx) (advance_lengths lens) /\
    snd (snd out) = advance_lengths lens /\ snd (fst (snd out)) = seg' /\
    map Z.of_nat (shape ak) =
      cached_kv_shape [Z.of_nat heads; Z.of_nat batch; ar_capacity self; Z.of_nat kv]
        (ar_cache_axis_order self) /\
    map Z.of_nat (shape av) =
      cached_kv_shape [Z.of_nat heads; Z.of_nat batch; ar_capacity self; Z.of_nat kv]
        (ar_cache_axis_order self).
Proof.
  intros Halloc H. unfold kv_cache_autoregressive in H.
  destruct (shape key) as [|heads [|batch [|sequence [|kv [|]]]]]; try discriminate.
  destruct (Nat.eqb_spec sequence 1) as [->|]; [|discriminate].
  cbn [negb] in H.
  unfold bind at 1 in H. unfold has_variable, defined in H.
  cbn [is_int_var] in H. rewrite (alloc_index Halloc) in H. cbn [negb ok] in H.
  destruct (get_ar_cache_allocated batch heads kv (quantize_kvcache self) Halloc)
    as (ks & vs & Eget & _ & _).
  unfold bind at 1 in H. rewrite Eget in H.
  set (c1 := set_float cached_ar_value av (set_float cached_ar_key ak c)) in *.
  unfold massert, lift, assert_ in H.
  unfold bind at 1 in H. cbn [fst snd] in H.
  destruct (shape_is ak _) eqn:Sak; [|discriminate]. csimp in H.
  unfold bind at 1 in H.
  destruct (shape_is av _) eqn:Sav; [|discriminate]. csimp in H.
  apply shape_is_true in Sak. apply shape_is_true in Sav.
  apply bind_ok_inv in H. destruct H as ([rk rv] & c2 & Hupd & H).
  destruct (update_ar_key_value_effect _ _ _ _ _ _ _ _ _ _ Hupd)
    as (axis & tokk & tokv & ak' & av' & Eax & Etk & Etv & Wk & Wv
        & Lk & Lv & Li & Lf & Lq & Lnq).
  fold (active_indicator ACTIVE batch) in H.
  unfold bind at 1 in H.
  destruct (dynamic_update_index_in_dim seg (active_indicator ACTIVE batch)
              (item idx) 1) as [e|seg'] eqn:Eseg; [discriminate|].
  unfold assign_int in H. unfold bind at 1 2 3 in H. csimp in H.
  set (c5 := set_int cache_ar_lengths (advance_lengths lens)
               (set_int cache_ar_index (advance_index self idx)
                  (set_int cache_ar_segment_id seg' c2))) in *.
  apply bind_ok_inv in H. destruct H as ([[pk pv] pseg] & c6 & Hpre & H).
  pose proof (get_prefill_cache_frame _ _ _ _ _ Hpre) as Frame.
  unfold bind at 1 in H. cbn [fst snd] in H.
  destruct (shape_is (fst pk) _); [|discriminate]. csimp in H.
  unfold bind at 1 in H.
  destruct (shape_is (fst pv) _); [|discriminate]. csimp in H.
  unfold bind at 1 in H.
  destruct (prefill_cache_var_model_var unquantize_kv self pk _ _) as [e|pkey];
    [discriminate|].
  unfold bind at 1 in H.
  destruct (prefill_cache_var_model_var unquantize_kv self pv _ _) as [e|pval];
    [discriminate|].
  unfold ret in H. injection H as <- <-.
  exists heads, batch, kv, axis, tokk, tokv, ak', av', seg'.
  repeat (split; [first [reflexivity|assumption]|]).
  split; [|repeat split; first [reflexivity|assumption]].
  constructor.
  - rewrite (proj1 (Frame cached_ar_key)). exact Lk.
  - rewrite (proj1 (Frame cached_ar_value)). exact Lv.
  - rewrite (proj2 (Frame cache_ar_segment_id)). reflexivity.
  - rewrite (proj2 (Frame cache_ar_index)). reflexivity.
  - rewrite (proj2 (Frame cache_ar_lengths)). reflexivity.
  - intros Q. destruct (Lq Q) as [N1 N2].
    rewrite (proj1 (Frame cached_ar_key_scale)), (proj1 (Frame cached_ar_value_scale)).
    unfold c5. csimp.
    destruct (float_vars c2 cached_ar_key_scale); [|congruence].
    destruct (float_vars c2 cached_ar_value_scale); [|congruence].
    split; eexists; reflexivity.
Qed.

End CacheProofs.

(** ** Decode: failure leaves the cache as it was *)

(** C3.  A decode call whose key does not have sequence length one, or
    that finds no autoregressive cursor in the cache (no prefill has run),
    raises a [ValueError]; the cache it returns is the cache it was given.
    The same holds for a decode through [__call__]. *)
Theorem decode_rejects_before_mutating
    (ACTIVE : Z) (quantize_kv : Tensor R -> nat -> Tensor R * Tensor R)
    (unquantize_kv : Tensor R -> Tensor R -> DType -> Tensor R)
    (kernel : Tensor R -> Tensor R -> Tensor R -> Tensor Z ->
              Tensor R * Tensor R * Tensor R)
    (self : AttentionOp) (query key value : Tensor R) (segs : option (Tensor Z))
    (use_ragged : bool) (c : Cache) (heads batch sequence kv : nat) :
  shape key = [heads; batch; sequence; kv]%nat ->
  sequence <> 1%nat \/ defined c cache_ar_index = false ->
  (exists msg,
     kv_cache_autoregressive ACTIVE quantize_kv unquantize_kv self key value
       use_ragged c = (inl (ValueError msg), c)) /\
  (exists e,
     __call__ ACTIVE quantize_kv unquantize_kv kernel self query key value segs
       MODEL_MODE_AUTOREGRESSIVE c = (inl e, c)).
Proof.
  intros Hshape Hbad.
  assert (Hdec : exists msg,
    kv_cache_autoregressive ACTIVE quantize_kv unquantize_kv self key value
      use_ragged c = (inl (ValueError msg), c) /\
    kv_cache_autoregressive ACTIVE quantize_kv unquantize_kv self key value
      true c = (inl (ValueError msg), c)).
  { unfold kv_cache_autoregressive. rewrite Hshape.
    destruct (Nat.eqb_spec sequence 1) as [->|Hne]; cbn [negb].
    - destruct Hbad as [Hbad|Hbad]; [congruence|].
      unfold bind, has_variable. rewrite Hbad. cbn [negb ok].
      eexists. split; reflexivity.
    - eexists. split; reflexivity. }
  destruct Hdec as (msg & Hdec & Hdec').
  split; [exists msg; exact Hdec|].
  unfold __call__, kv_cache.
  destruct (list_nat_eqb (shape key) (shape value)); cbn [negb].
  - unfold bind at 1. unfold bind at 1. rewrite Hdec'. eexists. reflexivity.
  - eexists. reflexivity.
Qed.

Lemma decode_rejects_witness :
  (exists msg,
     kv_cache_autoregressive 1 no_quantize no_unquantize example_op
       (const_tensor 1) (const_tensor 1) true empty_cache
       = (inl (ValueError msg), empty_cache)) /\
  (exists e,
     __call__ 1 no_quantize no_unquantize unused_kernel example_op
       (const_tensor 1) (const_tensor 1) (const_tensor 1) None
       MODEL_MODE_AUTOREGRESSIVE empty_cache = (inl e, empty_cache)).
Proof.
  apply (@decode_rejects_before_mutating 1 no_quantize no_unquantize unused_kernel
           example_op (const_tensor 1) (const_tensor 1) (const_tensor 1) None
           true empty_cache 1 1 2 1).
  - reflexivity.
  - left. discriminate.
Defined.

(** ** Prefill *)

Section PrefillProofs.

Variable quantize_kv : Tensor R -> nat -> Tensor R * Tensor R.
Variable self : AttentionOp.

Lemma prefill_effect (key value : Tensor R) (segs : option (Tensor Z))
    (c c' : Cache) out :
  kv_cache_prefill quantize_kv self key value segs c = (inr out, c') ->
  exists tk tv,
    out = (key, value, segs) /\
    prefill_token quantize_kv self key = ok tk /\
    prefill_token quantize_kv self value = ok tv /\
    float_vars c' cached_prefill_key = Some tk /\
    float_vars c' cached_prefill_value = Some tv /\
    match segs with
    | Some ids => int_vars c' cache_prefill_segment_id = Some ids
    | None =>
        forall old, int_vars c cache_prefill_segment_id = Some old ->
                    int_vars c' cache_prefill_segment_id = Some old
    end /\
    exists c2,
      (forall n, is_ar_var n = true ->
         float_vars c' n = float_vars c2 n /\ int_vars c' n = int_vars c2 n) /\
      (defined c cache_ar_index = true ->
       forall n, is_ar_var n = true ->
         float_vars c2 n = float_vars c n /\ int_vars c2 n = int_vars c n) /\
      (defined c cache_ar_index = false ->
       exists batch heads kv r c1,
         (forall n, is_ar_var n = true ->
            float_vars c1 n = float_vars c n /\ int_vars c1 n = int_vars c n) /\
         _get_ar_cache self batch heads kv (quantize_kvcache self) c1 = (inr r, c2) /\
         nth 1 (shape key) 0%nat = batch /\
         nth 0 (shape key) 0%nat = heads /\ nth 3 (shape key) 0%nat = kv).
Proof.
  unfold kv_cache_prefill, prefill_token. intros H.
  destruct (shape key) as [|heads [|batch [|sequence [|kv [|]]]]]; try discriminate.
  unfold massert, lift, assert_ in H.
  unfold bind at 1 in H.
  destruct (DType_eqb (dtype key) (dtype value)); [|discriminate]. csimp in H.
  apply bind_ok_inv in H. destruct H as ([[pk pv] pseg] & c1 & Hpre & H).
  pose proof (get_prefill_cache_frame _ _ _ _ _ _ Hpre) as Frame.
  assert (Hseg1 : forall old, int_vars c cache_prefill_segment_id = Some old ->
            int_vars c1 cache_prefill_segment_id = Some old).
  { clear -Hpre. intros old Hold. unfold _get_prefill_cache, bind in Hpre.
    destruct (float_variable cached_prefill_key _ _ c) as [[e1|k1] d1] eqn:E1;
      [discriminate|].
    destruct (float_variable cached_prefill_value _ _ d1) as [[e2|k2] d2] eqn:E2;
      [discriminate|].
    destruct (float_variable_frame _ _ _ _ E1) as [Fi1 _].
    destruct (float_variable_frame _ _ _ _ E2) as [Fi2 _].
    assert (Hd2 : int_vars d2 cache_prefill_segment_id = Some old)
      by (rewrite Fi2, Fi1; exact Hold).
    rewrite (int_variable_found _ _ _ Hd2) in Hpre.
    destruct (quantize_kvcache self).
    - destruct (float_variable cached_prefill_key_scale _ _ d2) as [[e4|k4] d4] eqn:E4;
        [discriminate|].
      destruct (float_variable cached_prefill_value_scale _ _ d4) as [[e5|k5] d5] eqn:E5;
        [discriminate|].
      destruct (float_variable_frame _ _ _ _ E4) as [Fi4 _].
      destruct (float_variable_frame _ _ _ _ E5) as [Fi5 _].
      unfold ret in Hpre. injection Hpre as _ _ _ <-. rewrite Fi5, Fi4. exact Hd2.
    - unfold ret in Hpre. injection Hpre as _ _ _ <-. exact Hd2. }
  unfold bind at 1 in H. unfold has_variable at 1 in H. csimp in H.
  assert (Hdef1 : defined c1 cache_ar_index = defined c cache_ar_index).
  { unfold defined. cbn [is_int_var].
    rewrite (proj2 (Frame cache_ar_index)). reflexivity. }
  rewrite Hdef1 in H.
  (* the part after the optional allocation of the autoregressive region *)
  assert (Htail : forall c2 : Cache,
    (forall old, int_vars c cache_prefill_segment_id = Some old ->
                 int_vars c2 cache_prefill_segment_id = Some old) ->
    forall K : M (Tensor R * Tensor R * option (Tensor Z)),
    K = (massert (shape_is (fst pk)
                    (cached_kv_shape
                       [Z.of_nat heads; Z.of_nat batch;
                        max_prefill_predict_length self; Z.of_nat kv]
                       (prefill_cache_axis_order self))) "" ;;;
         massert (shape_is (fst pv)
                    (cached_kv_shape
                       [Z.of_nat heads; Z.of_nat batch;
                        max_prefill_predict_length self; Z.of_nat kv]
                       (prefill_cache_axis_order self))) "" ;;;
         '(key_shaped_for_cache, value_shaped_for_cache) <-
           (if quantize_kvcache self then
              key_axis <- lift (index_in_layout CACHE_KV
                                  (cached_kv_layout (kv_cache_logical_layout self)
                                     (prefill_cache_axis_order self))) ;;
              let '(key_shaped_for_cache, key_scale) :=
                quantize_kv (reshape_kv_cache key (prefill_cache_axis_order self))
                  key_axis in
              value_axis <- lift (index_in_layout CACHE_KV
                                    (cached_kv_layout (kv_cache_logical_layout self)
                                       (prefill_cache_axis_order self))) ;;
              let '(value_shaped_for_cache, value_scale) :=
                quantize_kv (reshape_kv_cache value (prefill_cache_axis_order self))
                  value_axis in
              assign_float cached_prefill_key_scale key_scale ;;;
              assign_float cached_prefill_value_scale value_scale ;;;
              ret (key_shaped_for_cache, value_shaped_for_cache)
            else ret (reshape_kv_cache key (prefill_cache_axis_order self),
                      reshape_kv_cache value (prefill_cache_axis_order self))) ;;
         assign_float cached_prefill_key key_shaped_for_cache ;;;
         assign_float cached_prefill_value value_shaped_for_cache ;;;
         match segs with
         | Some ids => assign_int cache_prefill_segment_id ids
         | None => ret tt
         end ;;;
         ret (key, value, segs))%cache ->
    K c2 = (inr out, c') ->
    exists tk tv,
      out = (key, value, segs) /\
      (let shaped := reshape_kv_cache key (prefill_cache_axis_order self) in
       if quantize_kvcache self
       then rbind (index_in_layout CACHE_KV
                     (cached_kv_layout (kv_cache_logical_layout self)
                        (prefill_cache_axis_order self)))
                  (fun kv_axis => ok (fst (quantize_kv shaped kv_axis)))
       else ok shaped) = ok tk /\
      (let shaped := reshape_kv_cache value (prefill_cache_axis_order self) in
       if quantize_kvcache self
       then rbind (index_in_layout CACHE_KV
                     (cached_kv_layout (kv_cache_logical_layout self)
                        (prefill_cache_axis_order self)))
                  (fun kv_axis => ok (fst (quantize_kv shaped kv_axis)))
       else ok shaped) = ok tv /\
      float_vars c' cached_prefill_key = Some tk /\
      float_vars c' cached_prefill_value = Some tv /\
      match segs with
      | Some ids => int_vars c' cache_prefill_segment_id = Some ids
      | None =>
          forall old, int_vars c cache_prefill_segment_id = Some old ->
                      int_vars c' cache_prefill_segment_id = Some old
      end /\
      (forall n, is_ar_var n = true ->
         float_vars c' n = float_vars c2 n /\ int_vars c' n = int_vars c2 n)).
  { intros c2 Hseg2 K -> HK.
    unfold massert, lift, assert_, bind, assign_float, assign_int, ret in HK.
    destruct (shape_is (fst pk) _); [|discriminate]. csimp in HK.
    destruct (shape_is (fst pv) _); [|discriminate]. csimp in HK.
    cbv zeta.
    destruct (quantize_kvcache self).
    - destruct (index_in_layout CACHE_KV _) as [e|ax]; [discriminate|]. csimp in HK.
      cbn [rbind].
      destruct (quantize_kv (reshape_kv_cache key _) ax) as [tk sk].
      destruct (quantize_kv (reshape_kv_cache value _) ax) as [tv sv].
      csimp in HK.
      exists tk, tv.
      destruct segs as [ids|]; injection HK as <- <-; csimp;
        (do 5 (split; [reflexivity|])).
      + split; [reflexivity|]. intros n Hn.
        destruct n; try discriminate; csimp; auto.
      + split; [exact Hseg2|]. intros n Hn.
        destruct n; try discriminate; csimp; auto.
    - csimp in HK. do 2 eexists.
      destruct segs as [ids|]; injection HK as <- <-; csimp;
        (do 5 (split; [reflexivity|])).
      + split; [reflexivity|]. intros n Hn.
        destruct n; try discriminate; csimp; auto.
      + split; [exact Hseg2|]. intros n Hn.
        destruct n; try discriminate; csimp; auto. }
  destruct (defined c cache_ar_index) eqn:Hdef; cbn [negb] in H.
  - unfold bind at 1 in H. unfold ret at 1 in H.
    destruct (Htail c1 Hseg1 _ eq_refl H)
      as (tk & tv & E1 & E2 & E3 & E4 & E5 & E6 & E7).
    exists tk, tv. do 6 (split; [assumption|]).
    exists c1. split; [exact E7|]. split; [|discriminate].
    intros _ n Hn. specialize (Frame n). destruct n; try discriminate; exact Frame.
  - apply bind_ok_inv in H. destruct H as (u & c2 & Hinit & H).
    apply bind_ok_inv in Hinit.
    destruct Hinit as ([[[[ak0 av0] s0] i0] l0] & c3 & Hget & Hrest).
    pose proof (@get_ar_cache_frames self batch heads kv (quantize_kvcache self)
                  _ _ _ Hget cache_prefill_segment_id eq_refl) as [_ E3'].
    unfold massert, lift, assert_, bind, ret in Hrest.
    destruct (shape_is (fst ak0) _); [|discriminate]. csimp in Hrest.
    destruct (shape_is (fst av0) _); [|discriminate]. csimp in Hrest.
    injection Hrest as _ <-.
    assert (Hseg3 : forall old, int_vars c cache_prefill_segment_id = Some old ->
              int_vars c3 cache_prefill_segment_id = Some old).
    { intros old Hold. rewrite E3'. exact (Hseg1 old Hold). }
    destruct (Htail c3 Hseg3 _ eq_refl H)
      as (tk & tv & E1 & E2 & E3 & E4 & E5 & E6 & E7).
    exists tk, tv. do 6 (split; [assumption|]).
    exists c3. split; [exact E7|]. split; [discriminate|].
    intros _. exists batch, heads, kv. do 2 eexists.
    split; [|split; [exact Hget|repeat split; reflexivity]].
    intros n Hn. specialize (Frame n). destruct n; try discriminate; exact Frame.
Qed.

End PrefillProofs.

(** X26.  What a prefill call that returns has stored, whatever the cache
    held before: the prefill-region key and value are the input key and
    value in the prefill cache layout (quantised when the cache is), and
    segment ids passed to the call are the stored ones. *)
Theorem prefill_overwrites_prefill_region
    (quantize_kv : Tensor R -> nat -> Tensor R * Tensor R) (self : AttentionOp)
    (key value : Tensor R) (segs : option (Tensor Z)) (c c' : Cache) out :
  kv_cache_prefill quantize_kv self key value segs c = (inr out, c') ->
  exists tk tv,
    prefill_token quantize_kv self key = ok tk /\
    prefill_token quantize_kv self value = ok tv /\
    float_vars c' cached_prefill_key = Some tk /\
    float_vars c' cached_prefill_value = Some tv /\
    forall ids, segs = Some ids -> int_vars c' cache_prefill_segment_id = Some ids.
Proof.
  intros H.
  destruct (prefill_effect _ _ _ _ _ _ H) as (tk & tv & _ & Ek & Ev & Lk & Lv & Ls & _).
  exists tk, tv. repeat (split; [assumption|]).
  intros ids ->. exact Ls.
Qed.

Lemma first_prompt_runs :
  kv_cache_prefill no_quantize example_op (prompt 1) (prompt 1)
    (Some (prompt_ids 1)) empty_cache
  = (inr (prompt 1, prompt 1, Some (prompt_ids 1)), cache_after_first_prompt).
Proof. vm_compute. reflexivity. Qed.

Lemma prefill_overwrites_witness :
  exists c2 tk tv,
    kv_cache_prefill no_quantize example_op varied_prompt (prompt 2)
      (Some (prompt_ids 2)) cache_after_two_decodes
    = (inr (varied_prompt, prompt 2, Some (prompt_ids 2)), c2) /\
    float_vars cache_after_two_decodes cached_prefill_key = Some (prompt 1) /\
    int_vars cache_after_two_decodes cache_prefill_segment_id = Some (prompt_ids 1) /\
    prefill_token no_quantize example_op varied_prompt = ok tk /\
    prefill_token no_quantize example_op (prompt 2) = ok tv /\
    float_vars c2 cached_prefill_key = Some tk /\
    float_vars c2 cached_prefill_value = Some tv /\
    forall ids, Some (prompt_ids 2) = Some ids ->
                int_vars c2 cache_prefill_segment_id = Some ids.
Proof.
  destruct (kv_cache_prefill no_quantize example_op varied_prompt (prompt 2)
              (Some (prompt_ids 2)) cache_after_two_decodes)
    as [[e|out] c2] eqn:Hrun; [vm_compute in Hrun; discriminate Hrun|].
  destruct (@prefill_overwrites_prefill_region no_quantize example_op
              varied_prompt (prompt 2) (Some (prompt_ids 2))
              cache_after_two_decodes c2 out Hrun)
    as (tk & tv & E1 & E2 & E3 & E4 & E5).
  destruct (prefill_effect _ _ _ _ _ _ Hrun) as (_ & _ & -> & _).
  exists c2, tk, tv.
  split; [reflexivity|]. split; [vm_compute; reflexivity|].
  split; [vm_compute; reflexivity|].
  repeat (split; [assumption|]). exact E5.
Defined.

(** C7.  The code does not do what the claim and the docstring of
    [kv_cache_prefill] say.  On the cache left by a first prompt with
    segment ids 1, a second prompt that comes without segment ids is
    stored, but the segment ids of the first prompt stay in the cache, and
    the next decode call returns them as the segment ids of the prefill
    region. *)
Lemma prefill_without_ids_keeps_old_ids :
  exists c2 out c3,
    kv_cache_prefill no_quantize example_op (prompt 2) (prompt 2) None
      cache_after_first_prompt = (inr (prompt 2, prompt 2, None), c2) /\
    int_vars cache_after_first_prompt cache_prefill_segment_id = Some (prompt_ids 1) /\
    float_vars c2 cached_prefill_key = Some (prompt 2) /\
    int_vars c2 cache_prefill_segment_id = Some (prompt_ids 1) /\
    kv_cache_autoregressive 1 no_quantize no_unquantize example_op
      (token 1) (token 1) true c2 = (inr out, c3) /\
    snd (fst out) = prompt_ids 1.
Proof.
  do 3 eexists. split; [vm_compute; reflexivity|].
  split; [vm_compute; reflexivity|]. split; [vm_compute; reflexivity|].
  split; [vm_compute; reflexivity|]. split; vm_compute; reflexivity.
Qed.

(** ** Cursor and length arithmetic *)

Lemma wrap32_id (z : Z) : (- 2 ^ 31 <= z < 2 ^ 31)%Z -> wrap32 z = z.
Proof.
  intros H. unfold wrap32. rewrite Z.mod_small by lia. lia.
Qed.

Lemma item_map_tensor {A B} (f : A -> B) (x : Tensor A) :
  item (map_tensor f x) = f (item x).
Proof. reflexivity. Qed.

Lemma item_advance_index (self : AttentionOp) (idx : Tensor Z) :
  item (advance_index self idx) = (wrap32 (item idx + 1) mod ar_capacity self)%Z.
Proof. reflexivity. Qed.

Lemma cursor_step (self : AttentionOp) (idx : Tensor Z) :
  (0 < ar_capacity self < 2 ^ 31)%Z ->
  (0 <= item idx < ar_capacity self)%Z ->
  item (advance_index self idx) = ((item idx + 1) mod ar_capacity self)%Z /\
  (0 <= item (advance_index self idx) < ar_capacity self)%Z.
Proof.
  intros Hc Hp. rewrite item_advance_index, wrap32_id by lia.
  split; [reflexivity|]. apply Z.mod_pos_bound. lia.
Qed.

Lemma cursor_steps (self : AttentionOp) (n : nat) (idx : Tensor Z) :
  (0 < ar_capacity self < 2 ^ 31)%Z ->
  (0 <= item idx < ar_capacity self)%Z ->
  item (Nat.iter n (advance_index self) idx)
    = ((item idx + Z.of_nat n) mod ar_capacity self)%Z.
Proof.
  intros Hc Hp. induction n as [|n IH].
  - cbn [Nat.iter nat_rect]. rewrite Z.add_0_r, Z.mod_small by lia. reflexivity.
  - rewrite Nat.iter_succ.
    assert (Hr : (0 <= item (Nat.iter n (advance_index self) idx)
                  < ar_capacity self)%Z).
    { rewrite IH. apply Z.mod_pos_bound. lia. }
    destruct (cursor_step self _ Hc Hr) as [E _]. rewrite E, IH.
    rewrite Zplus_mod_idemp_l. f_equal. lia.
Qed.

Lemma lengths_step (lens : Tensor Z) (ix : list nat) :
  at_ (advance_lengths lens) ix = wrap32 (at_ lens ix + 1).
Proof. reflexivity. Qed.

Lemma lengths_steps (n : nat) (lens : Tensor Z) (ix : list nat) :
  (- 2 ^ 31 <= at_ lens ix)%Z -> (at_ lens ix + Z.of_nat n < 2 ^ 31)%Z ->
  at_ (Nat.iter n advance_lengths lens) ix = (at_ lens ix + Z.of_nat n)%Z.
Proof.
  induction n as [|n IH]; intros Hlo Hhi.
  - cbn [Nat.iter nat_rect]. lia.
  - rewrite Nat.iter_succ, lengths_step, IH by lia. rewrite wrap32_id; lia.
Qed.

Section DecodeRuns.

Variable ACTIVE : Z.
Variable quantize_kv : Tensor R -> nat -> Tensor R * Tensor R.
Variable unquantize_kv : Tensor R -> Tensor R -> DType -> Tensor R.
Variable self : AttentionOp.

(** A run of successful decode calls advances the cursor and the length
    counters once per call. *)
Lemma decode_all_counters (use_ragged : bool) (tokens : list (Tensor R * Tensor R)) :
  forall (c c' : Cache) (ak av : Tensor R) (seg idx lens : Tensor Z),
    ar_allocated self c ak av seg idx lens ->
    decode_all ACTIVE quantize_kv unquantize_kv self use_ragged tokens c
      = (inr tt, c') ->
    exists ak' av' seg',
      ar_allocated self c' ak' av' seg'
        (Nat.iter (length tokens) (advance_index self) idx)
        (Nat.iter (length tokens) advance_lengths lens).
Proof.
  induction tokens as [|[key value] rest IH]; intros c c' ak av seg idx lens Ha H.
  - cbn in H. injection H as <-. exists ak, av, seg. exact Ha.
  - cbn [decode_all] in H.
    destruct (kv_cache_autoregressive ACTIVE quantize_kv unquantize_kv self
                key value use_ragged c) as [[e|out] c1] eqn:E; [discriminate|].
    destruct (@decode_effect ACTIVE quantize_kv unquantize_kv self key value
                use_ragged c c1 ak av seg idx lens out Ha E)
      as (heads & batch & kv & axis & tokk & tokv & ak1 & av1 & seg1 & _ & _ & _
          & _ & _ & _ & _ & Ha1 & _).
    destruct (IH _ _ _ _ _ _ _ Ha1 H) as (ak' & av' & seg' & Ha').
    exists ak', av', seg'.
    cbn [length]. rewrite !Nat.iter_succ_r. exact Ha'.
Qed.

End DecodeRuns.

(** ** The freshly initialised cache *)

Section Fresh.

Variable quantize_kv : Tensor R -> nat -> Tensor R * Tensor R.
Variable self : AttentionOp.

Lemma jnp_zeros_at {A} (zero : A) (sh : list Z) (d : DType) (z : Tensor A) :
  jnp_zeros zero sh d = inr z ->
  shape z = map Z.to_nat sh /\ forall ix, at_ z ix = zero.
Proof.
  unfold jnp_zeros. destruct (forallb _ sh); [|discriminate].
  intros [= <-]. split; reflexivity.
Qed.

(** On a cache without autoregressive variables, [_get_ar_cache]
    allocates them all, zero-filled. *)
Lemma get_ar_cache_fresh (batch heads kv : nat) (q : bool) (c c' : Cache) r :
  (forall n, is_ar_var n = true -> float_vars c n = None /\ int_vars c n = None) ->
  _get_ar_cache self batch heads kv q c = (inr r, c') ->
  exists ak av seg idx lens,
    ar_allocated self c' ak av seg idx lens /\
    fst (fst (fst (fst (fst r)))) = ak /\ fst (snd (fst (fst (fst r)))) = av /\
    (forall ix, at_ idx ix = 0%Z) /\ (forall ix, at_ lens ix = 0%Z) /\
    (forall ix, at_ seg ix = 0%Z) /\
    shape lens = [batch] /\ shape seg = [batch; Z.to_nat (ar_capacity self)] /\
    (forall n, is_ar_var n = false ->
       float_vars c' n = float_vars c n /\ int_vars c' n = int_vars c n).
Proof.
  intros Hnone H.
  pose proof (@get_ar_cache_frames self batch heads kv q _ _ _ H) as Frame.
  unfold _get_ar_cache, bind, assign_float, ret, float_variable, int_variable in H.
  rewrite (proj1 (Hnone cached_ar_key eq_refl)) in H.
  destruct (jnp_zeros 0%R _ _) as [e|ak] eqn:Zk; [discriminate|]. csimp in H.
  rewrite (proj1 (Hnone cached_ar_value eq_refl)) in H. csimp in H.
  rewrite (proj2 (Hnone cache_ar_lengths eq_refl)) in H.
  destruct (jnp_zeros 0%Z [_] _) as [e|lens] eqn:Zl; [discriminate|]. csimp in H.
  rewrite (proj2 (Hnone cache_ar_segment_id eq_refl)) in H.
  destruct (jnp_zeros 0%Z [_; _] _) as [e|seg] eqn:Zs; [discriminate|]. csimp in H.
  destruct (jnp_zeros_at _ _ _ Zl) as [Sl Al].
  destruct (jnp_zeros_at _ _ _ Zs) as [Ss As].
  cbn [nth map] in Sl, Ss. rewrite Nat2Z.id in Sl, Ss.
  destruct (quantize_kvcache self) eqn:Q; csimp in H.
  - rewrite (proj1 (Hnone cached_ar_key_scale eq_refl)) in H.
    destruct (jnp_zeros 0%R _ bfloat16) as [e|ks] eqn:Zks; [discriminate|].
    csimp in H.
    rewrite (proj1 (Hnone cached_ar_value_scale eq_refl)) in H. csimp in H.
    rewrite (proj2 (Hnone cache_ar_index eq_refl)) in H.
    destruct (jnp_zeros 0%Z [1%Z] _) as [e|idx] eqn:Zi; [discriminate|]. csimp in H.
    destruct (jnp_zeros_at _ _ _ Zi) as [Si Ai].
    injection H as <- <-.
    exists ak, ak, seg, idx, lens. csimp.
    split; [constructor; csimp; try reflexivity;
            intros _; split; eexists; reflexivity|].
    repeat (split; [first [reflexivity|assumption]|]). exact Frame.
  - rewrite (proj2 (Hnone cache_ar_index eq_refl)) in H.
    destruct (jnp_zeros 0%Z [1%Z] _) as [e|idx] eqn:Zi; [discriminate|]. csimp in H.
    destruct (jnp_zeros_at _ _ _ Zi) as [Si Ai].
    injection H as <- <-.
    exists ak, ak, seg, idx, lens. csimp.
    split; [constructor; csimp; try reflexivity; congruence|].
    repeat (split; [first [reflexivity|assumption]|]). exact Frame.
Qed.

End Fresh.

(** ** Length counters *)

Lemma ar_allocated_transfer (self : AttentionOp) (c c' : Cache)
    (ak av : Tensor R) (seg idx lens : Tensor Z) :
  (forall n, is_ar_var n = true ->
     float_vars c' n = float_vars c n /\ int_vars c' n = int_vars c n) ->
  ar_allocated self c ak av seg idx lens ->
  ar_allocated self c' ak av seg idx lens.
Proof.
  intros H [A1 A2 A3 A4 A5 A6]. constructor.
  - rewrite (proj1 (H cached_ar_key eq_refl)). exact A1.
  - rewrite (proj1 (H cached_ar_value eq_refl)). exact A2.
  - rewrite (proj2 (H cache_ar_segment_id eq_refl)). exact A3.
  - rewrite (proj2 (H cache_ar_index eq_refl)). exact A4.
  - rewrite (proj2 (H cache_ar_lengths eq_refl)). exact A5.
  - intros Q. destruct (A6 Q) as [[ks K] [vs V]].
    rewrite (proj1 (H cached_ar_key_scale eq_refl)).
    rewrite (proj1 (H cached_ar_value_scale eq_refl)).
    split; eexists; eassumption.
Qed.

Section PrefillAndCounters.

Variable quantize_kv : Tensor R -> nat -> Tensor R * Tensor R.
Variable self : AttentionOp.

(** A prefill on a cache whose autoregressive region exists leaves that
    region, its cursor and its length counters as they were. *)
Lemma prefill_keeps_ar (key value : Tensor R) (segs : option (Tensor Z))
    (c c' : Cache) out (ak av : Tensor R) (seg idx lens : Tensor Z) :
  ar_allocated self c ak av seg idx lens ->
  kv_cache_prefill quantize_kv self key value segs c = (inr out, c') ->
  ar_allocated self c' ak av seg idx lens.
Proof.
  intros Ha H.
  destruct (prefill_effect _ _ _ _ _ _ H)
    as (tk & tv & _ & _ & _ & _ & _ & _ & c2 & E1 & E2 & _).
  assert (Hd : defined c cache_ar_index = true).
  { unfold defined. cbn [is_int_var]. rewrite (alloc_index Ha). reflexivity. }
  apply (ar_allocated_transfer (c := c)); [|exact Ha].
  intros n Hn. destruct (E1 n Hn) as [F I]. destruct (E2 Hd n Hn) as [F' I'].
  split; congruence.
Qed.

(** The first prefill allocates the autoregressive region with the
    cursor and every length counter at zero. *)
Lemma prefill_fresh (key value : Tensor R) (segs : option (Tensor Z))
    (c c' : Cache) out :
  (forall n, is_ar_var n = true -> float_vars c n = None /\ int_vars c n = None) ->
  kv_cache_prefill quantize_kv self key value segs c = (inr out, c') ->
  exists ak av seg idx lens,
    ar_allocated self c' ak av seg idx lens /\
    (forall ix, at_ idx ix = 0%Z) /\ (forall ix, at_ lens ix = 0%Z) /\
    (forall ix, at_ seg ix = 0%Z) /\
    shape lens = [nth 1 (shape key) 0%nat] /\
    shape seg = [nth 1 (shape key) 0%nat; Z.to_nat (ar_capacity self)].
Proof.
  intros Hnone H.
  destruct (prefill_effect _ _ _ _ _ _ H)
    as (tk & tv & _ & _ & _ & _ & _ & _ & c2 & E1 & _ & E3).
  assert (Hd : defined c cache_ar_index = false).
  { unfold defined. cbn [is_int_var].
    rewrite (proj2 (Hnone cache_ar_index eq_refl)). reflexivity. }
  destruct (E3 Hd) as (batch & heads & kv & r & c1 & F1 & Hget & Hb & _).
  assert (Hnone1 : forall n, is_ar_var n = true ->
            float_vars c1 n = None /\ int_vars c1 n = None).
  { intros n Hn. destruct (F1 n Hn) as [F I]. destruct (Hnone n Hn) as [F' I'].
    split; congruence. }
  destruct (@get_ar_cache_fresh self batch heads kv _ c1 c2 r Hnone1 Hget)
    as (ak & av & seg & idx & lens & Ha & _ & _ & Zi & Zl & Zs & Sl & Ss & _).
  exists ak, av, seg, idx, lens. rewrite Hb.
  split; [|repeat (split; [assumption|]); assumption].
  apply (ar_allocated_transfer (c := c2)); [exact E1|exact Ha].
Qed.

End PrefillAndCounters.

Section EntryPoint.

Variable ACTIVE : Z.
Variable quantize_kv : Tensor R -> nat -> Tensor R * Tensor R.
Variable unquantize_kv : Tensor R -> Tensor R -> DType -> Tensor R.
Variable kernel : Tensor R -> Tensor R -> Tensor R -> Tensor Z ->
                  Tensor R * Tensor R * Tensor R.
Variable self : AttentionOp.

(** Whatever [__call__] returns or raises, the cache it leaves is the one
    left by its cache update, which it runs with the ragged flag set. *)
Lemma call_cache_effect (query key value : Tensor R) (segs : option (Tensor Z))
    (mode : Mode) (c : Cache) :
  snd (__call__ ACTIVE quantize_kv unquantize_kv kernel self query key value segs mode c)
  = snd (kv_cache ACTIVE quantize_kv unquantize_kv self key value segs mode true c).
Proof.
  unfold __call__. unfold bind at 1.
  destruct (kv_cache ACTIVE quantize_kv unquantize_kv self key value segs mode true c)
    as [[e|[[[pk pv] pids] ar]] c1]; [reflexivity|].
  cbn [snd]. unfold bind at 1, lift at 1.
  destruct (apply_attention ACTIVE kernel self query pk pv pids None mode true)
    as [e|[[o m] s]]; [reflexivity|].
  destruct ar as [[[[ark arv] arseg] arl]|]; [|reflexivity].
  unfold bind, lift.
  destruct (apply_attention ACTIVE kernel self query ark arv (Some arseg) (Some arl)
              mode true) as [e|[[o2 m2] s2]]; [reflexivity|].
  destruct (normalize_attention _ _ _); reflexivity.
Qed.

Lemma call_train_keeps_cache (query key value : Tensor R) (segs : option (Tensor Z))
    (c : Cache) :
  snd (__call__ ACTIVE quantize_kv unquantize_kv kernel self query key value segs
         MODEL_MODE_TRAIN c) = c.
Proof.
  rewrite call_cache_effect. unfold kv_cache.
  destruct (negb (list_nat_eqb (shape key) (shape value))); reflexivity.
Qed.

End EntryPoint.

(** ** C6: the length counters *)

(** C6.  On a cache whose autoregressive region exists, every successful
    decode call adds exactly one to each batch entry's length counter
    (one in [int32] arithmetic, hence one while the counter is below the
    largest [int32]); the capacity of the region plays no part.  After
    [n] successful decode calls the counter has grown by [n], and from the
    state the first prefill leaves it equals [n].  A prefill and a
    training-mode call leave the counters as they are, so no operation
    decreases them. *)
Theorem length_counters_count_decodes
    (ACTIVE : Z) (quantize_kv : Tensor R -> nat -> Tensor R * Tensor R)
    (unquantize_kv : Tensor R -> Tensor R -> DType -> Tensor R)
    (self : AttentionOp) (c : Cache)
    (ak av : Tensor R) (seg idx lens : Tensor Z) :
  ar_allocated self c ak av seg idx lens ->
  (forall key value use_ragged out c' b,
     kv_cache_autoregressive ACTIVE quantize_kv unquantize_kv self key value
       use_ragged c = (inr out, c') ->
     length_of c' b = Some (wrap32 (at_ lens [b] + 1)) /\
     ((- 2 ^ 31 <= at_ lens [b] < 2 ^ 31 - 1)%Z ->
      length_of c' b = Some (at_ lens [b] + 1)%Z)) /\
  (forall use_ragged tokens c' b,
     decode_all ACTIVE quantize_kv unquantize_kv self use_ragged tokens c
       = (inr tt, c') ->
     (- 2 ^ 31 <= at_ lens [b])%Z ->
     (at_ lens [b] + Z.of_nat (length tokens) < 2 ^ 31)%Z ->
     length_of c' b = Some (at_ lens [b] + Z.of_nat (length tokens))%Z) /\
  (forall c0 key value segs out use_ragged tokens c' b,
     (forall n, is_ar_var n = true ->
        float_vars c0 n = None /\ int_vars c0 n = None) ->
     kv_cache_prefill quantize_kv self key value segs c0 = (inr out, c) ->
     length_of c b = Some 0%Z /\
     (decode_all ACTIVE quantize_kv unquantize_kv self use_ragged tokens c
        = (inr tt, c') ->
      (Z.of_nat (length tokens) < 2 ^ 31)%Z ->
      length_of c' b = Some (Z.of_nat (length tokens)))) /\
  (forall key value segs out c' b,
     kv_cache_prefill quantize_kv self key value segs c = (inr out, c') ->
     length_of c' b = length_of c b) /\
  (forall kernel query key value segs b,
     length_of
       (snd (__call__ ACTIVE quantize_kv unquantize_kv kernel self query key value
               segs MODEL_MODE_TRAIN c)) b
     = length_of c b).
Proof.
  intros Ha.
  assert (Hone : forall key value use_ragged out c' b,
    kv_cache_autoregressive ACTIVE quantize_kv unquantize_kv self key value
      use_ragged c = (inr out, c') ->
    length_of c' b = Some (wrap32 (at_ lens [b] + 1))).
  { intros key value ur out c' b H.
    destruct (@decode_effect ACTIVE quantize_kv unquantize_kv self key value
                ur c c' ak av seg idx lens out Ha H)
      as (heads & batch & kv & axis & tokk & tokv & ak1 & av1 & seg1 & _ & _ & _
          & _ & _ & _ & _ & Ha1 & _).
    unfold length_of. rewrite (alloc_lengths Ha1). reflexivity. }
  assert (Hmany : forall use_ragged tokens c' b,
    decode_all ACTIVE quantize_kv unquantize_kv self use_ragged tokens c
      = (inr tt, c') ->
    (- 2 ^ 31 <= at_ lens [b])%Z ->
    (at_ lens [b] + Z.of_nat (length tokens) < 2 ^ 31)%Z ->
    length_of c' b = Some (at_ lens [b] + Z.of_nat (length tokens))%Z).
  { intros ur tokens c' b H Hlo Hhi.
    destruct (@decode_all_counters ACTIVE quantize_kv unquantize_kv self ur tokens
                c c' ak av seg idx lens Ha H) as (ak' & av' & seg' & Ha').
    unfold length_of. rewrite (alloc_lengths Ha'). cbn [option_map].
    rewrite lengths_steps by assumption. reflexivity. }
  split; [|split; [exact Hmany|split; [|split]]].
  - intros key value ur out c' b H. split; [eapply Hone; exact H|].
    intros Hr. rewrite (Hone _ _ _ _ _ b H), wrap32_id by lia. reflexivity.
  - intros c0 key value segs out ur tokens c' b Hnone Hpre.
    destruct (@prefill_fresh quantize_kv self key value segs c0 c out Hnone Hpre)
      as (ak0 & av0 & seg0 & idx0 & lens0 & Ha0 & _ & Zl & _).
    assert (El : lens0 = lens).
    { pose proof (alloc_lengths Ha0) as E0. rewrite (alloc_lengths Ha) in E0.
      congruence. }
    subst lens0.
    split.
    + unfold length_of. rewrite (alloc_lengths Ha). cbn [option_map].
      rewrite Zl. reflexivity.
    + intros H Hn. rewrite (Hmany ur tokens c' b H); rewrite Zl; try lia.
      reflexivity.
  - intros key value segs out c' b H.
    pose proof (@prefill_keeps_ar quantize_kv self key value segs c c' out
                  ak av seg idx lens Ha H) as Ha'.
    unfold length_of. rewrite (alloc_lengths Ha'), (alloc_lengths Ha). reflexivity.
  - intros kernel query key value segs b. rewrite call_train_keeps_cache.
    reflexivity.
Qed.

Lemma length_counters_witness :
  length_of cache_after_first_prompt 0 = Some 0%Z /\
  length_of
    (snd (decode_all 1 no_quantize no_unquantize example_op true three_tokens
            cache_after_first_prompt)) 0
  = Some 3%Z.
Proof.
  edestruct (@length_counters_count_decodes 1 no_quantize no_unquantize example_op
               cache_after_first_prompt) as (_ & _ & H & _).
  { constructor; try (vm_compute; reflexivity). discriminate. }
  destruct (H empty_cache (prompt 1) (prompt 1) (Some (prompt_ids 1))
              (prompt 1, prompt 1, Some (prompt_ids 1)) true three_tokens
              (snd (decode_all 1 no_quantize no_unquantize example_op true
                      three_tokens cache_after_first_prompt)) 0%nat)
    as [H0 H3].
  - intros n _. split; reflexivity.
  - exact first_prompt_runs.
  - split; [exact H0|]. apply H3.
    + vm_compute. reflexivity.
    + vm_compute. reflexivity.
Defined.

(** ** Writing one slot *)

Lemma in_bounds_length (ix sh : list nat) : in_bounds ix sh -> length ix = length sh.
Proof.
  revert sh. induction ix as [|i ix IH]; intros [|n sh] H; simpl in H;
    try contradiction; [reflexivity|].
  simpl. f_equal. apply IH. tauto.
Qed.

Lemma in_bounds_nth (axis : nat) :
  forall ix sh, in_bounds ix sh -> (axis < length sh)%nat ->
    (nth axis ix 0 < nth axis sh 0)%nat.
Proof.
  induction axis as [|axis IH]; intros [|i ix] [|n sh] H L; simpl in *;
    try contradiction; try lia.
  apply IH; [tauto|lia].
Qed.

Lemma in_bounds_no_zero (ix sh : list nat) : in_bounds ix sh -> In 0%nat sh -> False.
Proof.
  revert sh. induction ix as [|i ix IH]; intros [|n sh] H; simpl in *;
    try contradiction.
  intros [->|Hin]; [lia|]. apply (IH sh); tauto.
Qed.

Lemma nth_set_nth {A} (axis : nat) (a d : A) :
  forall l, (axis < length l)%nat -> nth axis (set_nth axis a l) d = a.
Proof.
  induction axis as [|axis IH]; intros [|b l] L; simpl in *; try lia;
    [reflexivity|]. apply IH. lia.
Qed.

Lemma length_set_nth {A} (axis : nat) (a : A) :
  forall l, length (set_nth axis a l) = length l.
Proof.
  induction axis as [|axis IH]; intros [|b l]; simpl; try reflexivity.
  f_equal. apply IH.
Qed.

(** A one-slot update covers every in-bounds position of the other axes. *)
Lemma one_slot_covers (axis : nat) :
  forall ix sh, in_bounds ix sh -> (axis < length sh)%nat ->
    forallb (fun '(j, u) => (j <? u)%nat)
            (combine (set_nth axis 0%nat ix) (set_nth axis 1%nat sh)) = true.
Proof.
  assert (Hall : forall ix sh, in_bounds ix sh ->
            forallb (fun '(j, u) => (j <? u)%nat) (combine ix sh) = true).
  { induction ix as [|i ix IH]; intros [|n sh] H; simpl in *; try contradiction;
      try reflexivity.
    destruct H as [Hi H]. apply andb_true_intro. split; [|apply IH; exact H].
    apply Nat.ltb_lt. exact Hi. }
  induction axis as [|axis IH]; intros [|i ix] [|n sh] H L; simpl in *;
    try contradiction; try lia.
  - apply Hall. tauto.
  - destruct H as [Hi H]. apply andb_true_intro. split; [|apply IH; [exact H|lia]].
    apply Nat.ltb_lt. exact Hi.
Qed.

(** Broadcasting a one-slot update reads it at slot 0 of the axis. *)
Lemma one_slot_bidx (axis : nat) :
  forall ix sh, in_bounds ix sh -> (axis < length sh)%nat ->
    bidx (set_nth axis 1%nat sh) ix = set_nth axis 0%nat ix.
Proof.
  intros ix sh H L. unfold bidx.
  rewrite length_set_nth, (in_bounds_length _ _ H), Nat.sub_diag.
  cbn [skipn]. revert ix sh H L.
  induction axis as [|axis IH]; intros [|i ix] [|n sh] H L; simpl in *;
    try contradiction; try lia.
  - f_equal. destruct H as [_ H]. clear -H. revert sh H.
    induction ix as [|j ix IH]; intros [|m sh] H; simpl in *; try contradiction;
      [reflexivity|].
    destruct H as [Hj H]. rewrite (bsel_lt Hj). f_equal. apply IH. exact H.
  - destruct H as [Hi H]. rewrite (bsel_lt Hi). f_equal. apply IH; [exact H|lia].
Qed.

(** [dynamic_update_index_in_dim] with a one-slot update and an index
    inside the axis writes exactly that slot. *)
Lemma dynamic_update_writes_slot {A} (operand update r : Tensor A)
    (index : Z) (axis : nat) :
  dynamic_update_index_in_dim operand update index axis = ok r ->
  shape update = set_nth axis 1%nat (shape operand) ->
  (axis < length (shape operand))%nat ->
  (0 <= index < Z.of_nat (nth axis (shape operand) 0%nat))%Z ->
  slot_written operand r update axis (Z.to_nat index).
Proof.
  unfold dynamic_update_index_in_dim. intros H Hs L Hi.
  destruct (negb _); [discriminate|].
  destruct (_ && _); [|discriminate]. injection H as <-.
  rewrite Hs, nth_set_nth by exact L.
  split; [reflexivity|]. split; [lia|].
  intros ix Hb. cbn [at_].
  rewrite one_slot_covers, andb_true_r by assumption.
  unfold normalize_index. destruct (Z.ltb_spec index 0); [lia|].
  replace (Z.to_nat (Z.max 0 (Z.min index
             (Z.of_nat (nth axis (shape operand) 0 - 1)))))%nat
    with (Z.to_nat index) by lia.
  destruct (Nat.eqb_spec (nth axis ix 0%nat) (Z.to_nat index)) as [E|E].
  - rewrite E, Nat.leb_refl. cbn [andb].
    replace (Z.to_nat index <? Z.to_nat index + 1)%nat with true
      by (symmetry; apply Nat.ltb_lt; lia).
    rewrite Nat.sub_diag. reflexivity.
  - destruct (Nat.leb_spec (Z.to_nat index) (nth axis ix 0%nat)); cbn [andb];
      [|reflexivity].
    replace (nth axis ix 0 <? Z.to_nat index + 1)%nat with false
      by (symmetry; apply Nat.ltb_ge; lia).
    reflexivity.
Qed.

(** A ragged write whose listed positions all equal [index] writes
    exactly that slot. *)
Lemma at_set_axis_writes_slot {A} (operand update : Tensor A)
    (positions : Tensor Z) (index : Z) (axis : nat) :
  shape update = set_nth axis 1%nat (shape operand) ->
  (axis < length (shape operand))%nat ->
  (0 <= index < Z.of_nat (nth axis (shape operand) 0%nat))%Z ->
  (forall b, (b < nth 0 (shape positions) 0)%nat -> at_ positions [b] = index) ->
  (nth 0 (shape positions) 0%nat = 0%nat -> In 0%nat (shape operand)) ->
  slot_written operand (at_set_axis operand axis positions update) update axis
    (Z.to_nat index).
Proof.
  intros Hs L Hi Hall Hz. unfold at_set_axis.
  split; [reflexivity|]. split; [lia|].
  intros ix Hb. cbn [at_]. rewrite Hs, one_slot_bidx by assumption.
  destruct (nth 0 (shape positions) 0%nat) as [|B] eqn:EB.
  { destruct (@in_bounds_no_zero _ _ Hb (Hz eq_refl)). }
  destruct (Nat.eqb_spec (nth axis ix 0%nat) (Z.to_nat index)) as [E|E].
  - replace (existsb _ _) with true; [reflexivity|].
    symmetry. apply existsb_exists. exists 0%nat. split; [simpl; tauto|].
    rewrite Hall by lia. unfold normalize_index.
    destruct (Z.ltb_spec index 0); [lia|]. apply Z.eqb_eq. lia.
  - replace (existsb _ _) with false; [reflexivity|].
    symmetry. apply not_true_is_false. intros Hex.
    apply existsb_exists in Hex. destruct Hex as (b & Hin & Hq).
    apply in_seq in Hin. rewrite Hall in Hq by lia. unfold normalize_index in Hq.
    destruct (Z.ltb_spec index 0); [lia|]. apply Z.eqb_eq in Hq. lia.
Qed.

(** Either addressing mode writes the slot at the cursor, when the
    length counters agree with the cursor in ragged mode. *)
Lemma write_token_slot (use_ragged : bool) (cache tok cache' : Tensor R)
    (idx lens : Tensor Z) (axis : nat) :
  write_token use_ragged cache tok idx lens axis = ok cache' ->
  shape tok = set_nth axis 1%nat (shape cache) ->
  (axis < length (shape cache))%nat ->
  (0 <= item idx < Z.of_nat (nth axis (shape cache) 0%nat))%Z ->
  (use_ragged = true ->
   (forall b, (b < nth 0 (shape lens) 0)%nat -> at_ lens [b] = item idx) /\
   (nth 0 (shape lens) 0%nat = 0%nat -> In 0%nat (shape cache))) ->
  slot_written cache cache' tok axis (Z.to_nat (item idx)).
Proof.
  unfold write_token. intros H Hs L Hi Hr. destruct use_ragged.
  - injection H as <-. destruct (Hr eq_refl) as [Hall Hz].
    apply at_set_axis_writes_slot; assumption.
  - apply dynamic_update_writes_slot; assumption.
Qed.

(** ** Shapes in the autoregressive region *)

Lemma axis_order_cases (order : list nat) :
  axis_order_ok order = true -> In order axis_orders.
Proof.
  intros H. destruct order as [|a [|b [|c [|d [|e rest]]]]]; try discriminate H.
  destruct a as [|[|[|[|a]]]]; destruct b as [|[|[|[|b]]]];
    destruct c as [|[|[|[|c]]]]; destruct d as [|[|[|[|d]]]];
    try discriminate H; cbn; tauto.
Qed.

Section TokenShapes.

Variable quantize_kv : Tensor R -> nat -> Tensor R * Tensor R.
Variable self : AttentionOp.
Hypothesis layout : standard_layout self.
Hypothesis quantizer : shape_preserving quantize_kv.

(** The token written by a decode call fills one slot of the sequence
    axis of the autoregressive array. *)
Lemma token_fills_one_slot (x tok cache : Tensor R) (heads batch kv axis : nat) :
  shape x = [heads; batch; 1; kv]%nat ->
  ar_seq_axis self = ok axis ->
  token_for_cache quantize_kv self x = ok tok ->
  map Z.of_nat (shape cache)
    = cached_kv_shape [Z.of_nat heads; Z.of_nat batch; ar_capacity self; Z.of_nat kv]
        (ar_cache_axis_order self) ->
  shape tok = set_nth axis 1%nat (shape cache) /\
  (axis < length (shape cache))%nat /\
  Z.of_nat (nth axis (shape cache) 0%nat) = ar_capacity self /\
  (batch = 0%nat -> In 0%nat (shape cache)).
Proof.
  destruct layout as [Hl Ho]. apply axis_order_cases in Ho.
  unfold ar_seq_axis, token_for_cache. rewrite Hl.
  intros Hx Hax Htok Hc.
  assert (Hshape : shape tok = shape (reshape_kv_cache x (ar_cache_axis_order self))).
  { destruct (quantize_kvcache self).
    - destruct (index_in_layout CACHE_KV _) as [e|a]; [discriminate|].
      cbn in Htok. injection Htok as <-. apply quantizer.
    - injection Htok as <-. reflexivity. }
  rewrite Hshape. clear Htok Hshape.
  destruct (shape cache) as [|n0 [|n1 [|n2 [|n3 [|n4 rest]]]]];
    cbn in Ho;
    repeat (destruct Ho as [Ho|Ho]; [rewrite <- Ho in *; try discriminate Hc|]);
    try contradiction;
    cbn in Hax; injection Hax as <-;
    cbn in Hc; injection Hc as E0 E1 E2 E3;
    unfold reshape_kv_cache, moveaxis_all, transpose; cbn [shape]; rewrite Hx;
    cbn;
    repeat match goal with
           | H : Z.of_nat _ = Z.of_nat _ |- _ => apply Nat2Z.inj in H; subst
           end;
    (split; [reflexivity|]); (split; [lia|]); (split; [assumption|]);
    intros ->; tauto.
Qed.

End TokenShapes.

Lemma no_quantize_shape_preserving : shape_preserving no_quantize.
Proof. intros x a. reflexivity. Qed.

Lemma example_op_standard_layout : standard_layout example_op.
Proof. split; reflexivity. Qed.

(** ** Where a decode call writes *)

(** A successful decode call with the cursor inside the region writes the
    token's key and value at the cursor slot: always in indexed mode, and
    in ragged mode when every length counter equals the cursor. *)
Lemma decode_writes_slots
    (ACTIVE : Z) (quantize_kv : Tensor R -> nat -> Tensor R * Tensor R)
    (unquantize_kv : Tensor R -> Tensor R -> DType -> Tensor R)
    (self : AttentionOp) (key value : Tensor R) (use_ragged : bool)
    (c c' : Cache) out (ak av : Tensor R) (seg idx lens : Tensor Z) :
  standard_layout self ->
  shape_preserving quantize_kv ->
  ar_allocated self c ak av seg idx lens ->
  shape value = shape key ->
  (0 <= item idx < ar_capacity self)%Z ->
  (use_ragged = true ->
   shape lens = [nth 1 (shape key) 0%nat] /\
   forall b, (b < nth 1 (shape key) 0)%nat -> at_ lens [b] = item idx) ->
  kv_cache_autoregressive ACTIVE quantize_kv unquantize_kv self key value
    use_ragged c = (inr out, c') ->
  exists axis tokk tokv ak' av' seg',
    ar_seq_axis self = ok axis /\
    token_for_cache quantize_kv self key = ok tokk /\
    token_for_cache quantize_kv self value = ok tokv /\
    ar_allocated self c' ak' av' seg' (advance_index self idx) (advance_lengths lens) /\
    dynamic_update_index_in_dim seg
      (active_indicator ACTIVE (nth 1 (shape key) 0%nat)) (item idx) 1 = ok seg' /\
    slot_written ak ak' tokk axis (Z.to_nat (item idx)) /\
    slot_written av av' tokv axis (Z.to_nat (item idx)).
Proof.
  intros Hlay Hq Ha Hv Hidx Hrag H.
  destruct (@decode_effect ACTIVE quantize_kv unquantize_kv self key value
              use_ragged c c' ak av seg idx lens out Ha H)
    as (heads & batch & kv & axis & tokk & tokv & ak1 & av1 & seg1 & Hk & Hax & Tk
        & Tv & Wk & Wv & Ws & Ha1 & _ & _ & Sk & Sv).
  rewrite Hk in Hv, Hrag |- *. cbn [nth] in Hrag |- *.
  destruct (@token_fills_one_slot quantize_kv self Hlay Hq key tokk ak _ _ _ _ Hk Hax Tk Sk)
    as (Ek & Lk & Ck & Zk).
  destruct (@token_fills_one_slot quantize_kv self Hlay Hq value tokv av _ _ _ _ Hv Hax Tv Sv)
    as (Ev & Lv & Cv & Zv).
  exists axis, tokk, tokv, ak1, av1, seg1.
  split; [exact Hax|]. split; [exact Tk|]. split; [exact Tv|].
  split; [exact Ha1|]. split; [exact Ws|].
  split.
  - apply (@write_token_slot _ _ _ _ _ _ _ Wk); [exact Ek|exact Lk|lia|].
    intros ->. destruct (Hrag eq_refl) as [Sl Hall]. rewrite Sl. cbn [nth].
    split; [exact Hall|exact Zk].
  - apply (@write_token_slot _ _ _ _ _ _ _ Wv); [exact Ev|exact Lv|lia|].
    intros ->. destruct (Hrag eq_refl) as [Sl Hall]. rewrite Sl. cbn [nth].
    split; [exact Hall|exact Zv].
Qed.

(** ** C5: the segment-id slot and the written slot *)

Lemma DType_eqb_true (a b : DType) : DType_eqb a b = true -> a = b.
Proof. destruct a, b; simpl; intros H; try reflexivity; discriminate H. Qed.

(** An indexed update that returns has an update of the element type of
    its operand. *)
Lemma dynamic_update_same_dtype {A} (operand update r : Tensor A)
    (index : Z) (axis : nat) :
  dynamic_update_index_in_dim operand update index axis = ok r ->
  dtype update = dtype operand.
Proof.
  unfold dynamic_update_index_in_dim.
  destruct (DType_eqb (dtype operand) (dtype update)) eqn:E; [|discriminate].
  intros _. symmetry. apply DType_eqb_true, E.
Qed.

(** A ragged write of a one-slot update touches the addressed positions
    and no other. *)
Lemma at_set_axis_ragged_written (operand update : Tensor R)
    (positions : Tensor Z) (axis : nat) :
  shape update = set_nth axis 1%nat (shape operand) ->
  (axis < length (shape operand))%nat ->
  ragged_written operand (at_set_axis operand axis positions update) update axis
    positions.
Proof.
  intros Hs L. unfold ragged_written, at_set_axis, listed.
  split; [reflexivity|]. split; [reflexivity|].
  intros ix Hb. cbn [at_ shape]. rewrite Hs, one_slot_bidx by assumption.
  destruct (existsb _ _); [intros _|]; reflexivity.
Qed.

(** C5 (amended).  With the key and value arrays in the heads, batch,
    sequence, head-dimension layout and the cursor inside the region,
    every successful decode call marks the segment-id slot at the cursor.
    In indexed mode the token's key and value are written at that same
    slot.  In ragged mode they are written at the positions held by the
    length counters and nowhere else, whatever the counters are; that is
    the marked slot when every length counter equals the cursor. *)
Theorem segment_mark_at_write_position
    (ACTIVE : Z) (quantize_kv : Tensor R -> nat -> Tensor R * Tensor R)
    (unquantize_kv : Tensor R -> Tensor R -> DType -> Tensor R)
    (self : AttentionOp) (key value : Tensor R) (use_ragged : bool)
    (c c' : Cache) out (ak av : Tensor R) (seg idx lens : Tensor Z) :
  standard_layout self ->
  shape_preserving quantize_kv ->
  ar_allocated self c ak av seg idx lens ->
  shape value = shape key ->
  shape seg = [nth 1 (shape key) 0%nat; Z.to_nat (ar_capacity self)] ->
  (0 <= item idx < ar_capacity self)%Z ->
  kv_cache_autoregressive ACTIVE quantize_kv unquantize_kv self key value
    use_ragged c = (inr out, c') ->
  exists axis tokk tokv ak' av' seg',
    ar_seq_axis self = ok axis /\
    token_for_cache quantize_kv self key = ok tokk /\
    token_for_cache quantize_kv self value = ok tokv /\
    float_vars c' cached_ar_key = Some ak' /\
    float_vars c' cached_ar_value = Some av' /\
    int_vars c' cache_ar_segment_id = Some seg' /\
    slot_written seg seg' (active_indicator ACTIVE (nth 1 (shape key) 0%nat)) 1
      (Z.to_nat (item idx)) /\
    (use_ragged = false ->
     dtype tokk = dtype ak /\ dtype tokv = dtype av /\
     slot_written ak ak' tokk axis (Z.to_nat (item idx)) /\
     slot_written av av' tokv axis (Z.to_nat (item idx))) /\
    (use_ragged = true ->
     ragged_written ak ak' tokk axis lens /\
     ragged_written av av' tokv axis lens) /\
    (use_ragged = true ->
     dtype tokk = dtype ak -> dtype tokv = dtype av ->
     shape lens = [nth 1 (shape key) 0%nat] ->
     (forall b, (b < nth 1 (shape key) 0)%nat -> at_ lens [b] = item idx) ->
     slot_written ak ak' tokk axis (Z.to_nat (item idx)) /\
     slot_written av av' tokv axis (Z.to_nat (item idx))).
Proof.
  intros Hlay Hq Ha Hv Hseg Hidx H.
  destruct (@decode_effect ACTIVE quantize_kv unquantize_kv self key value
              use_ragged c c' ak av seg idx lens out Ha H)
    as (heads & batch & kv & axis & tokk & tokv & ak1 & av1 & seg1 & Hk & Hax & Tk
        & Tv & Wk & Wv & Ws & Ha1 & _ & _ & Sk & Sv).
  rewrite Hk in Hv, Hseg |- *. cbn [nth] in Hseg |- *.
  destruct (@token_fills_one_slot quantize_kv self Hlay Hq key tokk ak _ _ _ _ Hk Hax Tk Sk)
    as (Ek & Lk & Ck & Zk).
  destruct (@token_fills_one_slot quantize_kv self Hlay Hq value tokv av _ _ _ _ Hv Hax Tv Sv)
    as (Ev & Lv & Cv & Zv).
  exists axis, tokk, tokv, ak1, av1, seg1.
  split; [exact Hax|]. split; [exact Tk|]. split; [exact Tv|].
  split; [exact (alloc_key Ha1)|]. split; [exact (alloc_value Ha1)|].
  split; [exact (alloc_segment Ha1)|].
  split; [|split; [|split]].
  - apply dynamic_update_writes_slot; [exact Ws|rewrite Hseg; reflexivity
                                       |rewrite Hseg; simpl; lia|].
    rewrite Hseg. cbn [nth]. lia.
  - intros ->. unfold write_token in Wk, Wv.
    split; [exact (dynamic_update_same_dtype _ _ _ _ Wk)|].
    split; [exact (dynamic_update_same_dtype _ _ _ _ Wv)|].
    split; apply dynamic_update_writes_slot; try assumption; lia.
  - intros ->. unfold write_token, ok in Wk, Wv.
    injection Wk as <-. injection Wv as <-.
    split; apply at_set_axis_ragged_written; assumption.
  - intros -> _ _ Sl Hall. split.
    + apply (@write_token_slot _ _ _ _ _ _ _ Wk); [exact Ek|exact Lk|lia|].
      intros _. rewrite Sl. cbn [nth]. split; [exact Hall|exact Zk].
    + apply (@write_token_slot _ _ _ _ _ _ _ Wv); [exact Ev|exact Lv|lia|].
      intros _. rewrite Sl. cbn [nth]. split; [exact Hall|exact Zv].
Qed.

Lemma uneven_lengths_allocated :
  exists ak av seg idx lens,
    ar_allocated example_op cache_with_uneven_lengths ak av seg idx lens /\
    item idx = 0%Z /\ shape seg = [2; 2]%nat /\ lens = uneven_lengths.
Proof.
  do 5 eexists. split; [constructor; try (vm_compute; reflexivity); discriminate|].
  repeat split; reflexivity.
Qed.

Lemma segment_mark_witness :
  exists ak av seg axis tokk tokv ak' av' seg',
    float_vars cache_with_uneven_lengths cached_ar_key = Some ak /\
    float_vars cache_with_uneven_lengths cached_ar_value = Some av /\
    int_vars cache_with_uneven_lengths cache_ar_segment_id = Some seg /\
    ar_seq_axis example_op = ok axis /\
    token_for_cache no_quantize example_op two_entry_token = ok tokk /\
    token_for_cache no_quantize example_op two_entry_token = ok tokv /\
    slot_written seg seg' (active_indicator 1 2) 1 0 /\
    ragged_written ak ak' tokk axis uneven_lengths /\
    ragged_written av av' tokv axis uneven_lengths.
Proof.
  destruct uneven_lengths_allocated as (ak & av & seg & idx & lens & Ha & Hi & Hs & Hl).
  assert (Hok : match fst (kv_cache_autoregressive 1 no_quantize no_unquantize
                             example_op two_entry_token two_entry_token true
                             cache_with_uneven_lengths)
                with inl _ => False | inr _ => True end)
    by (vm_compute; exact I).
  destruct (kv_cache_autoregressive 1 no_quantize no_unquantize example_op
              two_entry_token two_entry_token true cache_with_uneven_lengths)
    as [[e|out] c'] eqn:Hrun; [contradiction Hok|]. clear Hok.
  destruct (@segment_mark_at_write_position 1 no_quantize no_unquantize example_op
              two_entry_token two_entry_token true cache_with_uneven_lengths c' out
              ak av seg idx lens example_op_standard_layout
              no_quantize_shape_preserving Ha eq_refl Hs)
    as (axis & tokk & tokv & ak' & av' & seg' & E1 & E2 & E3 & _ & _ & _ & W & _
        & Wr & _).
  - rewrite Hi. unfold ar_capacity. cbn. lia.
  - exact Hrun.
  - rewrite Hi in W. rewrite Hl in Wr. destruct (Wr eq_refl) as [Wk Wv].
    exists ak, av, seg, axis, tokk, tokv, ak', av', seg'.
    split; [exact (alloc_key Ha)|]. split; [exact (alloc_value Ha)|].
    split; [exact (alloc_segment Ha)|].
    split; [exact E1|]. split; [exact E2|]. split; [exact E3|].
    split; [exact W|]. split; [exact Wk|exact Wv].
Defined.

(** C5, as stated, fails once the region is full.  After a prompt and two
    ragged decode calls on [example_op] (capacity two) the cursor has
    wrapped to 0 while the length counter is 2.  The third call marks
    segment-id slot 0 and writes the token's key at position 2, outside
    the region, where the write is dropped: no slot holds the new key. *)
Lemma ragged_write_misses_marked_slot :
  exists out c' ak seg ak' seg',
    cursor cache_after_two_decodes = Some 0%Z /\
    length_of cache_after_two_decodes 0 = Some 2%Z /\
    kv_cache_autoregressive 1 no_quantize no_unquantize example_op
      (token 3) (token 3) true cache_after_two_decodes = (inr out, c') /\
    float_vars cache_after_two_decodes cached_ar_key = Some ak /\
    int_vars cache_after_two_decodes cache_ar_segment_id = Some seg /\
    float_vars c' cached_ar_key = Some ak' /\
    int_vars c' cache_ar_segment_id = Some seg' /\
    token_for_cache no_quantize example_op (token 3) = ok (token 3) /\
    ar_seq_axis example_op = ok 2%nat /\
    slot_written seg seg' (active_indicator 1 1) 1 0 /\
    ~ (exists p, slot_written ak ak' (token 3) 2 p).
Proof.
  do 6 eexists.
  split; [vm_compute; reflexivity|]. split; [vm_compute; reflexivity|].
  split; [vm_compute; reflexivity|]. split; [vm_compute; reflexivity|].
  split; [vm_compute; reflexivity|]. split; [vm_compute; reflexivity|].
  split; [vm_compute; reflexivity|]. split; [vm_compute; reflexivity|].
  split; [vm_compute; reflexivity|].
  split.
  - split; [reflexivity|]. split; [cbn; lia|].
    intros [|i [|j [|? ?]]] Hb; cbn in Hb; try tauto.
    destruct Hb as (Hi & Hj & _).
    assert (i = 0)%nat by lia. subst i.
    destruct j as [|[|j]]; [reflexivity|reflexivity|lia].
  - intros (p & Hs & Hp & Hall). cbn in Hp.
    assert (Hp' : (p = 0 \/ p = 1)%nat) by lia.
    destruct Hp' as [-> | ->].
    + specialize (Hall [0; 0; 0; 0]%nat). cbn in Hall.
      assert (Hb : (0 < 1 /\ 0 < 1 /\ 0 < 2 /\ 0 < 1 /\ True)%nat) by lia.
      specialize (Hall Hb). lra.
    + specialize (Hall [0; 0; 1; 0]%nat). cbn in Hall.
      assert (Hb : (0 < 1 /\ 0 < 1 /\ 1 < 2 /\ 0 < 1 /\ True)%nat) by lia.
      specialize (Hall Hb). lra.
Qed.

(** ** Runs of indexed decode calls *)

Lemma mod_shift_differs (i k n : Z) :
  (0 <= i < n)%Z -> (0 < k < n)%Z -> ((i + k) mod n <> i)%Z.
Proof.
  intros Hi Hk. destruct (Z_lt_dec (i + k) n) as [Hlt|Hge].
  - rewrite Z.mod_small by lia. lia.
  - replace (i + k)%Z with ((i + k - n) + 1 * n)%Z by lia.
    rewrite Z_mod_plus_full, Z.mod_small by lia. lia.
Qed.

Section IndexedRuns.

Variable ACTIVE : Z.
Variable quantize_kv : Tensor R -> nat -> Tensor R * Tensor R.
Variable unquantize_kv : Tensor R -> Tensor R -> DType -> Tensor R.
Variable self : AttentionOp.
Hypothesis layout : standard_layout self.
Hypothesis quantizer : shape_preserving quantize_kv.
Hypothesis capacity : (0 < ar_capacity self < 2 ^ 31)%Z.

(** Indexed decode calls whose cursor never reaches slot [p] leave that
    slot of the key and value arrays as it was. *)
Lemma indexed_run_spares_slot (p axis : nat) (tokens : list (Tensor R * Tensor R)) :
  ar_seq_axis self = ok axis ->
  Forall (fun t => shape (snd t) = shape (fst t)) tokens ->
  forall (c c' : Cache) (ak av : Tensor R) (seg idx lens : Tensor Z),
    ar_allocated self c ak av seg idx lens ->
    (0 <= item idx < ar_capacity self)%Z ->
    decode_all ACTIVE quantize_kv unquantize_kv self false tokens c = (inr tt, c') ->
    (forall j, (j < length tokens)%nat ->
       ((item idx + Z.of_nat j) mod ar_capacity self <> Z.of_nat p)%Z) ->
    exists ak' av' seg',
      ar_allocated self c' ak' av' seg'
        (Nat.iter (length tokens) (advance_index self) idx)
        (Nat.iter (length tokens) advance_lengths lens) /\
      shape ak' = shape ak /\ shape av' = shape av /\
      (forall ix, in_bounds ix (shape ak) -> nth axis ix 0%nat = p ->
         at_ ak' ix = at_ ak ix) /\
      (forall ix, in_bounds ix (shape av) -> nth axis ix 0%nat = p ->
         at_ av' ix = at_ av ix).
Proof.
  intros Hax Hall. induction Hall as [|[key value] rest Hv Hrest IH];
    intros c c' ak av seg idx lens Ha Hidx H Hp.
  - cbn in H. injection H as <-. exists ak, av, seg. cbn [length Nat.iter nat_rect].
    split; [exact Ha|]. split; [reflexivity|]. split; [reflexivity|].
    split; intros; reflexivity.
  - cbn [decode_all] in H. cbn [fst snd] in Hv.
    destruct (kv_cache_autoregressive ACTIVE quantize_kv unquantize_kv self
                key value false c) as [[e|out] c1] eqn:E; [discriminate|].
    destruct (@decode_writes_slots ACTIVE quantize_kv unquantize_kv self key value
                false c c1 out ak av seg idx lens layout quantizer Ha Hv Hidx
                ltac:(discriminate) E)
      as (axis0 & tokk & tokv & ak1 & av1 & seg1 & Hax0 & _ & _ & Ha1 & _ & Wk & Wv).
    assert (axis0 = axis) by (unfold ok in Hax, Hax0; congruence). subst axis0.
    destruct (cursor_step self idx capacity Hidx) as [Es Hr].
    assert (Hne : Z.to_nat (item idx) <> p).
    { specialize (Hp 0%nat ltac:(cbn; lia)). cbn in Hp.
      rewrite Z.add_0_r, Z.mod_small in Hp by lia. lia. }
    destruct (IH c1 c' ak1 av1 seg1 _ _ Ha1 Hr H) as (ak' & av' & seg' & Ha' & Sk & Sv
                                                       & Pk & Pv).
    { intros j Hj. rewrite Es, Zplus_mod_idemp_l.
      replace (item idx + 1 + Z.of_nat j)%Z with (item idx + Z.of_nat (S j))%Z by lia.
      apply Hp. cbn [length]. lia. }
    destruct Wk as (Sk1 & _ & Wk). destruct Wv as (Sv1 & _ & Wv).
    exists ak', av', seg'. cbn [length]. rewrite !Nat.iter_succ_r.
    split; [exact Ha'|]. split; [congruence|]. split; [congruence|].
    split.
    + intros ix Hb Hix. rewrite Pk by (rewrite ?Sk1; assumption).
      rewrite (Wk ix Hb), Hix.
      destruct (Nat.eqb_spec p (Z.to_nat (item idx))); [congruence|reflexivity].
    + intros ix Hb Hix. rewrite Pv by (rewrite ?Sv1; assumption).
      rewrite (Wv ix Hb), Hix.
      destruct (Nat.eqb_spec p (Z.to_nat (item idx))); [congruence|reflexivity].
Qed.

End IndexedRuns.

Lemma surjective_pairing_inr {E A S} (r : (E + A) * S) (a : A) :
  fst r = inr a -> r = (inr a, snd r).
Proof. destruct r as [x s]. cbn. intros ->. reflexivity. Qed.

(** ** C4: the write cursor *)

(** C4.  With the cursor inside the region (where the first prefill puts
    it and every decode call keeps it), a successful decode call sets the
    cursor to (cursor + 1) mod capacity, capacity being
    [max_target_length - max_prefill_predict_length].  After [n] calls it
    is (cursor + n) mod capacity, so after exactly capacity calls it is
    back at its initial value.  In indexed mode the first of capacity
    calls writes the cursor slot, that slot still holds its token after
    the remaining calls, and the next call writes the same slot. *)
Theorem cursor_advances_and_wraps
    (ACTIVE : Z) (quantize_kv : Tensor R -> nat -> Tensor R * Tensor R)
    (unquantize_kv : Tensor R -> Tensor R -> DType -> Tensor R)
    (self : AttentionOp) (c : Cache)
    (ak av : Tensor R) (seg idx lens : Tensor Z) :
  (0 < ar_capacity self < 2 ^ 31)%Z ->
  ar_allocated self c ak av seg idx lens ->
  (0 <= item idx < ar_capacity self)%Z ->
  (forall key value use_ragged out c',
     kv_cache_autoregressive ACTIVE quantize_kv unquantize_kv self key value
       use_ragged c = (inr out, c') ->
     cursor c' = Some ((item idx + 1) mod ar_capacity self)%Z) /\
  (forall use_ragged tokens c',
     decode_all ACTIVE quantize_kv unquantize_kv self use_ragged tokens c
       = (inr tt, c') ->
     cursor c'
       = Some ((item idx + Z.of_nat (length tokens)) mod ar_capacity self)%Z /\
     (Z.of_nat (length tokens) = ar_capacity self -> cursor c' = cursor c)) /\
  (standard_layout self -> shape_preserving quantize_kv ->
   forall key value rest c1 key1 value1 out1 c2,
     shape value = shape key ->
     Forall (fun t => shape (snd t) = shape (fst t)) rest ->
     shape value1 = shape key1 ->
     decode_all ACTIVE quantize_kv unquantize_kv self false ((key, value) :: rest) c
       = (inr tt, c1) ->
     Z.of_nat (S (length rest)) = ar_capacity self ->
     kv_cache_autoregressive ACTIVE quantize_kv unquantize_kv self key1 value1
       false c1 = (inr out1, c2) ->
     exists axis tokk tokv tokk1 tokv1 ak1 av1 ak2 av2,
       ar_seq_axis self = ok axis /\
       token_for_cache quantize_kv self key = ok tokk /\
       token_for_cache quantize_kv self value = ok tokv /\
       token_for_cache quantize_kv self key1 = ok tokk1 /\
       token_for_cache quantize_kv self value1 = ok tokv1 /\
       float_vars c1 cached_ar_key = Some ak1 /\
       float_vars c1 cached_ar_value = Some av1 /\
       float_vars c2 cached_ar_key = Some ak2 /\
       float_vars c2 cached_ar_value = Some av2 /\
       (forall ix, in_bounds ix (shape ak1) ->
          nth axis ix 0%nat = Z.to_nat (item idx) ->
          at_ ak1 ix = at_ tokk (set_nth axis 0%nat ix)) /\
       (forall ix, in_bounds ix (shape av1) ->
          nth axis ix 0%nat = Z.to_nat (item idx) ->
          at_ av1 ix = at_ tokv (set_nth axis 0%nat ix)) /\
       slot_written ak1 ak2 tokk1 axis (Z.to_nat (item idx)) /\
       slot_written av1 av2 tokv1 axis (Z.to_nat (item idx))).
Proof.
  intros Hcap Ha Hidx.
  assert (Hmany : forall use_ragged tokens c',
    decode_all ACTIVE quantize_kv unquantize_kv self use_ragged tokens c
      = (inr tt, c') ->
    cursor c'
      = Some ((item idx + Z.of_nat (length tokens)) mod ar_capacity self)%Z).
  { intros ur tokens c' H.
    destruct (@decode_all_counters ACTIVE quantize_kv unquantize_kv self ur tokens
                c c' ak av seg idx lens Ha H) as (ak' & av' & seg' & Ha').
    unfold cursor. rewrite (alloc_index Ha'). cbn [option_map].
    rewrite cursor_steps by assumption. reflexivity. }
  split; [|split].
  - intros key value ur out c' H.
    destruct (@decode_effect ACTIVE quantize_kv unquantize_kv self key value
                ur c c' ak av seg idx lens out Ha H)
      as (heads & batch & kv & axis & tokk & tokv & ak1 & av1 & seg1 & _ & _ & _
          & _ & _ & _ & _ & Ha1 & _).
    unfold cursor. rewrite (alloc_index Ha1). cbn [option_map].
    destruct (cursor_step self idx Hcap Hidx) as [E _]. rewrite E. reflexivity.
  - intros ur tokens c' H. split; [exact (Hmany ur tokens c' H)|].
    intros Hn. rewrite (Hmany ur tokens c' H), Hn.
    unfold cursor. rewrite (alloc_index Ha). cbn [option_map].
    rewrite <- (Z.mul_1_l (ar_capacity self)) at 1.
    rewrite Z_mod_plus_full, Z.mod_small by lia. reflexivity.
  - intros Hlay Hq key value rest c1 key1 value1 out1 c2 Hv Hrest Hv1 Hrun Hn Hnext.
    cbn [decode_all] in Hrun.
    destruct (kv_cache_autoregressive ACTIVE quantize_kv unquantize_kv self
                key value false c) as [[e|out] c0] eqn:E; [discriminate|].
    destruct (@decode_writes_slots ACTIVE quantize_kv unquantize_kv self key value
                false c c0 out ak av seg idx lens Hlay Hq Ha Hv Hidx
                ltac:(discriminate) E)
      as (axis & tokk & tokv & ak0 & av0 & seg0 & Hax & Tk & Tv & Ha0 & _ & Wk & Wv).
    destruct (cursor_step self idx Hcap Hidx) as [Es Hr].
    destruct (@indexed_run_spares_slot ACTIVE quantize_kv unquantize_kv self Hlay Hq
                Hcap (Z.to_nat (item idx)) axis rest Hax Hrest c0 c1 ak0 av0 seg0
                _ _ Ha0 Hr Hrun)
      as (ak1 & av1 & seg1 & Ha1 & Sk & Sv & Pk & Pv).
    { intros j Hj. rewrite Es, Zplus_mod_idemp_l, Z2Nat.id by lia.
      rewrite <- Z.add_assoc. apply mod_shift_differs; lia. }
    assert (Hback : item (Nat.iter (length rest) (advance_index self)
                            (advance_index self idx)) = item idx).
    { rewrite <- Nat.iter_succ_r, cursor_steps, Hn by assumption.
      rewrite <- (Z.mul_1_l (ar_capacity self)) at 1.
      rewrite Z_mod_plus_full, Z.mod_small by lia. reflexivity. }
    destruct (@decode_writes_slots ACTIVE quantize_kv unquantize_kv self key1 value1
                false c1 c2 out1 ak1 av1 seg1 _ _ Hlay Hq Ha1 Hv1
                ltac:(rewrite Hback; exact Hidx) ltac:(discriminate) Hnext)
      as (axis1 & tokk1 & tokv1 & ak2 & av2 & seg2 & Hax1 & Tk1 & Tv1 & Ha2 & _
          & Wk1 & Wv1).
    assert (axis1 = axis) by (unfold ok in Hax, Hax1; congruence). subst axis1.
    rewrite Hback in Wk1, Wv1.
    destruct Wk as (Sk0 & _ & Wk). destruct Wv as (Sv0 & _ & Wv).
    exists axis, tokk, tokv, tokk1, tokv1, ak1, av1, ak2, av2.
    split; [exact Hax|]. split; [exact Tk|]. split; [exact Tv|].
    split; [exact Tk1|]. split; [exact Tv1|].
    split; [exact (alloc_key Ha1)|]. split; [exact (alloc_value Ha1)|].
    split; [exact (alloc_key Ha2)|]. split; [exact (alloc_value Ha2)|].
    split; [|split; [|split; assumption]].
    + intros ix Hb Hix. rewrite Sk, Sk0 in Hb.
      rewrite Pk by (rewrite ?Sk0; assumption).
      rewrite (Wk ix Hb), Hix, Nat.eqb_refl. reflexivity.
    + intros ix Hb Hix. rewrite Sv, Sv0 in Hb.
      rewrite Pv by (rewrite ?Sv0; assumption).
      rewrite (Wv ix Hb), Hix, Nat.eqb_refl. reflexivity.
Qed.

Lemma cursor_wraps_witness :
  cursor cache_after_first_prompt = Some 0%Z /\
  cursor (snd (kv_cache_autoregressive 1 no_quantize no_unquantize example_op
                 (token 1) (token 1) false cache_after_first_prompt))
    = Some 1%Z /\
  cursor (snd (decode_all 1 no_quantize no_unquantize example_op false
                 [(token 1, token 1); (token 2, token 2)] cache_after_first_prompt))
    = Some 0%Z.
Proof.
  assert (Ha : exists ak av seg idx lens,
            ar_allocated example_op cache_after_first_prompt ak av seg idx lens /\
            item idx = 0%Z).
  { do 5 eexists. split; [constructor; try (vm_compute; reflexivity); discriminate|].
    reflexivity. }
  destruct Ha as (ak & av & seg & idx & lens & Ha & Hi).
  assert (Hcap : (0 < ar_capacity example_op < 2 ^ 31)%Z) by (cbv; split; reflexivity).
  assert (Hidx : (0 <= item idx < ar_capacity example_op)%Z)
    by (rewrite Hi; cbv; split; [discriminate|reflexivity]).
  destruct (@cursor_advances_and_wraps 1 no_quantize no_unquantize example_op
              cache_after_first_prompt ak av seg idx lens Hcap Ha Hidx)
    as (Hone & Hmany & _).
  split; [unfold cursor; rewrite (alloc_index Ha); cbn [option_map]; rewrite Hi;
          reflexivity|].
  split.
  - erewrite Hone.
    + rewrite Hi. reflexivity.
    + apply surjective_pairing_inr. vm_compute. reflexivity.
  - destruct (Hmany false [(token 1, token 1); (token 2, token 2)]
                (snd (decode_all 1 no_quantize no_unquantize example_op false
                        [(token 1, token 1); (token 2, token 2)]
                        cache_after_first_prompt))) as [E _].
    + vm_compute. reflexivity.
    + rewrite E, Hi. reflexivity.
Defined.

(** A decode through the entry point does succeed on an initialised cache. *)
Example entry_point_decode_runs :
  exists res c',
    __call__ 1 no_quantize no_unquantize unused_kernel example_op
      (token 1) (token 1) (token 1) None MODEL_MODE_AUTOREGRESSIVE
      cache_after_first_prompt = (inr res, c') /\
    length_of c' 0 = Some 1%Z.
Proof. do 2 eexists. split; vm_compute; reflexivity. Qed.

(* ================================================================= *)
(** * Further properties of the attention layer *)

(** ** Cache layouts *)

Lemma revert_reshape_id (x : Tensor R) (order : list nat) (a b c d : nat) :
  axis_order_ok order = true ->
  shape x = [a; b; c; d]%nat ->
  let y := revert_kv_cache (reshape_kv_cache x order) order in
  dtype y = dtype x /\ shape y = shape x /\
  forall i j k l, at_ y [i; j; k; l]%nat = at_ x [i; j; k; l]%nat.
Proof.
  intros Ho Hx. apply axis_order_cases in Ho.
  unfold revert_kv_cache, reshape_kv_cache, moveaxis_all, transpose.
  cbn [dtype shape at_]. rewrite Hx.
  cbn in Ho.
  repeat (destruct Ho as [Ho|Ho]; [rewrite <- Ho; cbn; auto|]).
  contradiction.
Qed.

(** X1.  Storing an array in a cache layout and reading it back gives the
    array: for every rearrangement [order] of the four axes,
    [revert_kv_cache (reshape_kv_cache x order) order] has the type, the
    shape and the elements of [x]. *)
Theorem revert_after_reshape (x : Tensor R) (order : list nat) (a b c d : nat) :
  axis_order_ok order = true ->
  shape x = [a; b; c; d]%nat ->
  let y := revert_kv_cache (reshape_kv_cache x order) order in
  dtype y = dtype x /\ shape y = shape x /\
  forall i j k l, at_ y [i; j; k; l]%nat = at_ x [i; j; k; l]%nat.
Proof. intros Ho Hx. exact (@revert_reshape_id x order a b c d Ho Hx). Qed.

Lemma revert_after_reshape_witness :
  let y := revert_kv_cache (reshape_kv_cache (coords bfloat16 [2; 3; 4; 5]%nat) [1; 2; 0; 3]%nat)
             [1; 2; 0; 3]%nat in
  dtype y = dtype (coords bfloat16 [2; 3; 4; 5]%nat) /\ shape y = shape (coords bfloat16 [2; 3; 4; 5]%nat) /\
  forall i j k l, at_ y [i; j; k; l]%nat = at_ (coords bfloat16 [2; 3; 4; 5]%nat) [i; j; k; l]%nat.
Proof.
  exact (@revert_after_reshape (coords bfloat16 [2; 3; 4; 5]%nat) [1; 2; 0; 3]%nat 2 3 4 5 eq_refl eq_refl).
Defined.

(** X2.  Conversely, bringing a stored array to the logical layout and
    storing it again gives the stored array. *)
Theorem reshape_after_revert (y : Tensor R) (order : list nat) (a b c d : nat) :
  axis_order_ok order = true ->
  shape y = [a; b; c; d]%nat ->
  let z := reshape_kv_cache (revert_kv_cache y order) order in
  dtype z = dtype y /\ shape z = shape y /\
  forall i j k l, at_ z [i; j; k; l]%nat = at_ y [i; j; k; l]%nat.
Proof.
  intros Ho Hy. apply axis_order_cases in Ho.
  unfold revert_kv_cache, reshape_kv_cache, moveaxis_all, transpose.
  cbn [dtype shape at_]. rewrite Hy.
  cbn in Ho.
  repeat (destruct Ho as [Ho|Ho]; [rewrite <- Ho; cbn; auto|]).
  contradiction.
Qed.

Lemma reshape_after_revert_witness :
  let z := reshape_kv_cache (revert_kv_cache (coords bfloat16 [2; 3; 4; 5]%nat) [2; 0; 3; 1]%nat)
             [2; 0; 3; 1]%nat in
  dtype z = dtype (coords bfloat16 [2; 3; 4; 5]%nat) /\ shape z = shape (coords bfloat16 [2; 3; 4; 5]%nat) /\
  forall i j k l, at_ z [i; j; k; l]%nat = at_ (coords bfloat16 [2; 3; 4; 5]%nat) [i; j; k; l]%nat.
Proof.
  exact (@reshape_after_revert (coords bfloat16 [2; 3; 4; 5]%nat) [2; 0; 3; 1]%nat 2 3 4 5 eq_refl eq_refl).
Defined.

(** X3.  The stored array has the shape [cached_kv_shape] computes, and
    its element at a cache position is the element of the logical array
    at the position whose coordinates are rearranged by [order]: cache
    axis [m] is logical axis [order[m]]. *)
Theorem reshape_kv_cache_layout (x : Tensor R) (order : list nat) (a b c d : nat) :
  axis_order_ok order = true ->
  shape x = [a; b; c; d]%nat ->
  map Z.of_nat (shape (reshape_kv_cache x order))
    = cached_kv_shape (map Z.of_nat (shape x)) order /\
  forall i j k l,
    at_ (reshape_kv_cache x order) (map (fun m => nth m [i; j; k; l] 0) order)%nat
    = at_ x [i; j; k; l]%nat.
Proof.
  intros Ho Hx. apply axis_order_cases in Ho.
  unfold cached_kv_shape, reshape_kv_cache, moveaxis_all, transpose.
  cbn [dtype shape at_]. rewrite Hx.
  cbn in Ho.
  repeat (destruct Ho as [Ho|Ho]; [rewrite <- Ho; cbn; auto|]).
  contradiction.
Qed.

Lemma reshape_kv_cache_layout_witness :
  map Z.of_nat (shape (reshape_kv_cache (coords bfloat16 [2; 3; 4; 5]%nat) [0; 2; 1; 3]%nat))
    = cached_kv_shape (map Z.of_nat (shape (coords bfloat16 [2; 3; 4; 5]%nat))) [0; 2; 1; 3]%nat /\
  forall i j k l,
    at_ (reshape_kv_cache (coords bfloat16 [2; 3; 4; 5]%nat) [0; 2; 1; 3]%nat)
        (map (fun m => nth m [i; j; k; l] 0) [0; 2; 1; 3])%nat
    = at_ (coords bfloat16 [2; 3; 4; 5]%nat) [i; j; k; l]%nat.
Proof.
  exact (@reshape_kv_cache_layout (coords bfloat16 [2; 3; 4; 5]%nat) [0; 2; 1; 3]%nat 2 3 4 5 eq_refl eq_refl).
Defined.

(** ** Input checks *)

(** X4.  On four-dimensional arrays in the heads-first layout
    [check_attention_inputs] accepts exactly when the query and the key
    have the same number of heads and the same depth and the key and the
    value agree in heads, batch size and length.  The batch size and the
    length of the query and the depth of the value are not compared. *)
Theorem check_attention_inputs_4d (q key v : Tensor R)
    (n b t d k b' s d' k2 b2 s2 d2 : nat) :
  shape q = [n; b; t; d]%nat -> shape key = [k; b'; s; d']%nat ->
  shape v = [k2; b2; s2; d2]%nat ->
  check_attention_inputs q key v = ok tt <->
  (n = k /\ k = k2 /\ s = s2 /\ b' = b2 /\ d = d').
Proof.
  intros Hq Hk Hv. unfold check_attention_inputs, ndim, dim, list_nat_eqb.
  rewrite Hq, Hk, Hv. cbn [length Nat.sub firstn nth Nat.eqb assert_ rbind ok].
  destruct (list_eq_dec Nat.eq_dec [n] [k]) as [E1|E1];
    destruct (list_eq_dec Nat.eq_dec [k] [k2]) as [E2|E2];
    cbn [andb assert_ rbind ok];
    try (split; [discriminate|intros (-> & -> & _); congruence]).
  destruct (Nat.eqb_spec s s2) as [E3|E3]; cbn [assert_ rbind ok];
    [|split; [discriminate|tauto]].
  destruct (Nat.eqb_spec b' b2) as [E4|E4]; cbn [assert_ rbind ok];
    [|split; [discriminate|tauto]].
  destruct (Nat.eqb_spec d d') as [E5|E5]; cbn [assert_ rbind ok raise];
    [|split; [discriminate|tauto]].
  split; [intros _|reflexivity].
  injection E1 as ->. injection E2 as ->. auto.
Qed.

Lemma check_attention_inputs_4d_witness :
  check_attention_inputs (coords float32 [2; 7; 1; 5]%nat)
    (coords float32 [2; 3; 4; 5]%nat) (coords float32 [2; 3; 4; 9]%nat) = ok tt <->
  (2 = 2 /\ 2 = 2 /\ 4 = 4 /\ 3 = 3 /\ 5 = 5)%nat.
Proof.
  exact (@check_attention_inputs_4d (coords float32 [2; 7; 1; 5]%nat)
           (coords float32 [2; 3; 4; 5]%nat) (coords float32 [2; 3; 4; 9]%nat)
           2 7 1 5 2 3 4 5 2 3 4 9 eq_refl eq_refl eq_refl).
Defined.

(** X5.  Grouped-query inputs are rejected: when the query and the key
    differ in their number of heads, [apply_attention] raises the
    assertion on the leading dimensions in every mode and on either
    attention path, and a training-mode call through [__call__] raises it
    with the cache as it was. *)
Theorem grouped_heads_rejected
    (ACTIVE : Z) (quantize_kv : Tensor R -> nat -> Tensor R * Tensor R)
    (unquantize_kv : Tensor R -> Tensor R -> DType -> Tensor R)
    (kernel : Tensor R -> Tensor R -> Tensor R -> Tensor Z ->
              Tensor R * Tensor R * Tensor R)
    (self : AttentionOp) (q key v : Tensor R) (n b t d k b' s d' : nat) :
  shape q = [n; b; t; d]%nat -> shape key = [k; b'; s; d']%nat ->
  ndim v = 4%nat -> n <> k ->
  (forall segs lengths mode use_ragged,
     apply_attention ACTIVE kernel self q key v segs lengths mode use_ragged
     = raise (AssertionError "q, k, v batch dims must match.")) /\
  (shape key = shape v ->
   forall segs c,
     __call__ ACTIVE quantize_kv unquantize_kv kernel self q key v segs
       MODEL_MODE_TRAIN c
     = (raise (AssertionError "q, k, v batch dims must match."), c)).
Proof.
  intros Hq Hk Hv Hne.
  assert (Hcheck : check_attention_inputs q key v
                   = raise (AssertionError "q, k, v batch dims must match.")).
  { unfold check_attention_inputs, list_nat_eqb. rewrite Hv. unfold ndim.
    rewrite Hq, Hk. cbn [length Nat.sub firstn Nat.eqb assert_ rbind ok].
    destruct (list_eq_dec Nat.eq_dec [n] [k]) as [E|E]; [congruence|].
    reflexivity. }
  split.
  - intros segs lengths mode ur. unfold apply_attention. rewrite Hcheck.
    reflexivity.
  - intros Hs segs c. unfold __call__, kv_cache, list_nat_eqb.
    destruct (list_eq_dec Nat.eq_dec (shape key) (shape v)); [|contradiction].
    cbn [negb]. unfold bind at 1. unfold ret at 1. unfold ok at 1.
    cbv beta iota.
    unfold bind at 1. unfold lift at 1. unfold apply_attention at 1.
    rewrite Hcheck. reflexivity.
Qed.

Lemma grouped_heads_rejected_witness :
  (forall segs lengths mode use_ragged,
     apply_attention 1 unused_kernel example_op (coords float32 [4; 1; 3; 5]%nat)
       (coords float32 [2; 1; 3; 5]%nat) (coords float32 [2; 1; 3; 5]%nat)
       segs lengths mode use_ragged
     = raise (AssertionError "q, k, v batch dims must match.")) /\
  (shape (coords float32 [2; 1; 3; 5]%nat) = shape (coords float32 [2; 1; 3; 5]%nat) ->
   forall segs c,
     __call__ 1 no_quantize no_unquantize unused_kernel example_op
       (coords float32 [4; 1; 3; 5]%nat) (coords float32 [2; 1; 3; 5]%nat)
       (coords float32 [2; 1; 3; 5]%nat) segs MODEL_MODE_TRAIN c
     = (raise (AssertionError "q, k, v batch dims must match."), c)).
Proof.
  apply (@grouped_heads_rejected 1 no_quantize no_unquantize unused_kernel
           example_op (coords float32 [4; 1; 3; 5]%nat)
           (coords float32 [2; 1; 3; 5]%nat) (coords float32 [2; 1; 3; 5]%nat)
           4 1 3 5 2 1 3 5 eq_refl eq_refl eq_refl).
  discriminate.
Defined.

(** X6.  [compute_axis_order] is validated and not otherwise used by the
    dot-product path: an order other than (0,1,2,3) and (0,2,1,3) makes
    [apply_attention_dot] raise [ValueError] whatever the inputs, and the
    two supported orders give the same result. *)
Theorem compute_axis_order_only_validated
    (ACTIVE : Z) (self : AttentionOp) (q key v : Tensor R)
    (segs : option (Tensor Z)) (mode : Mode) :
  (validate_compute_axis_order (compute_axis_order self) <> ok tt ->
   exists message,
     apply_attention_dot ACTIVE self q key v segs mode
     = raise (ValueError message)) /\
  (forall order,
     validate_compute_axis_order (compute_axis_order self) = ok tt ->
     validate_compute_axis_order order = ok tt ->
     apply_attention_dot ACTIVE (with_compute_axis_order self order) q key v segs mode
     = apply_attention_dot ACTIVE self q key v segs mode).
Proof.
  split.
  - intros Hbad. unfold apply_attention_dot.
    unfold validate_compute_axis_order in *.
    destruct (_ || _); [congruence|eexists; reflexivity].
  - intros order Hv Ho. unfold apply_attention_dot.
    cbn [compute_axis_order with_compute_axis_order]. rewrite Hv, Ho.
    reflexivity.
Qed.

(** ** Merging local attention results *)

(** X7.  Merging a single chunk is plain normalisation: the result of
    [normalize_attention] on one triple is its output divided by its sum
    of exponentials, which is what [__call__] returns when there is no
    autoregressive part. *)
Theorem normalize_attention_single (o m s : Tensor R) (a b c d : nat) :
  shape o = [a; b; c; d]%nat -> shape m = [a; b; c; 1]%nat ->
  shape s = [a; b; c; 1]%nat ->
  exists merged,
    normalize_attention [o] [m] [s] = ok merged /\
    shape merged = shape (tdiv o s) /\
    forall ix, in_bounds ix (shape merged) -> at_ merged ix = at_ (tdiv o s) ix.
Proof.
  intros Ho Hm Hs.
  unfold normalize_attention, reduce, py_sum, zip.
  cbn [rbind ok fold_left map combine].
  eexists. split; [reflexivity|].
  destruct (arith2_same Rminus m m Hm Hm) as [Sd Ad].
  assert (Se : shape (texp (tsub m m)) = [a; b; c; 1]%nat) by exact Sd.
  set (e := texp (tsub m m)) in *.
  destruct (arith2_same Rmult e s Se Hs) as [St At].
  destruct (arith2_scalar_l Rplus 0%R (tmul e s)) as [Sg Ag].
  rewrite St in Sg, Ag.
  set (gsum := tadd (scalar 0%R) (tmul e s)) in *.
  destruct (arith2_same Rdiv e gsum Se Sg) as [Sn An].
  destruct (arith2_stat_l Rmult (tdiv e gsum) o Sn Ho) as [Sp Ap].
  destruct (arith2_scalar_l Rplus 0%R (tmul (tdiv e gsum) o)) as [Sa Aa].
  rewrite Sp in Sa, Aa.
  destruct (arith2_stat_r Rdiv o s Ho Hs) as [Sdiv Adiv].
  split; [congruence|].
  intros ix Hix. rewrite Sa in Hix.
  destruct (in_bounds4 _ _ _ _ _ Hix) as (i & j & k & l & -> & Hi & Hj & Hk & Hl).
  assert (Bstat : in_bounds [i; j; k; 0]%nat [a; b; c; 1]%nat)
    by (simpl; intuition lia).
  rewrite Aa, Ap, Adiv by assumption.
  rewrite An by assumption. unfold gsum. rewrite Ag, At by assumption.
  unfold e. rewrite !(proj2 (texp_spec _)). rewrite Ad by assumption.
  rewrite Rminus_diag, exp_0. unfold Rdiv.
  replace (0 + 1 * at_ s [i; j; k; 0%nat])%R with (at_ s [i; j; k; 0%nat]) by ring.
  ring.
Qed.

Lemma normalize_attention_single_witness :
  exists merged,
    normalize_attention [coords float32 [2; 3; 4; 5]%nat]
      [coords float32 [2; 3; 4; 1]%nat] [coords float32 [2; 3; 4; 1]%nat] = ok merged /\
    shape merged = shape (tdiv (coords float32 [2; 3; 4; 5]%nat)
                               (coords float32 [2; 3; 4; 1]%nat)) /\
    forall ix, in_bounds ix (shape merged) ->
      at_ merged ix = at_ (tdiv (coords float32 [2; 3; 4; 5]%nat)
                                (coords float32 [2; 3; 4; 1]%nat)) ix.
Proof.
  exact (@normalize_attention_single (coords float32 [2; 3; 4; 5]%nat)
           (coords float32 [2; 3; 4; 1]%nat) (coords float32 [2; 3; 4; 1]%nat)
           2 3 4 5 eq_refl eq_refl eq_refl).
Defined.

Lemma merged_row_swap (O1 O2 M1 M2 S1 S2 : R) :
  merged_row O1 O2 M1 M2 S1 S2 = merged_row O2 O1 M2 M1 S2 S1.
Proof.
  unfold merged_row. rewrite (Rmax_comm M2 M1). unfold Rdiv.
  replace (0 + exp (M2 - Rmax M1 M2) * S2 + exp (M1 - Rmax M1 M2) * S1)%R
    with (0 + exp (M1 - Rmax M1 M2) * S1 + exp (M2 - Rmax M1 M2) * S2)%R by ring.
  ring.
Qed.

(** X8.  The merge does not depend on the order of the chunks: swapping
    the prefill and the autoregressive triple gives the same array. *)
Theorem normalize_attention_order_independent
    (o1 o2 m1 m2 s1 s2 : Tensor R) (a b c d : nat) :
  shape o1 = [a; b; c; d]%nat -> shape o2 = [a; b; c; d]%nat ->
  shape m1 = [a; b; c; 1]%nat -> shape m2 = [a; b; c; 1]%nat ->
  shape s1 = [a; b; c; 1]%nat -> shape s2 = [a; b; c; 1]%nat ->
  exists r r',
    normalize_attention [o1; o2] [m1; m2] [s1; s2] = ok r /\
    normalize_attention [o2; o1] [m2; m1] [s2; s1] = ok r' /\
    shape r = shape r' /\
    forall ix, in_bounds ix (shape r) -> at_ r ix = at_ r' ix.
Proof.
  intros Ho1 Ho2 Hm1 Hm2 Hs1 Hs2.
  destruct (normalize_attention_two o1 o2 m1 m2 s1 s2 Ho1 Ho2 Hm1 Hm2 Hs1 Hs2)
    as (r & Hr & Sr & Ar).
  destruct (normalize_attention_two o2 o1 m2 m1 s2 s1 Ho2 Ho1 Hm2 Hm1 Hs2 Hs1)
    as (r' & Hr' & Sr' & Ar').
  exists r, r'. split; [exact Hr|]. split; [exact Hr'|]. split; [congruence|].
  intros ix Hix. rewrite Sr in Hix.
  destruct (in_bounds4 _ _ _ _ _ Hix) as (i & j & k & l & -> & Hi & Hj & Hk & Hl).
  rewrite Ar, Ar' by assumption. apply merged_row_swap.
Qed.

Lemma normalize_attention_order_witness :
  exists r r',
    normalize_attention
      [coords float32 [2; 3; 4; 5]%nat; zeros 1%R float32 [2; 3; 4; 5]%nat]
      [coords float32 [2; 3; 4; 1]%nat; zeros 0%R float32 [2; 3; 4; 1]%nat]
      [zeros 1%R float32 [2; 3; 4; 1]%nat; zeros 2%R float32 [2; 3; 4; 1]%nat] = ok r /\
    normalize_attention
      [zeros 1%R float32 [2; 3; 4; 5]%nat; coords float32 [2; 3; 4; 5]%nat]
      [zeros 0%R float32 [2; 3; 4; 1]%nat; coords float32 [2; 3; 4; 1]%nat]
      [zeros 2%R float32 [2; 3; 4; 1]%nat; zeros 1%R float32 [2; 3; 4; 1]%nat] = ok r' /\
    shape r = shape r' /\
    forall ix, in_bounds ix (shape r) -> at_ r ix = at_ r' ix.
Proof.
  exact (@normalize_attention_order_independent
           (coords float32 [2; 3; 4; 5]%nat) (zeros 1%R float32 [2; 3; 4; 5]%nat)
           (coords float32 [2; 3; 4; 1]%nat) (zeros 0%R float32 [2; 3; 4; 1]%nat)
           (zeros 1%R float32 [2; 3; 4; 1]%nat) (zeros 2%R float32 [2; 3; 4; 1]%nat)
           2 3 4 5 eq_refl eq_refl eq_refl eq_refl eq_refl eq_refl).
Defined.

(** ** Local attention statistics *)

Lemma Rmax_upto_ge (f : nat -> R) (n j : nat) :
  (j <= n)%nat -> (f j <= Rmax_upto f n)%R.
Proof.
  induction n as [|n IH]; intros Hj; cbn [Rmax_upto].
  - replace j with 0%nat by lia. lra.
  - destruct (Nat.eq_dec j (S n)) as [->|Hne]; [apply Rmax_r|].
    apply Rle_trans with (Rmax_upto f n); [apply IH; lia|apply Rmax_l].
Qed.

Lemma Rmax_upto_attained (f : nat -> R) (n : nat) :
  exists j, (j <= n)%nat /\ Rmax_upto f n = f j.
Proof.
  induction n as [|n (j & Hj & E)]; cbn [Rmax_upto].
  - exists 0%nat. split; [lia|reflexivity].
  - destruct (Rle_dec (Rmax_upto f n) (f (S n))) as [Hle|Hgt].
    + exists (S n). split; [lia|]. apply Rmax_right. exact Hle.
    + exists j. split; [lia|]. rewrite Rmax_left by lra. exact E.
Qed.

Lemma Rmax_upto_shift (f : nat -> R) (c : R) (n : nat) :
  Rmax_upto (fun s => f s + c)%R n = (Rmax_upto f n + c)%R.
Proof.
  induction n as [|n IH]; cbn [Rmax_upto]; [reflexivity|].
  rewrite IH. unfold Rmax.
  destruct (Rle_dec (Rmax_upto f n + c) (f (S n) + c));
    destruct (Rle_dec (Rmax_upto f n) (f (S n))); lra.
Qed.

Lemma Rsum_n_le (f g : nat -> R) (n : nat) :
  (forall s, (s < n)%nat -> (f s <= g s)%R) -> (Rsum_n f n <= Rsum_n g n)%R.
Proof.
  induction n as [|n IH]; intros H; cbn [Rsum_n]; [lra|].
  specialize (H n (Nat.lt_succ_diag_r n)) as Hn.
  assert (Rsum_n f n <= Rsum_n g n)%R by (apply IH; intros s Hs; apply H; lia).
  lra.
Qed.

Lemma Rsum_n_ge_term (f : nat -> R) (n j : nat) :
  (forall s, (0 <= f s)%R) -> (j < n)%nat -> (f j <= Rsum_n f n)%R.
Proof.
  intros Hpos. induction n as [|n IH]; intros Hj; [lia|]. cbn [Rsum_n].
  assert (H0 : (0 <= Rsum_n f n)%R).
  { clear IH Hj. induction n as [|n IH]; cbn [Rsum_n]; [lra|].
    specialize (Hpos n). lra. }
  destruct (Nat.eq_dec j n) as [->|Hne]; [lra|].
  specialize (IH ltac:(lia)). specialize (Hpos n). lra.
Qed.

Section LocalStatistics.

Variable self : AttentionOp.

(** X9.  On non-empty rows the statistics [compute_local_attention]
    returns are safe to divide by: the row maximum bounds every score of
    its row and is one of them, and the sum of exponentials is at least 1
    (the maximal score contributes [exp 0]). *)
Theorem local_sum_at_least_one (w v : Tensor R) (K B T S D : nat)
    (q_seq_len : nat) (model_mode : Mode) :
  shape w = [K; B; 1; T; S]%nat -> shape v = [K; B; S; D]%nat -> (0 < S)%nat ->
  let '(o, m, s) := compute_local_attention self w v q_seq_len model_mode in
  forall k b t, (k < K)%nat -> (b < B)%nat -> (t < T)%nat ->
    (forall j, (j < S)%nat -> (at_ w [k; b; 0; t; j]%nat <= at_ m [k; b; t; 0]%nat)%R) /\
    (exists j, (j < S)%nat /\ at_ m [k; b; t; 0]%nat = at_ w [k; b; 0; t; j]%nat) /\
    (1 <= at_ s [k; b; t; 0]%nat)%R.
Proof.
  intros Hw Hv HS.
  pose proof (compute_local_attention_spec self w v q_seq_len model_mode Hw Hv) as C.
  cbv zeta in C.
  destruct (compute_local_attention self w v q_seq_len model_mode) as [[o m] s].
  destruct C as (_ & _ & _ & R). intros k b t Hk Hb Ht.
  destruct (R k b t Hk Hb Ht) as (Em & Es & _). rewrite Em, Es.
  unfold row_sum, row_max, dim. rewrite Hw. cbn [nth].
  set (f := fun s0 => at_ w [k; b; 0; t; s0]%nat).
  split; [|split].
  - intros j Hj. apply (Rmax_upto_ge f). lia.
  - destruct (Rmax_upto_attained f (S - 1)) as (j & Hj & E).
    exists j. split; [lia|exact E].
  - destruct (Rmax_upto_attained f (S - 1)) as (j & Hj & E).
    apply Rle_trans with (exp (f j - Rmax_upto f (S - 1))).
    + rewrite E, Rminus_diag, exp_0. lra.
    + apply (Rsum_n_ge_term (fun s0 => exp (f s0 - Rmax_upto f (S - 1)))).
      * intros s0. left. apply exp_pos.
      * lia.
Qed.

End LocalStatistics.

Lemma local_sum_at_least_one_witness :
  let '(o, m, s) :=
    compute_local_attention example_op (coords float32 [2; 3; 1; 4; 5]%nat)
      (coords float32 [2; 3; 5; 6]%nat) 4 MODEL_MODE_PREFILL in
  forall k b t, (k < 2)%nat -> (b < 3)%nat -> (t < 4)%nat ->
    (forall j, (j < 5)%nat ->
       (at_ (coords float32 [2; 3; 1; 4; 5]%nat) [k; b; 0; t; j]%nat
        <= at_ m [k; b; t; 0]%nat)%R) /\
    (exists j, (j < 5)%nat /\
       at_ m [k; b; t; 0]%nat
       = at_ (coords float32 [2; 3; 1; 4; 5]%nat) [k; b; 0; t; j]%nat) /\
    (1 <= at_ s [k; b; t; 0]%nat)%R.
Proof.
  exact (@local_sum_at_least_one example_op (coords float32 [2; 3; 1; 4; 5]%nat)
           (coords float32 [2; 3; 5; 6]%nat) 2 3 4 5 6 4 MODEL_MODE_PREFILL
           eq_refl eq_refl (Nat.lt_0_succ 4)).
Defined.

Section LocalOutput.

Variable self : AttentionOp.

(** X10.  The normalised output is a weighted mean of the values: at
    every position it lies between any two bounds that hold for the
    values of its row. *)
Theorem normalised_output_within_values (w v : Tensor R) (K B T S D : nat)
    (q_seq_len : nat) (model_mode : Mode) (lo hi : R) (k b t d : nat) :
  shape w = [K; B; 1; T; S]%nat -> shape v = [K; B; S; D]%nat -> (0 < S)%nat ->
  (k < K)%nat -> (b < B)%nat -> (t < T)%nat -> (d < D)%nat ->
  (b < (if reshape_q self && (q_seq_len =? 1)%nat then Nat.min 1 B else B))%nat ->
  (forall j, (j < S)%nat -> (lo <= at_ v [k; b; j; d]%nat <= hi)%R) ->
  let '(o, m, s) := compute_local_attention self w v q_seq_len model_mode in
  (lo <= at_ (tdiv o s) [k; b; t; d]%nat <= hi)%R.
Proof.
  intros Hw Hv HS Hk Hb Ht Hd Hb' Hval.
  pose proof (compute_local_attention_spec self w v q_seq_len model_mode Hw Hv) as C.
  cbv zeta in C.
  destruct (compute_local_attention self w v q_seq_len model_mode) as [[o m] s].
  destruct C as (So & _ & Ss & R).
  destruct (arith2_stat_r Rdiv o s So Ss) as [_ Adiv].
  rewrite Adiv by assumption.
  destruct (R k b t Hk Hb Ht) as (_ & Es & Eo). rewrite Es, (Eo d Hd).
  unfold row_out, row_sum, row_max, dim. rewrite Hw. cbn [nth].
  set (M := Rmax_upto (fun s0 => at_ w [k; b; 0; t; s0]%nat) (S - 1)).
  set (e := fun s0 => exp (at_ w [k; b; 0; t; s0]%nat - M)).
  change (lo <= Rsum_n (fun s0 => e s0 * at_ v [k; b; s0; d]%nat)%R S
                / Rsum_n e S <= hi)%R.
  assert (Hpos : (0 < Rsum_n e S)%R)
    by (apply Rsum_n_pos; [exact HS|intros i; apply exp_pos]).
  assert (Hlo : (lo * Rsum_n e S
                 <= Rsum_n (fun s0 => e s0 * at_ v [k; b; s0; d]%nat)%R S)%R).
  { rewrite Rsum_n_scal. apply Rsum_n_le. intros j Hj.
    destruct (Hval j Hj) as [L _]. pose proof (exp_pos (at_ w [k; b; 0; t; j]%nat - M)).
    unfold e. nra. }
  assert (Hhi : (Rsum_n (fun s0 => e s0 * at_ v [k; b; s0; d]%nat)%R S
                 <= hi * Rsum_n e S)%R).
  { rewrite Rsum_n_scal. apply Rsum_n_le. intros j Hj.
    destruct (Hval j Hj) as [_ U]. pose proof (exp_pos (at_ w [k; b; 0; t; j]%nat - M)).
    unfold e. nra. }
  split.
  - apply Rmult_le_reg_r with (Rsum_n e S); [exact Hpos|].
    unfold Rdiv. rewrite Rmult_assoc, Rinv_l by lra. lra.
  - apply Rmult_le_reg_r with (Rsum_n e S); [exact Hpos|].
    unfold Rdiv. rewrite Rmult_assoc, Rinv_l by lra. lra.
Qed.

(** X11.  Adding a constant to every score of a row changes only the
    maximum returned for that row: the sum of exponentials and the
    unnormalised output of the row stay the same. *)
Theorem local_attention_shift_invariant (w w' v : Tensor R) (K B T S D : nat)
    (q_seq_len : nat) (model_mode : Mode) (c : R) (k b t : nat) :
  shape w = [K; B; 1; T; S]%nat -> shape w' = [K; B; 1; T; S]%nat ->
  shape v = [K; B; S; D]%nat -> (0 < S)%nat ->
  (k < K)%nat -> (b < B)%nat -> (t < T)%nat ->
  (forall j, (j < S)%nat ->
     at_ w' [k; b; 0; t; j]%nat = (at_ w [k; b; 0; t; j]%nat + c)%R) ->
  let '(o, m, s) := compute_local_attention self w v q_seq_len model_mode in
  let '(o', m', s') := compute_local_attention self w' v q_seq_len model_mode in
  at_ m' [k; b; t; 0]%nat = (at_ m [k; b; t; 0]%nat + c)%R /\
  at_ s' [k; b; t; 0]%nat = at_ s [k; b; t; 0]%nat /\
  forall d, (d < D)%nat -> at_ o' [k; b; t; d]%nat = at_ o [k; b; t; d]%nat.
Proof.
  intros Hw Hw' Hv HS Hk Hb Ht Hshift.
  pose proof (compute_local_attention_spec self w v q_seq_len model_mode Hw Hv) as C.
  pose proof (compute_local_attention_spec self w' v q_seq_len model_mode Hw' Hv) as C'.
  cbv zeta in C, C'.
  destruct (compute_local_attention self w v q_seq_len model_mode) as [[o m] s].
  destruct (compute_local_attention self w' v q_seq_len model_mode) as [[o' m'] s'].
  destruct C as (_ & _ & _ & R). destruct C' as (_ & _ & _ & R').
  destruct (R k b t Hk Hb Ht) as (Em & Es & Eo).
  destruct (R' k b t Hk Hb Ht) as (Em' & Es' & Eo').
  assert (EM : row_max w' k b t = (row_max w k b t + c)%R).
  { unfold row_max, dim. rewrite Hw, Hw'. cbn [nth].
    rewrite <- Rmax_upto_shift. apply Rmax_upto_ext. intros j Hj.
    apply Hshift. lia. }
  assert (Ee : forall j, (j < S)%nat ->
            exp (at_ w' [k; b; 0; t; j]%nat - row_max w' k b t)
            = exp (at_ w [k; b; 0; t; j]%nat - row_max w k b t)).
  { intros j Hj. rewrite EM, (Hshift j Hj). f_equal. ring. }
  split; [rewrite Em, Em'; exact EM|]. split.
  - rewrite Es, Es'. unfold row_sum, dim. rewrite Hw, Hw'. cbn [nth].
    apply Rsum_n_ext. exact Ee.
  - intros d Hd. rewrite (Eo d Hd), (Eo' d Hd). unfold row_out, dim.
    rewrite Hw, Hw'. cbn [nth]. apply Rsum_n_ext. intros j Hj.
    rewrite (Ee j Hj). reflexivity.
Qed.

End LocalOutput.

Lemma normalised_output_within_values_witness :
  let '(o, m, s) :=
    compute_local_attention example_op (coords float32 [1; 1; 1; 3; 2]%nat)
      (value_at_1 1) 3 MODEL_MODE_PREFILL in
  (0 <= at_ (tdiv o s) [0; 0; 1; 0]%nat <= 1)%R.
Proof.
  apply (@normalised_output_within_values example_op
           (coords float32 [1; 1; 1; 3; 2]%nat) (value_at_1 1) 1 1 3 2 1 3
           MODEL_MODE_PREFILL 0 1 0 0 1 0 eq_refl eq_refl);
    try (cbn; lia).
  intros j Hj. destruct j as [|[|j]]; cbn; [lra|lra|lia].
Defined.

Lemma local_attention_shift_witness :
  let '(o, m, s) :=
    compute_local_attention example_op (coords float32 [1; 1; 1; 3; 2]%nat)
      (value_at_1 1) 3 MODEL_MODE_PREFILL in
  let '(o', m', s') :=
    compute_local_attention example_op
      (map_tensor (fun x => x + 7)%R (coords float32 [1; 1; 1; 3; 2]%nat))
      (value_at_1 1) 3 MODEL_MODE_PREFILL in
  at_ m' [0; 0; 1; 0]%nat = (at_ m [0; 0; 1; 0]%nat + 7)%R /\
  at_ s' [0; 0; 1; 0]%nat = at_ s [0; 0; 1; 0]%nat /\
  forall d, (d < 1)%nat -> at_ o' [0; 0; 1; d]%nat = at_ o [0; 0; 1; d]%nat.
Proof.
  apply (@local_attention_shift_invariant example_op
           (coords float32 [1; 1; 1; 3; 2]%nat)
           (map_tensor (fun x => x + 7)%R (coords float32 [1; 1; 1; 3; 2]%nat))
           (value_at_1 1) 1 1 3 2 1 3 MODEL_MODE_PREFILL 7 0 0 1
           eq_refl eq_refl eq_refl); try (cbn; lia).
  intros j Hj. reflexivity.
Defined.

(** ** Calls that are rejected, and calls that leave the cache alone *)

Lemma DType_eqb_false (a b : DType) : a <> b -> DType_eqb a b = false.
Proof. destruct a, b; intros H; try reflexivity; congruence. Qed.

Section Rejections.

Variable ACTIVE : Z.
Variable quantize_kv : Tensor R -> nat -> Tensor R * Tensor R.
Variable unquantize_kv : Tensor R -> Tensor R -> DType -> Tensor R.
Variable kernel : Tensor R -> Tensor R -> Tensor R -> Tensor Z ->
                  Tensor R * Tensor R * Tensor R.
Variable self : AttentionOp.

(** X12.  [__call__] compares the shapes of the key and the value before
    it looks at the mode: when they differ it raises [ValueError] in every
    mode, also in training mode, and when they agree an unsupported mode
    raises [ValueError]; in both cases the cache is as it was. *)
Theorem call_rejects_without_writing (query key value : Tensor R)
    (segs : option (Tensor Z)) (c : Cache) :
  (shape key <> shape value ->
   exists message, forall mode,
     __call__ ACTIVE quantize_kv unquantize_kv kernel self query key value segs mode c
     = (raise (ValueError message), c)) /\
  (shape key = shape value ->
   exists message, forall name,
     __call__ ACTIVE quantize_kv unquantize_kv kernel self query key value segs
       (MODEL_MODE_OTHER name) c
     = (raise (ValueError message), c)).
Proof.
  split.
  - intros Hne. eexists. intros mode. unfold __call__, kv_cache, list_nat_eqb.
    destruct (list_eq_dec Nat.eq_dec (shape key) (shape value)); [contradiction|].
    reflexivity.
  - intros He. eexists. intros name. unfold __call__, kv_cache, list_nat_eqb.
    destruct (list_eq_dec Nat.eq_dec (shape key) (shape value)); [|contradiction].
    reflexivity.
Qed.

(** X13.  A prefill whose key is not four-dimensional raises [ValueError],
    and one whose key and value differ in element type raises
    [AssertionError]; both happen before any cache variable is created or
    written. *)
Theorem prefill_rejects_before_mutating (key value : Tensor R)
    (segs : option (Tensor Z)) (c : Cache) :
  (length (shape key) <> 4%nat ->
   exists message,
     kv_cache_prefill quantize_kv self key value segs c
     = (raise (ValueError message), c)) /\
  (length (shape key) = 4%nat -> dtype key <> dtype value ->
   kv_cache_prefill quantize_kv self key value segs c
   = (raise (AssertionError "Key and Value Dtypes should match."), c)).
Proof.
  unfold kv_cache_prefill. split.
  - intros Hl.
    destruct (shape key) as [|h [|b [|s [|kv [|]]]]];
      try (eexists; reflexivity).
    cbn in Hl. congruence.
  - intros Hl Hd.
    destruct (shape key) as [|h [|b [|s [|kv [|]]]]]; try discriminate Hl.
    unfold massert, lift, assert_, bind. rewrite (DType_eqb_false Hd).
    reflexivity.
Qed.

(** X14.  A prefill on a cache that already has its autoregressive cursor
    does not reset the decode region: every autoregressive variable (the
    stored keys and values, their scales, the segment ids, the cursor and
    the length counters) is left as it was. *)
Theorem prefill_keeps_decode_region (key value : Tensor R)
    (segs : option (Tensor Z)) (c c' : Cache) out :
  defined c cache_ar_index = true ->
  kv_cache_prefill quantize_kv self key value segs c = (inr out, c') ->
  forall n, is_ar_var n = true ->
    float_vars c' n = float_vars c n /\ int_vars c' n = int_vars c n.
Proof.
  intros Hd H n Hn.
  destruct (prefill_effect _ _ _ _ _ _ H)
    as (tk & tv & _ & _ & _ & _ & _ & _ & c2 & E1 & E2 & _).
  destruct (E1 n Hn) as [F I]. destruct (E2 Hd n Hn) as [F' I'].
  split; congruence.
Qed.

End Rejections.

Lemma prefill_keeps_decode_region_witness :
  defined cache_after_two_decodes cache_ar_index = true /\
  forall n, is_ar_var n = true ->
    float_vars (snd (kv_cache_prefill no_quantize example_op (prompt 2) (prompt 2)
                       None cache_after_two_decodes)) n
    = float_vars cache_after_two_decodes n /\
    int_vars (snd (kv_cache_prefill no_quantize example_op (prompt 2) (prompt 2)
                     None cache_after_two_decodes)) n
    = int_vars cache_after_two_decodes n.
Proof.
  split; [vm_compute; reflexivity|].
  apply (@prefill_keeps_decode_region no_quantize example_op (prompt 2) (prompt 2)
           None cache_after_two_decodes _ (prompt 2, prompt 2, None)).
  - vm_compute. reflexivity.
  - vm_compute. reflexivity.
Defined.

(** ** The decode region after the first prefill *)

Lemma jnp_zeros_spec {A} (zero : A) (sh : list Z) (d : DType) (z : Tensor A) :
  jnp_zeros zero sh d = inr z ->
  map Z.of_nat (shape z) = sh /\ dtype z = d /\ forall ix, at_ z ix = zero.
Proof.
  unfold jnp_zeros. destruct (forallb _ sh) eqn:F; [|discriminate].
  intros [= <-]. cbn [zeros shape dtype at_]. split; [|split; reflexivity].
  rewrite forallb_forall in F. rewrite map_map.
  rewrite <- (map_id sh) at 2. apply map_ext_in. intros a Ha.
  specialize (F a Ha). apply Z.leb_le in F. lia.
Qed.

Section FreshRegion.

Variable quantize_kv : Tensor R -> nat -> Tensor R * Tensor R.
Variable self : AttentionOp.

Lemma get_ar_cache_fresh_arrays (batch heads kv : nat) (q : bool) (c c' : Cache) r :
  (forall n, is_ar_var n = true -> float_vars c n = None /\ int_vars c n = None) ->
  _get_ar_cache self batch heads kv q c = (inr r, c') ->
  exists ak av seg idx lens,
    ar_allocated self c' ak av seg idx lens /\
    map Z.of_nat (shape ak)
      = cached_kv_shape [Z.of_nat heads; Z.of_nat batch; ar_capacity self; Z.of_nat kv]
          (ar_cache_axis_order self) /\
    map Z.of_nat (shape av)
      = cached_kv_shape [Z.of_nat heads; Z.of_nat batch; ar_capacity self; Z.of_nat kv]
          (ar_cache_axis_order self) /\
    dtype ak = cache_dtype q /\ dtype av = cache_dtype q /\
    (forall ix, at_ ak ix = 0%R) /\ (forall ix, at_ av ix = 0%R) /\
    map Z.of_nat (shape seg) = [Z.of_nat batch; ar_capacity self] /\
    (forall ix, at_ seg ix = 0%Z) /\
    shape lens = [batch] /\ (forall ix, at_ lens ix = 0%Z) /\
    shape idx = [1%nat] /\ (forall ix, at_ idx ix = 0%Z).
Proof.
  intros Hnone H.
  unfold _get_ar_cache, bind, assign_float, ret, float_variable, int_variable in H.
  rewrite (proj1 (Hnone cached_ar_key eq_refl)) in H.
  destruct (jnp_zeros 0%R _ _) as [e|ak] eqn:Zk; [discriminate|]. csimp in H.
  rewrite (proj1 (Hnone cached_ar_value eq_refl)) in H. csimp in H.
  rewrite (proj2 (Hnone cache_ar_lengths eq_refl)) in H.
  destruct (jnp_zeros 0%Z [_] _) as [e|lens] eqn:Zl; [discriminate|]. csimp in H.
  rewrite (proj2 (Hnone cache_ar_segment_id eq_refl)) in H.
  destruct (jnp_zeros 0%Z [_; _] _) as [e|seg] eqn:Zs; [discriminate|]. csimp in H.
  destruct (jnp_zeros_spec _ _ _ Zk) as (Sk & Dk & Ak).
  destruct (jnp_zeros_spec _ _ _ Zl) as (Sl & _ & Al).
  destruct (jnp_zeros_spec _ _ _ Zs) as (Ss & _ & As).
  cbn [nth] in Sl, Ss.
  assert (Sl' : shape lens = [batch]).
  { destruct (shape lens) as [|x [|y l]]; try discriminate Sl.
    injection Sl as E. apply Nat2Z.inj in E. congruence. }
  destruct (quantize_kvcache self) eqn:Q; csimp in H.
  - rewrite (proj1 (Hnone cached_ar_key_scale eq_refl)) in H.
    destruct (jnp_zeros 0%R _ bfloat16) as [e|ks] eqn:Zks; [discriminate|].
    csimp in H.
    rewrite (proj1 (Hnone cached_ar_value_scale eq_refl)) in H. csimp in H.
    rewrite (proj2 (Hnone cache_ar_index eq_refl)) in H.
    destruct (jnp_zeros 0%Z [1%Z] _) as [e|idx] eqn:Zi; [discriminate|]. csimp in H.
    destruct (jnp_zeros_spec _ _ _ Zi) as (Si & _ & Ai).
    assert (Si' : shape idx = [1%nat]).
    { destruct (shape idx) as [|x [|y l]]; try discriminate Si.
      injection Si as E. f_equal. lia. }
    injection H as <- <-.
    exists ak, ak, seg, idx, lens. csimp.
    split; [constructor; csimp; try reflexivity;
            intros _; split; eexists; reflexivity|].
    repeat (split; [first [reflexivity|assumption]|]). assumption.
  - rewrite (proj2 (Hnone cache_ar_index eq_refl)) in H.
    destruct (jnp_zeros 0%Z [1%Z] _) as [e|idx] eqn:Zi; [discriminate|]. csimp in H.
    destruct (jnp_zeros_spec _ _ _ Zi) as (Si & _ & Ai).
    assert (Si' : shape idx = [1%nat]).
    { destruct (shape idx) as [|x [|y l]]; try discriminate Si.
      injection Si as E. f_equal. lia. }
    injection H as <- <-.
    exists ak, ak, seg, idx, lens. csimp.
    split; [constructor; csimp; try reflexivity; congruence|].
    repeat (split; [first [reflexivity|assumption]|]). assumption.
Qed.

(** X15.  The first prefill creates the decode region empty: the key and
    value arrays have the configured cache shape and hold zeros, no
    segment-id slot is marked, and the cursor and every length counter
    are 0. *)
Theorem first_prefill_creates_empty_region (key value : Tensor R)
    (segs : option (Tensor Z)) (c c' : Cache) out (heads batch sequence kv : nat) :
  (forall n, is_ar_var n = true -> float_vars c n = None /\ int_vars c n = None) ->
  shape key = [heads; batch; sequence; kv]%nat ->
  kv_cache_prefill quantize_kv self key value segs c = (inr out, c') ->
  exists ak av seg idx lens,
    ar_allocated self c' ak av seg idx lens /\
    map Z.of_nat (shape ak)
      = cached_kv_shape [Z.of_nat heads; Z.of_nat batch; ar_capacity self; Z.of_nat kv]
          (ar_cache_axis_order self) /\
    map Z.of_nat (shape av)
      = cached_kv_shape [Z.of_nat heads; Z.of_nat batch; ar_capacity self; Z.of_nat kv]
          (ar_cache_axis_order self) /\
    dtype ak = cache_dtype (quantize_kvcache self) /\
    dtype av = cache_dtype (quantize_kvcache self) /\
    (forall ix, at_ ak ix = 0%R) /\ (forall ix, at_ av ix = 0%R) /\
    map Z.of_nat (shape seg) = [Z.of_nat batch; ar_capacity self] /\
    (forall ix, at_ seg ix = 0%Z) /\
    shape lens = [batch] /\ (forall ix, at_ lens ix = 0%Z) /\
    shape idx = [1%nat] /\ (forall ix, at_ idx ix = 0%Z).
Proof.
  intros Hnone Hk H.
  destruct (prefill_effect _ _ _ _ _ _ H)
    as (tk & tv & _ & _ & _ & _ & _ & _ & c2 & E1 & _ & E3).
  assert (Hd : defined c cache_ar_index = false).
  { unfold defined. cbn [is_int_var].
    rewrite (proj2 (Hnone cache_ar_index eq_refl)). reflexivity. }
  destruct (E3 Hd) as (batch0 & heads0 & kv0 & r & c1 & F1 & Hget & Hb & Hh & Hkv).
  rewrite Hk in Hb, Hh, Hkv. cbn [nth] in Hb, Hh, Hkv. subst batch0 heads0 kv0.
  assert (Hnone1 : forall n, is_ar_var n = true ->
            float_vars c1 n = None /\ int_vars c1 n = None).
  { intros n Hn. destruct (F1 n Hn) as [F I]. destruct (Hnone n Hn) as [F' I'].
    split; congruence. }
  destruct (@get_ar_cache_fresh_arrays batch heads kv _ c1 c2 r Hnone1 Hget)
    as (ak & av & seg & idx & lens & Ha & Rest).
  exists ak, av, seg, idx, lens. split; [|exact Rest].
  apply (ar_allocated_transfer (c := c2)); [exact E1|exact Ha].
Qed.

End FreshRegion.

Lemma first_prefill_creates_empty_region_witness :
  exists ak av seg idx lens,
    ar_allocated example_op cache_after_first_prompt ak av seg idx lens /\
    map Z.of_nat (shape ak)
      = cached_kv_shape [1; 1; ar_capacity example_op; 1]%Z
          (ar_cache_axis_order example_op) /\
    map Z.of_nat (shape av)
      = cached_kv_shape [1; 1; ar_capacity example_op; 1]%Z
          (ar_cache_axis_order example_op) /\
    dtype ak = cache_dtype (quantize_kvcache example_op) /\
    dtype av = cache_dtype (quantize_kvcache example_op) /\
    (forall ix, at_ ak ix = 0%R) /\ (forall ix, at_ av ix = 0%R) /\
    map Z.of_nat (shape seg) = [1%Z; ar_capacity example_op] /\
    (forall ix, at_ seg ix = 0%Z) /\
    shape lens = [1%nat] /\ (forall ix, at_ lens ix = 0%Z) /\
    shape idx = [1%nat] /\ (forall ix, at_ idx ix = 0%Z).
Proof.
  apply (@first_prefill_creates_empty_region no_quantize example_op
           (prompt 1) (prompt 1) (Some (prompt_ids 1)) empty_cache
           cache_after_first_prompt (prompt 1, prompt 1, Some (prompt_ids 1))
           1 1 4 1).
  - intros n _. split; reflexivity.
  - reflexivity.
  - exact first_prompt_runs.
Defined.

(** ** What a decode call returns *)

Section DecodeReturns.

Variable ACTIVE : Z.
Variable quantize_kv : Tensor R -> nat -> Tensor R * Tensor R.
Variable unquantize_kv : Tensor R -> Tensor R -> DType -> Tensor R.
Variable self : AttentionOp.
Hypothesis unquantised : quantize_kvcache self = false.

Lemma update_ar_key_value_returns (key value ak av : Tensor R)
    (ks vs : option (Tensor R)) (idx lens : Tensor Z) (use_ragged : bool)
    (c c' : Cache) (r : Tensor R * Tensor R) :
  update_ar_key_value quantize_kv unquantize_kv self key value (ak, ks) (av, vs)
    idx lens use_ragged c = (inr r, c') ->
  exists ak' av',
    float_vars c' cached_ar_key = Some ak' /\
    float_vars c' cached_ar_value = Some av' /\
    r = (revert_kv_cache ak' (ar_cache_axis_order self),
         revert_kv_cache av' (ar_cache_axis_order self)).
Proof.
  unfold update_ar_key_value. intros H. rewrite unquantised in H.
  unfold bind, lift, ret, assign_float in H. csimp in H.
  destruct (index_in_layout CACHE_SEQUENCE _) as [e|axis] eqn:Eax; [discriminate|].
  csimp in H.
  destruct (write_token use_ragged ak _ idx lens axis) as [e|ak'] eqn:Wk;
    [discriminate|].
  csimp in H.
  assert (Eax2 : index_in_layout CACHE_SEQUENCE
             (if use_ragged
              then cached_kv_layout (kv_cache_logical_layout self)
                     (ar_cache_axis_order self)
              else cached_kv_layout (kv_cache_logical_layout self)
                     (ar_cache_axis_order self)) = inr axis)
    by (destruct use_ragged; exact Eax).
  rewrite Eax2 in H. csimp in H.
  destruct (write_token use_ragged av _ idx lens axis) as [e|av'] eqn:Wv;
    [discriminate|].
  csimp in H. injection H as <- <-.
  exists ak', av'. csimp. repeat split; reflexivity.
Qed.

Lemma get_prefill_cache_stored (batch heads kv : nat) (c : Cache)
    (pk pv : Tensor R) (pseg : Tensor Z) :
  float_vars c cached_prefill_key = Some pk ->
  float_vars c cached_prefill_value = Some pv ->
  int_vars c cache_prefill_segment_id = Some pseg ->
  _get_prefill_cache self batch heads kv (quantize_kvcache self) c
  = (inr ((pk, None), (pv, None), pseg), c).
Proof.
  intros Hk Hv Hs. unfold _get_prefill_cache. rewrite unquantised.
  unfold bind, ret, float_variable, int_variable.
  rewrite Hk, Hv, Hs. reflexivity.
Qed.

(** The arrays a successful decode call returns, for an unquantised
    cache: the stored prompt and the updated decode region, each brought
    back to the logical layout. *)
Lemma decode_returns (key value : Tensor R) (use_ragged : bool) (c c' : Cache)
    (ak av pk pv : Tensor R) (seg idx lens pseg : Tensor Z) out :
  ar_allocated self c ak av seg idx lens ->
  float_vars c cached_prefill_key = Some pk ->
  float_vars c cached_prefill_value = Some pv ->
  int_vars c cache_prefill_segment_id = Some pseg ->
  kv_cache_autoregressive ACTIVE quantize_kv unquantize_kv self key value
    use_ragged c = (inr out, c') ->
  exists ak' av' seg',
    ar_allocated self c' ak' av' seg' (advance_index self idx) (advance_lengths lens) /\
    out = ((revert_kv_cache pk (prefill_cache_axis_order self),
            revert_kv_cache pv (prefill_cache_axis_order self), pseg),
           (revert_kv_cache ak' (ar_cache_axis_order self),
            revert_kv_cache av' (ar_cache_axis_order self),
            seg', advance_lengths lens)).
Proof.
  intros Halloc Hpk Hpv Hps H.
  destruct (@decode_effect ACTIVE quantize_kv unquantize_kv self key value
              use_ragged c c' ak av seg idx lens out Halloc H)
    as (heads0 & batch0 & kv0 & axis & tokk & tokv & ak1 & av1 & seg1 & _ & _ & _
        & _ & _ & _ & Eseg1 & Ha1 & _).
  unfold kv_cache_autoregressive in H.
  destruct (shape key) as [|heads [|batch [|sequence [|kv [|]]]]]; try discriminate.
  destruct (Nat.eqb_spec sequence 1) as [->|]; [|discriminate].
  cbn [negb] in H.
  unfold bind at 1 in H. unfold has_variable, defined in H.
  cbn [is_int_var] in H. rewrite (alloc_index Halloc) in H. cbn [negb ok] in H.
  destruct (@get_ar_cache_allocated self c ak av seg idx lens batch heads kv
              (quantize_kvcache self) Halloc)
    as (ks & vs & Eget & _ & _).
  unfold bind at 1 in H. rewrite Eget in H.
  set (c1 := set_float cached_ar_value av (set_float cached_ar_key ak c)) in *.
  unfold massert, lift, assert_ in H.
  unfold bind at 1 in H. cbn [fst snd] in H.
  destruct (shape_is ak _) eqn:Sak; [|discriminate]. csimp in H.
  unfold bind at 1 in H.
  destruct (shape_is av _) eqn:Sav; [|discriminate]. csimp in H.
  apply bind_ok_inv in H. destruct H as ([rk rv] & c2 & Hupd & H).
  destruct (@update_ar_key_value_effect quantize_kv unquantize_kv self key value
              ak av ks vs idx lens use_ragged c1 c2 (rk, rv) Hupd)
    as (axis' & tokk' & tokv' & ak' & av' & _ & _ & _ & _ & _
        & Lk & Lv & Li & Lf & _ & _).
  destruct (@update_ar_key_value_returns key value ak av ks vs idx lens use_ragged
              c1 c2 (rk, rv) Hupd)
    as (ak'' & av'' & Lk' & Lv' & Er).
  assert (ak'' = ak') by congruence. assert (av'' = av') by congruence.
  subst ak'' av''.
  fold (active_indicator ACTIVE batch) in H.
  unfold bind at 1 in H.
  destruct (dynamic_update_index_in_dim seg (active_indicator ACTIVE batch)
              (item idx) 1) as [e|seg'] eqn:Eseg; [discriminate|].
  unfold assign_int in H. unfold bind at 1 2 3 in H. csimp in H.
  set (c5 := set_int cache_ar_lengths (advance_lengths lens)
               (set_int cache_ar_index (advance_index self idx)
                  (set_int cache_ar_segment_id seg' c2))) in *.
  assert (Hpk5 : float_vars c5 cached_prefill_key = Some pk).
  { unfold c5. csimp. rewrite (Lf cached_prefill_key). unfold c1. csimp. exact Hpk. }
  assert (Hpv5 : float_vars c5 cached_prefill_value = Some pv).
  { unfold c5. csimp. rewrite (Lf cached_prefill_value). unfold c1. csimp. exact Hpv. }
  assert (Hps5 : int_vars c5 cache_prefill_segment_id = Some pseg).
  { unfold c5. csimp. rewrite Li. unfold c1. csimp. exact Hps. }
  unfold bind at 1 in H.
  rewrite (@get_prefill_cache_stored batch heads kv c5 pk pv pseg Hpk5 Hpv5 Hps5) in H.
  unfold bind at 1 in H. cbn [fst snd] in H.
  destruct (shape_is pk _); [|discriminate]. csimp in H.
  unfold bind at 1 in H.
  destruct (shape_is pv _); [|discriminate]. csimp in H.
  unfold prefill_cache_var_model_var in H. rewrite unquantised in H.
  cbn [negb fst] in H. unfold bind, ret in H. csimp in H.
  injection H as <- <-.
  exists ak', av', seg'. split.
  - assert (Ek : ak1 = ak').
    { pose proof (alloc_key Ha1) as E. unfold c5 in E. csimp in E. congruence. }
    assert (Ev : av1 = av').
    { pose proof (alloc_value Ha1) as E. unfold c5 in E. csimp in E. congruence. }
    assert (Es : seg1 = seg').
    { pose proof (alloc_segment Ha1) as E. unfold c5 in E. csimp in E. congruence. }
    subst. exact Ha1.
  - rewrite Er. reflexivity.
Qed.

End DecodeReturns.

(** ** Reading the prompt back *)

Section PromptRoundTrip.

Variable ACTIVE : Z.
Variable quantize_kv : Tensor R -> nat -> Tensor R * Tensor R.
Variable unquantize_kv : Tensor R -> Tensor R -> DType -> Tensor R.
Variable self : AttentionOp.

(** X16.  With an unquantised cache, the prompt a prefill stores is what
    the next decode call returns as its prefill part: the key and the
    value have the type, shape and elements of the arrays given to the
    prefill, and the segment ids are the ones given to it. *)
Theorem decode_returns_the_prompt (key value tokk tokv : Tensor R)
    (ids : Tensor Z) (use_ragged : bool) (c0 c1 c2 : Cache) out0 out
    (ak av : Tensor R) (seg idx lens : Tensor Z) (heads batch sequence kv : nat) :
  quantize_kvcache self = false ->
  axis_order_ok (prefill_cache_axis_order self) = true ->
  shape key = [heads; batch; sequence; kv]%nat -> shape value = shape key ->
  kv_cache_prefill quantize_kv self key value (Some ids) c0 = (inr out0, c1) ->
  ar_allocated self c1 ak av seg idx lens ->
  kv_cache_autoregressive ACTIVE quantize_kv unquantize_kv self tokk tokv
    use_ragged c1 = (inr out, c2) ->
  let '(pkey, pvalue, pids) := fst out in
  (dtype pkey = dtype key /\ shape pkey = shape key /\
   forall i j k l, at_ pkey [i; j; k; l]%nat = at_ key [i; j; k; l]%nat) /\
  (dtype pvalue = dtype value /\ shape pvalue = shape value /\
   forall i j k l, at_ pvalue [i; j; k; l]%nat = at_ value [i; j; k; l]%nat) /\
  pids = ids.
Proof.
  intros Hq Ho Hk Hv Hpre Ha Hdec.
  destruct (prefill_effect _ _ _ _ _ _ Hpre)
    as (tk & tv & _ & Etk & Etv & Lk & Lv & Ls & _).
  unfold prefill_token in Etk, Etv. rewrite Hq in Etk, Etv.
  unfold ok in Etk, Etv. injection Etk as <-. injection Etv as <-.
  destruct (@decode_returns ACTIVE quantize_kv unquantize_kv self Hq tokk tokv
              use_ragged c1 c2 ak av _ _ seg idx lens ids out Ha Lk Lv Ls Hdec)
    as (ak' & av' & seg' & _ & ->).
  cbn [fst]. rewrite Hk in Hv.
  split; [exact (@revert_reshape_id key _ _ _ _ _ Ho Hk)|].
  split; [exact (@revert_reshape_id value _ _ _ _ _ Ho Hv)|reflexivity].
Qed.

End PromptRoundTrip.

Lemma varied_prompt_runs :
  kv_cache_prefill no_quantize example_op varied_prompt varied_prompt
    (Some (prompt_ids 1)) empty_cache
  = (inr (varied_prompt, varied_prompt, Some (prompt_ids 1)),
     cache_after_varied_prompt).
Proof. vm_compute. reflexivity. Qed.

Lemma varied_prompt_allocated :
  exists ak av seg idx lens,
    ar_allocated example_op cache_after_varied_prompt ak av seg idx lens /\
    item idx = 0%Z /\ shape seg = [1; 2]%nat /\ shape lens = [1%nat] /\
    (forall b, at_ lens [b] = 0%Z) /\
    dtype ak = bfloat16 /\ dtype av = bfloat16.
Proof.
  do 5 eexists. split; [constructor; try (vm_compute; reflexivity); discriminate|].
  repeat split; reflexivity.
Qed.

Lemma decode_returns_the_prompt_witness :
  exists out c2,
    kv_cache_autoregressive 1 no_quantize no_unquantize example_op
      (token 1) (token 1) true cache_after_varied_prompt = (inr out, c2) /\
    let '(pkey, pvalue, pids) := fst out in
    (dtype pkey = dtype varied_prompt /\ shape pkey = shape varied_prompt /\
     forall i j k l, at_ pkey [i; j; k; l]%nat = at_ varied_prompt [i; j; k; l]%nat) /\
    (dtype pvalue = dtype varied_prompt /\ shape pvalue = shape varied_prompt /\
     forall i j k l, at_ pvalue [i; j; k; l]%nat = at_ varied_prompt [i; j; k; l]%nat) /\
    pids = prompt_ids 1.
Proof.
  destruct varied_prompt_allocated as (ak & av & seg & idx & lens & Ha & _).
  destruct (kv_cache_autoregressive 1 no_quantize no_unquantize example_op
              (token 1) (token 1) true cache_after_varied_prompt)
    as [[e|out] c2] eqn:Hrun; [vm_compute in Hrun; discriminate Hrun|].
  exists out, c2. split; [reflexivity|].
  exact (@decode_returns_the_prompt 1 no_quantize no_unquantize example_op
           varied_prompt varied_prompt (token 1) (token 1) (prompt_ids 1) true
           empty_cache cache_after_varied_prompt c2 _ out ak av seg idx lens
           1 1 4 1 eq_refl eq_refl eq_refl eq_refl varied_prompt_runs Ha Hrun).
Defined.

(** ** Reading a decoded token back *)

Lemma revert_kv_cache_at (y : Tensor R) (order : list nat) (i j k l : nat) :
  axis_order_ok order = true ->
  at_ (revert_kv_cache y order) [i; j; k; l]%nat
  = at_ y (map (fun m => nth m [i; j; k; l] 0) order)%nat.
Proof.
  intros Ho. apply axis_order_cases in Ho.
  unfold revert_kv_cache, moveaxis_all, transpose. cbn [at_].
  cbn in Ho.
  repeat (destruct Ho as [Ho|Ho]; [rewrite <- Ho; reflexivity|]).
  contradiction.
Qed.

Lemma reshape_kv_cache_at (x : Tensor R) (order : list nat) (i j k l : nat) :
  axis_order_ok order = true ->
  at_ (reshape_kv_cache x order) (map (fun m => nth m [i; j; k; l] 0) order)%nat
  = at_ x [i; j; k; l]%nat.
Proof.
  intros Ho. apply axis_order_cases in Ho.
  unfold reshape_kv_cache, moveaxis_all, transpose. cbn [at_].
  cbn in Ho.
  repeat (destruct Ho as [Ho|Ho]; [rewrite <- Ho; reflexivity|]).
  contradiction.
Qed.

(** Under the standard layout the sequence coordinate of a logical
    position is the coordinate of its cache position along the axis named
    [CACHE_SEQUENCE]. *)
Lemma cache_position_sequence (self : AttentionOp) (axis : nat)
    (cache : Tensor R) (heads batch kv : nat) (n : Z) (h b q d : nat) :
  standard_layout self ->
  ar_seq_axis self = ok axis ->
  map Z.of_nat (shape cache)
    = cached_kv_shape [Z.of_nat heads; Z.of_nat batch; n; Z.of_nat kv]
        (ar_cache_axis_order self) ->
  (h < heads)%nat -> (b < batch)%nat -> (Z.of_nat q < n)%Z -> (d < kv)%nat ->
  let ix := map (fun m => nth m [h; b; q; d] 0%nat) (ar_cache_axis_order self) in
  in_bounds ix (shape cache) /\ nth axis ix 0%nat = q /\
  set_nth axis 0%nat ix
  = map (fun m => nth m [h; b; 0; d] 0)%nat (ar_cache_axis_order self).
Proof.
  intros [Hl Ho] Hax Hc Hh Hb Hq Hd. apply axis_order_cases in Ho.
  unfold ar_seq_axis in Hax. rewrite Hl in Hax.
  destruct (shape cache) as [|n0 [|n1 [|n2 [|n3 [|n4 rest]]]]];
    cbn in Ho;
    repeat (destruct Ho as [Ho|Ho]; [rewrite <- Ho in *; try discriminate Hc|]);
    try contradiction;
    cbn in Hax; unfold ok in Hax; injection Hax as <-;
    cbn in Hc; injection Hc as E0 E1 E2 E3;
    cbn; repeat split; try reflexivity; lia.
Qed.

Section DecodeReadBack.

Variable ACTIVE : Z.
Variable quantize_kv : Tensor R -> nat -> Tensor R * Tensor R.
Variable unquantize_kv : Tensor R -> Tensor R -> DType -> Tensor R.
Variable self : AttentionOp.
Hypothesis unquantised : quantize_kvcache self = false.

(** The autoregressive part of what a successful decode call returns. *)
Lemma decode_returns_ar (key value : Tensor R) (use_ragged : bool) (c c' : Cache)
    (ak av : Tensor R) (seg idx lens : Tensor Z) out :
  ar_allocated self c ak av seg idx lens ->
  kv_cache_autoregressive ACTIVE quantize_kv unquantize_kv self key value
    use_ragged c = (inr out, c') ->
  exists ak' av' seg',
    ar_allocated self c' ak' av' seg' (advance_index self idx) (advance_lengths lens) /\
    snd out = (revert_kv_cache ak' (ar_cache_axis_order self),
               revert_kv_cache av' (ar_cache_axis_order self),
               seg', advance_lengths lens).
Proof.
  intros Halloc H.
  destruct (@decode_effect ACTIVE quantize_kv unquantize_kv self key value
              use_ragged c c' ak av seg idx lens out Halloc H)
    as (heads0 & batch0 & kv0 & axis & tokk & tokv & ak1 & av1 & seg1 & _ & _ & _
        & _ & _ & _ & Eseg1 & Ha1 & _).
  unfold kv_cache_autoregressive in H.
  destruct (shape key) as [|heads [|batch [|sequence [|kv [|]]]]]; try discriminate.
  destruct (Nat.eqb_spec sequence 1) as [->|]; [|discriminate].
  cbn [negb] in H.
  unfold bind at 1 in H. unfold has_variable, defined in H.
  cbn [is_int_var] in H. rewrite (alloc_index Halloc) in H. cbn [negb ok] in H.
  destruct (@get_ar_cache_allocated self c ak av seg idx lens batch heads kv
              (quantize_kvcache self) Halloc)
    as (ks & vs & Eget & _ & _).
  unfold bind at 1 in H. rewrite Eget in H.
  set (c1 := set_float cached_ar_value av (set_float cached_ar_key ak c)) in *.
  unfold massert, lift, assert_ in H.
  unfold bind at 1 in H. cbn [fst snd] in H.
  destruct (shape_is ak _) eqn:Sak; [|discriminate]. csimp in H.
  unfold bind at 1 in H.
  destruct (shape_is av _) eqn:Sav; [|discriminate]. csimp in H.
  apply bind_ok_inv in H. destruct H as ([rk rv] & c2 & Hupd & H).
  destruct (@update_ar_key_value_returns quantize_kv unquantize_kv self unquantised
              key value ak av ks vs idx lens use_ragged c1 c2 (rk, rv) Hupd)
    as (ak' & av' & Lk' & Lv' & Er).
  fold (active_indicator ACTIVE batch) in H.
  unfold bind at 1 in H.
  destruct (dynamic_update_index_in_dim seg (active_indicator ACTIVE batch)
              (item idx) 1) as [e|seg'] eqn:Eseg; [discriminate|].
  unfold assign_int in H. unfold bind at 1 2 3 in H. csimp in H.
  set (c5 := set_int cache_ar_lengths (advance_lengths lens)
               (set_int cache_ar_index (advance_index self idx)
                  (set_int cache_ar_segment_id seg' c2))) in *.
  apply bind_ok_inv in H. destruct H as ([[pk pv] pseg] & c6 & Hpre & H).
  pose proof (@get_prefill_cache_frame self _ _ _ _ _ _ _ Hpre) as Frame.
  unfold bind at 1 in H. cbn [fst snd] in H.
  destruct (shape_is (fst pk) _); [|discriminate]. csimp in H.
  unfold bind at 1 in H.
  destruct (shape_is (fst pv) _); [|discriminate]. csimp in H.
  unfold bind at 1 in H.
  destruct (prefill_cache_var_model_var unquantize_kv self pk _ _) as [e|pkey];
    [discriminate|].
  unfold bind at 1 in H.
  destruct (prefill_cache_var_model_var unquantize_kv self pv _ _) as [e|pval];
    [discriminate|].
  unfold ret in H. injection H as <- <-.
  exists ak', av', seg'. split.
  - assert (Ek : ak1 = ak').
    { pose proof (alloc_key Ha1) as E. rewrite (proj1 (Frame cached_ar_key)) in E.
      unfold c5 in E. csimp in E. congruence. }
    assert (Ev : av1 = av').
    { pose proof (alloc_value Ha1) as E. rewrite (proj1 (Frame cached_ar_value)) in E.
      unfold c5 in E. csimp in E. congruence. }
    assert (Es : seg1 = seg').
    { pose proof (alloc_segment Ha1) as E.
      rewrite (proj2 (Frame cache_ar_segment_id)) in E.
      unfold c5 in E. csimp in E. congruence. }
    subst. exact Ha1.
  - cbn [snd]. injection Er as -> ->. reflexivity.
Qed.

End DecodeReadBack.

Section NewTokenReadBack.

Variable ACTIVE : Z.
Variable quantize_kv : Tensor R -> nat -> Tensor R * Tensor R.
Variable unquantize_kv : Tensor R -> Tensor R -> DType -> Tensor R.
Variable self : AttentionOp.

Lemma unquantised_token (x tok : Tensor R) :
  quantize_kvcache self = false ->
  token_for_cache quantize_kv self x = ok tok ->
  tok = reshape_kv_cache x (ar_cache_axis_order self) /\
  token_for_cache no_quantize self x = ok tok.
Proof.
  intros Hq. unfold token_for_cache. rewrite Hq. unfold ok.
  intros [= <-]. split; reflexivity.
Qed.

(** X17.  With an unquantised cache in the standard layout and the
    cursor inside the region, the key and value arrays a decode call
    returns hold the new token at the cursor slot and, at every other
    slot, what the region held before the call.  This is so in indexed
    mode, and in ragged mode when every length counter equals the cursor
    and the token has the element type of the region, so that storing it
    involves no conversion. *)
Theorem decode_returns_new_token (key value : Tensor R) (use_ragged : bool)
    (c c' : Cache) out (ak av : Tensor R) (seg idx lens : Tensor Z)
    (heads batch kv : nat) :
  standard_layout self ->
  quantize_kvcache self = false ->
  ar_allocated self c ak av seg idx lens ->
  shape key = [heads; batch; 1; kv]%nat -> shape value = shape key ->
  (0 <= item idx < ar_capacity self)%Z ->
  (use_ragged = true ->
   dtype key = dtype ak /\ dtype value = dtype av /\
   shape lens = [batch] /\
   forall b, (b < batch)%nat -> at_ lens [b] = item idx) ->
  kv_cache_autoregressive ACTIVE quantize_kv unquantize_kv self key value
    use_ragged c = (inr out, c') ->
  let '(rk, rv, _, _) := snd out in
  forall h b q d,
    (h < heads)%nat -> (b < batch)%nat -> (Z.of_nat q < ar_capacity self)%Z ->
    (d < kv)%nat ->
    at_ rk [h; b; q; d]%nat
    = (if (q =? Z.to_nat (item idx))%nat then at_ key [h; b; 0; d]%nat
       else at_ (revert_kv_cache ak (ar_cache_axis_order self)) [h; b; q; d]%nat) /\
    at_ rv [h; b; q; d]%nat
    = (if (q =? Z.to_nat (item idx))%nat then at_ value [h; b; 0; d]%nat
       else at_ (revert_kv_cache av (ar_cache_axis_order self)) [h; b; q; d]%nat).
Proof.
  intros Hlay Hq Ha Hk Hv Hidx Hrag H.
  destruct (@decode_effect ACTIVE quantize_kv unquantize_kv self key value
              use_ragged c c' ak av seg idx lens out Ha H)
    as (heads0 & batch0 & kv0 & axis & tokk & tokv & ak1 & av1 & seg1 & Hk0 & Hax
        & Tk & Tv & Wk & Wv & _ & Ha1 & _ & _ & Sk & Sv).
  rewrite Hk in Hk0. injection Hk0 as <- <- <-.
  rewrite Hk in Hv.
  destruct (@unquantised_token key tokk Hq Tk) as [Etk Tk'].
  destruct (@unquantised_token value tokv Hq Tv) as [Etv Tv'].
  destruct (@token_fills_one_slot no_quantize self Hlay no_quantize_shape_preserving
              key tokk ak _ _ _ _ Hk Hax Tk' Sk) as (Ek & Lk & Ck & Zk).
  destruct (@token_fills_one_slot no_quantize self Hlay no_quantize_shape_preserving
              value tokv av _ _ _ _ Hv Hax Tv' Sv) as (Ev & Lv & Cv & Zv).
  assert (Sw : slot_written ak ak1 tokk axis (Z.to_nat (item idx)) /\
               slot_written av av1 tokv axis (Z.to_nat (item idx))).
  { split.
    - apply (@write_token_slot _ _ _ _ _ _ _ Wk); [exact Ek|exact Lk|lia|].
      intros ->. destruct (Hrag eq_refl) as (_ & _ & Sl & Hall). rewrite Sl. cbn [nth].
      split; [exact Hall|exact Zk].
    - apply (@write_token_slot _ _ _ _ _ _ _ Wv); [exact Ev|exact Lv|lia|].
      intros ->. destruct (Hrag eq_refl) as (_ & _ & Sl & Hall). rewrite Sl. cbn [nth].
      split; [exact Hall|exact Zv]. }
  destruct Sw as [(_ & _ & Pk) (_ & _ & Pv)].
  destruct (@decode_returns_ar ACTIVE quantize_kv unquantize_kv self Hq key value
              use_ragged c c' ak av seg idx lens out Ha H)
    as (ak' & av' & seg' & Ha' & Eout).
  assert (ak' = ak1) by (pose proof (alloc_key Ha'); pose proof (alloc_key Ha1);
                         congruence).
  assert (av' = av1) by (pose proof (alloc_value Ha'); pose proof (alloc_value Ha1);
                         congruence).
  subst ak' av'. rewrite Eout.
  intros h b q d Hh Hb Hq' Hd.
  pose proof (proj2 Hlay) as Ho.
  destruct (@cache_position_sequence self axis ak heads batch kv _ h b q d
              Hlay Hax Sk Hh Hb Hq' Hd) as (Bk & Nk & Zk0).
  destruct (@cache_position_sequence self axis av heads batch kv _ h b q d
              Hlay Hax Sv Hh Hb Hq' Hd) as (Bv & _ & _).
  rewrite !(fun y => @revert_kv_cache_at y _ h b q d Ho).
  rewrite (Pk _ Bk), (Pv _ Bv), Nk, Zk0, Etk, Etv.
  rewrite !(fun x => @reshape_kv_cache_at x _ h b 0%nat d Ho).
  split; reflexivity.
Qed.

End NewTokenReadBack.

Lemma decode_returns_new_token_witness :
  exists ak av idx out c',
    float_vars cache_after_varied_prompt cached_ar_key = Some ak /\
    float_vars cache_after_varied_prompt cached_ar_value = Some av /\
    int_vars cache_after_varied_prompt cache_ar_index = Some idx /\
    kv_cache_autoregressive 1 no_quantize no_unquantize example_op
      (token 5) (token 6) true cache_after_varied_prompt = (inr out, c') /\
    let '(rk, rv, _, _) := snd out in
    forall h b q d,
      (h < 1)%nat -> (b < 1)%nat -> (Z.of_nat q < ar_capacity example_op)%Z ->
      (d < 1)%nat ->
      at_ rk [h; b; q; d]%nat
      = (if (q =? Z.to_nat (item idx))%nat then at_ (token 5) [h; b; 0; d]%nat
         else at_ (revert_kv_cache ak (ar_cache_axis_order example_op))
                [h; b; q; d]%nat) /\
      at_ rv [h; b; q; d]%nat
      = (if (q =? Z.to_nat (item idx))%nat then at_ (token 6) [h; b; 0; d]%nat
         else at_ (revert_kv_cache av (ar_cache_axis_order example_op))
                [h; b; q; d]%nat).
Proof.
  destruct varied_prompt_allocated
    as (ak & av & seg & idx & lens & Ha & Hi & _ & Hl & Hz & Dk & Dv).
  destruct (kv_cache_autoregressive 1 no_quantize no_unquantize example_op
              (token 5) (token 6) true cache_after_varied_prompt)
    as [[e|out] c'] eqn:Hrun; [vm_compute in Hrun; discriminate Hrun|].
  exists ak, av, idx, out, c'.
  split; [exact (alloc_key Ha)|]. split; [exact (alloc_value Ha)|].
  split; [exact (alloc_index Ha)|]. split; [reflexivity|].
  apply (@decode_returns_new_token 1 no_quantize no_unquantize example_op
           (token 5) (token 6) true cache_after_varied_prompt c' out
           ak av seg idx lens 1 1 1 example_op_standard_layout eq_refl Ha
           eq_refl eq_refl).
  - rewrite Hi. unfold ar_capacity. cbn. lia.
  - intros _. split; [rewrite Dk; reflexivity|]. split; [rewrite Dv; reflexivity|].
    split; [exact Hl|]. intros b _. rewrite Hi. apply Hz.
  - exact Hrun.
Defined.

(** ** Ragged and indexed addressing *)

Lemma at_set_axis_out_of_range {A} (operand update : Tensor A)
    (positions : Tensor Z) (axis : nat) :
  (axis < length (shape operand))%nat ->
  (forall b, (b < nth 0 (shape positions) 0)%nat ->
     (Z.of_nat (nth axis (shape operand) 0%nat) <= at_ positions [b])%Z) ->
  shape (at_set_axis operand axis positions update) = shape operand /\
  forall ix, in_bounds ix (shape operand) ->
    at_ (at_set_axis operand axis positions update) ix = at_ operand ix.
Proof.
  intros L Hall. unfold at_set_axis. split; [reflexivity|].
  intros ix Hb. cbn [at_].
  replace (existsb _ _) with false; [reflexivity|].
  symmetry. apply not_true_is_false. intros Hex.
  apply existsb_exists in Hex. destruct Hex as (b & Hin & Hq).
  apply in_seq in Hin. specialize (Hall b ltac:(lia)).
  pose proof (@in_bounds_nth axis ix (shape operand) Hb L) as Hlt.
  unfold normalize_index in Hq.
  destruct (Z.ltb_spec (at_ positions [b]) 0); [lia|].
  apply Z.eqb_eq in Hq. lia.
Qed.

Lemma seq_axis_of_cache (self : AttentionOp) (axis : nat) (cache : Tensor R)
    (heads batch kv : nat) (n : Z) :
  standard_layout self ->
  ar_seq_axis self = ok axis ->
  map Z.of_nat (shape cache)
    = cached_kv_shape [Z.of_nat heads; Z.of_nat batch; n; Z.of_nat kv]
        (ar_cache_axis_order self) ->
  (axis < length (shape cache))%nat /\
  Z.of_nat (nth axis (shape cache) 0%nat) = n.
Proof.
  intros [Hl Ho] Hax Hc. apply axis_order_cases in Ho.
  unfold ar_seq_axis in Hax. rewrite Hl in Hax.
  destruct (shape cache) as [|n0 [|n1 [|n2 [|n3 [|n4 rest]]]]];
    cbn in Ho;
    repeat (destruct Ho as [Ho|Ho]; [rewrite <- Ho in *; try discriminate Hc|]);
    try contradiction;
    cbn in Hax; unfold ok in Hax; injection Hax as <-;
    cbn in Hc; injection Hc as E0 E1 E2 E3;
    cbn; (split; [lia|assumption]).
Qed.

Section AddressingModes.

Variable ACTIVE : Z.
Variable quantize_kv : Tensor R -> nat -> Tensor R * Tensor R.
Variable unquantize_kv : Tensor R -> Tensor R -> DType -> Tensor R.
Variable self : AttentionOp.
Hypothesis layout : standard_layout self.

(** X18.  Once every length counter has reached the capacity of the
    region, a ragged decode call stores nothing: the key and value arrays
    of the region are left as they were, while the call still succeeds and
    still counts the token. *)
Theorem ragged_decode_stores_nothing_when_full (key value : Tensor R)
    (c c' : Cache) out (ak av : Tensor R) (seg idx lens : Tensor Z) :
  ar_allocated self c ak av seg idx lens ->
  (forall b, (b < nth 0 (shape lens) 0)%nat -> (ar_capacity self <= at_ lens [b])%Z) ->
  kv_cache_autoregressive ACTIVE quantize_kv unquantize_kv self key value
    true c = (inr out, c') ->
  exists ak' av',
    float_vars c' cached_ar_key = Some ak' /\
    float_vars c' cached_ar_value = Some av' /\
    shape ak' = shape ak /\ shape av' = shape av /\
    (forall ix, in_bounds ix (shape ak) -> at_ ak' ix = at_ ak ix) /\
    (forall ix, in_bounds ix (shape av) -> at_ av' ix = at_ av ix) /\
    forall b, length_of c' b = Some (wrap32 (at_ lens [b] + 1)).
Proof.
  intros Ha Hfull H.
  destruct (@decode_effect ACTIVE quantize_kv unquantize_kv self key value
              true c c' ak av seg idx lens out Ha H)
    as (heads & batch & kv & axis & tokk & tokv & ak1 & av1 & seg1 & Hk & Hax
        & Tk & Tv & Wk & Wv & _ & Ha1 & _ & _ & Sk & Sv).
  unfold write_token in Wk, Wv. unfold ok in Wk, Wv.
  injection Wk as <-. injection Wv as <-.
  destruct (@seq_axis_of_cache self axis ak heads batch kv _ layout Hax Sk) as [Lk Ck].
  destruct (@seq_axis_of_cache self axis av heads batch kv _ layout Hax Sv) as [Lv Cv].
  destruct (@at_set_axis_out_of_range _ ak tokk lens axis Lk) as [S1 P1].
  { intros b Hb. rewrite Ck. apply Hfull. exact Hb. }
  destruct (@at_set_axis_out_of_range _ av tokv lens axis Lv) as [S2 P2].
  { intros b Hb. rewrite Cv. apply Hfull. exact Hb. }
  do 2 eexists.
  split; [exact (alloc_key Ha1)|]. split; [exact (alloc_value Ha1)|].
  split; [exact S1|]. split; [exact S2|]. split; [exact P1|]. split; [exact P2|].
  intros b. unfold length_of. rewrite (alloc_lengths Ha1). reflexivity.
Qed.

(** X19.  While every length counter equals the cursor and the cursor is
    inside the region, the two addressing modes do the same: a ragged and
    an indexed decode of the same token from the same cache leave key and
    value arrays that agree at every position, and the same segment ids,
    cursor and length counters. *)
Theorem ragged_and_indexed_agree (key value : Tensor R)
    (c c_r c_i : Cache) out_r out_i (ak av : Tensor R) (seg idx lens : Tensor Z) :
  shape_preserving quantize_kv ->
  ar_allocated self c ak av seg idx lens ->
  shape value = shape key ->
  (0 <= item idx < ar_capacity self)%Z ->
  shape lens = [nth 1 (shape key) 0%nat] ->
  (forall b, (b < nth 1 (shape key) 0)%nat -> at_ lens [b] = item idx) ->
  kv_cache_autoregressive ACTIVE quantize_kv unquantize_kv self key value
    true c = (inr out_r, c_r) ->
  kv_cache_autoregressive ACTIVE quantize_kv unquantize_kv self key value
    false c = (inr out_i, c_i) ->
  exists ak_r av_r ak_i av_i seg',
    ar_allocated self c_r ak_r av_r seg' (advance_index self idx) (advance_lengths lens) /\
    ar_allocated self c_i ak_i av_i seg' (advance_index self idx) (advance_lengths lens) /\
    shape ak_r = shape ak_i /\ shape av_r = shape av_i /\
    (forall ix, in_bounds ix (shape ak_r) -> at_ ak_r ix = at_ ak_i ix) /\
    (forall ix, in_bounds ix (shape av_r) -> at_ av_r ix = at_ av_i ix).
Proof.
  intros Hq Ha Hv Hidx Hl Hall Hr Hi.
  destruct (@decode_writes_slots ACTIVE quantize_kv unquantize_kv self key value
              true c c_r out_r ak av seg idx lens layout Hq Ha Hv Hidx
              (fun _ => conj Hl Hall) Hr)
    as (axis & tokk & tokv & ak_r & av_r & seg_r & Hax & Tk & Tv & Ha_r & Ws_r
        & (Sk_r & _ & Pk_r) & (Sv_r & _ & Pv_r)).
  destruct (@decode_writes_slots ACTIVE quantize_kv unquantize_kv self key value
              false c c_i out_i ak av seg idx lens layout Hq Ha Hv Hidx
              ltac:(discriminate) Hi)
    as (axis' & tokk' & tokv' & ak_i & av_i & seg_i & Hax' & Tk' & Tv' & Ha_i & Ws_i
        & (Sk_i & _ & Pk_i) & (Sv_i & _ & Pv_i)).
  assert (axis' = axis) by (unfold ok in Hax, Hax'; congruence).
  assert (tokk' = tokk) by (unfold ok in Tk, Tk'; congruence).
  assert (tokv' = tokv) by (unfold ok in Tv, Tv'; congruence).
  assert (seg_i = seg_r) by (unfold ok in Ws_r, Ws_i; congruence).
  subst axis' tokk' tokv' seg_i.
  exists ak_r, av_r, ak_i, av_i, seg_r.
  split; [exact Ha_r|]. split; [exact Ha_i|].
  split; [congruence|]. split; [congruence|].
  split.
  - intros ix Hb. rewrite Sk_r in Hb. rewrite (Pk_r ix Hb), (Pk_i ix Hb). reflexivity.
  - intros ix Hb. rewrite Sv_r in Hb. rewrite (Pv_r ix Hb), (Pv_i ix Hb). reflexivity.
Qed.

End AddressingModes.

Lemma two_decodes_allocated :
  exists ak av seg idx lens,
    ar_allocated example_op cache_after_two_decodes ak av seg idx lens /\
    item idx = 0%Z /\ shape lens = [1%nat] /\ (forall b, at_ lens [b] = 2%Z).
Proof.
  do 5 eexists. split; [constructor; try (vm_compute; reflexivity); discriminate|].
  split; [vm_compute; reflexivity|]. split; [reflexivity|].
  intros b. vm_compute. reflexivity.
Qed.

Lemma ragged_decode_stores_nothing_witness :
  exists ak av out c' ak' av',
    float_vars cache_after_two_decodes cached_ar_key = Some ak /\
    float_vars cache_after_two_decodes cached_ar_value = Some av /\
    kv_cache_autoregressive 1 no_quantize no_unquantize example_op
      (token 3) (token 3) true cache_after_two_decodes = (inr out, c') /\
    float_vars c' cached_ar_key = Some ak' /\
    float_vars c' cached_ar_value = Some av' /\
    shape ak' = shape ak /\ shape av' = shape av /\
    (forall ix, in_bounds ix (shape ak) -> at_ ak' ix = at_ ak ix) /\
    (forall ix, in_bounds ix (shape av) -> at_ av' ix = at_ av ix) /\
    length_of c' 0 = Some 3%Z.
Proof.
  destruct two_decodes_allocated as (ak & av & seg & idx & lens & Ha & Hi & Hl & Hz).
  destruct (kv_cache_autoregressive 1 no_quantize no_unquantize example_op
              (token 3) (token 3) true cache_after_two_decodes)
    as [[e|out] c'] eqn:Hrun; [vm_compute in Hrun; discriminate Hrun|].
  destruct (@ragged_decode_stores_nothing_when_full 1 no_quantize no_unquantize
              example_op example_op_standard_layout (token 3) (token 3)
              cache_after_two_decodes c' out ak av seg idx lens Ha)
    as (ak' & av' & E1 & E2 & E3 & E4 & E5 & E6 & E7).
  - intros b _. rewrite Hz. unfold ar_capacity. cbn. lia.
  - exact Hrun.
  - exists ak, av, out, c', ak', av'.
    split; [exact (alloc_key Ha)|]. split; [exact (alloc_value Ha)|].
    split; [reflexivity|].
    repeat (split; [assumption|]).
    rewrite (E7 0%nat), Hz. reflexivity.
Defined.

Lemma ragged_and_indexed_agree_witness :
  exists out_r c_r out_i c_i ak_r av_r ak_i av_i,
    kv_cache_autoregressive 1 no_quantize no_unquantize example_op
      (token 5) (token 6) true cache_after_varied_prompt = (inr out_r, c_r) /\
    kv_cache_autoregressive 1 no_quantize no_unquantize example_op
      (token 5) (token 6) false cache_after_varied_prompt = (inr out_i, c_i) /\
    float_vars c_r cached_ar_key = Some ak_r /\
    float_vars c_i cached_ar_key = Some ak_i /\
    float_vars c_r cached_ar_value = Some av_r /\
    float_vars c_i cached_ar_value = Some av_i /\
    int_vars c_r = int_vars c_i /\
    (forall ix, in_bounds ix (shape ak_r) -> at_ ak_r ix = at_ ak_i ix) /\
    (forall ix, in_bounds ix (shape av_r) -> at_ av_r ix = at_ av_i ix).
Proof.
  destruct varied_prompt_allocated
    as (ak & av & seg & idx & lens & Ha & Hi & _ & Hl & Hz & Dk & Dv).
  destruct (kv_cache_autoregressive 1 no_quantize no_unquantize example_op
              (token 5) (token 6) true cache_after_varied_prompt)
    as [[e|out_r] c_r] eqn:Hr; [vm_compute in Hr; discriminate Hr|].
  destruct (kv_cache_autoregressive 1 no_quantize no_unquantize example_op
              (token 5) (token 6) false cache_after_varied_prompt)
    as [[e|out_i] c_i] eqn:Hi'; [vm_compute in Hi'; discriminate Hi'|].
  destruct (@ragged_and_indexed_agree 1 no_quantize no_unquantize example_op
              example_op_standard_layout (token 5) (token 6)
              cache_after_varied_prompt c_r c_i out_r out_i ak av seg idx lens
              no_quantize_shape_preserving Ha eq_refl)
    as (ak_r & av_r & ak_i & av_i & seg' & Ha_r & Ha_i & _ & _ & Pk & Pv);
    [rewrite Hi; unfold ar_capacity; cbn; lia
    |exact Hl
    |intros b _; rewrite Hi; apply Hz
    |exact Hr|exact Hi'|].
  exists out_r, c_r, out_i, c_i, ak_r, av_r, ak_i, av_i.
  split; [reflexivity|]. split; [reflexivity|].
  split; [exact (alloc_key Ha_r)|]. split; [exact (alloc_key Ha_i)|].
  split; [exact (alloc_value Ha_r)|]. split; [exact (alloc_value Ha_i)|].
  split; [|split; assumption].
  vm_compute in Hr, Hi'. injection Hr as _ <-. injection Hi' as _ <-. reflexivity.
Defined.

(** ** The decode mask of the dot-product path *)

Section DecodeMask.

Variable ACTIVE : Z.
Variable self : AttentionOp.

(** X20.  In autoregressive mode, on a query, a key and a value of
    matching shapes with at least one key position, the dot-product path
    needs segment ids (without them it raises [TypeError]) and applies no
    causal mask: the score of a key slot is kept exactly when the segment
    id of that slot is the active marker, whatever the query position, and
    is replaced by [DEFAULT_MASK_VALUE] otherwise. *)
Theorem decode_dot_path_attends_active_slots (q key v : Tensor R)
    (ids : Tensor Z) (K B T S D : nat) :
  validate_compute_axis_order (compute_axis_order self) = ok tt ->
  shape q = [K; B; T; D]%nat -> shape key = [K; B; S; D]%nat ->
  shape v = [K; B; S; D]%nat -> (0 < S)%nat ->
  num_kv_heads self = K -> (0 < K)%nat ->
  shape ids = [B; S]%nat ->
  apply_attention_dot ACTIVE self q key v None MODEL_MODE_AUTOREGRESSIVE
    = raise (TypeError "'NoneType' object is not subscriptable") /\
  exists w,
    apply_attention_dot ACTIVE self q key v (Some ids) MODEL_MODE_AUTOREGRESSIVE
      = ok (compute_local_attention self w v T MODEL_MODE_AUTOREGRESSIVE) /\
    shape w = [K; B; 1; T; S]%nat /\
    forall k b i j, (k < K)%nat -> (b < B)%nat -> (i < T)%nat -> (j < S)%nat ->
      at_ w [k; b; 0; i; j]%nat
      = if Z.eqb (at_ ids [b; j]%nat) ACTIVE then logit q key k b i j
        else DEFAULT_MASK_VALUE.
Proof.
  intros Hval Hq Hk Hv HS Hn HK Hs.
  destruct (@qk_product_spec self q key K B T S D T MODEL_MODE_AUTOREGRESSIVE
              Hq Hk Hn HK) as (a & Ea & Sa & Aa).
  assert (Hd : dim q 2 = T) by (unfold dim; rewrite Hq; reflexivity).
  split.
  - unfold apply_attention_dot. rewrite Hval. cbn [rbind ok].
    unfold qk_operands. cbn [is_train andb]. rewrite Hd, Ea. reflexivity.
  - unfold apply_attention_dot. rewrite Hval. cbn [rbind ok].
    unfold qk_operands. cbn [is_train andb]. rewrite Hd, Ea. cbn [rbind ok].
    unfold generate_attention_mask. cbn [is_autoregressive negb rbind ok].
    unfold dim. rewrite Hs. cbn [nth].
    eexists. split; [reflexivity|].
    unfold apply_mask_to_logits, where_, map_tensor, scalar.
    cbn [shape at_]. rewrite Sa. split.
    + bnorm. reflexivity.
    + intros k b i j Hk' Hb Hi Hj. bnorm.
      rewrite (Aa k b i j Hk' Hb Hi Hj).
      destruct (Z.eqb (at_ ids [b; j]%nat) ACTIVE).
      * rewrite mask_permits_zero. reflexivity.
      * rewrite mask_forbids_sentinel. reflexivity.
Qed.

End DecodeMask.

Lemma decode_dot_path_witness :
  apply_attention_dot 1 example_op (coords float32 [1; 1; 1; 3]%nat)
    (coords float32 [1; 1; 2; 3]%nat) (coords float32 [1; 1; 2; 3]%nat)
    None MODEL_MODE_AUTOREGRESSIVE
    = raise (TypeError "'NoneType' object is not subscriptable") /\
  exists w,
    apply_attention_dot 1 example_op (coords float32 [1; 1; 1; 3]%nat)
      (coords float32 [1; 1; 2; 3]%nat) (coords float32 [1; 1; 2; 3]%nat)
      (Some second_slot_active) MODEL_MODE_AUTOREGRESSIVE
      = ok (compute_local_attention example_op w (coords float32 [1; 1; 2; 3]%nat) 1
              MODEL_MODE_AUTOREGRESSIVE) /\
    shape w = [1; 1; 1; 1; 2]%nat /\
    forall k b i j, (k < 1)%nat -> (b < 1)%nat -> (i < 1)%nat -> (j < 2)%nat ->
      at_ w [k; b; 0; i; j]%nat
      = if Z.eqb (at_ second_slot_active [b; j]%nat) 1
        then logit (coords float32 [1; 1; 1; 3]%nat)
               (coords float32 [1; 1; 2; 3]%nat) k b i j
        else DEFAULT_MASK_VALUE.
Proof.
  exact (@decode_dot_path_attends_active_slots 1 example_op
           (coords float32 [1; 1; 1; 3]%nat) (coords float32 [1; 1; 2; 3]%nat)
           (coords float32 [1; 1; 2; 3]%nat) second_slot_active 1 1 1 2 3
           eq_refl eq_refl eq_refl eq_refl Nat.lt_0_2 eq_refl Nat.lt_0_1 eq_refl).
Defined.

(** ** The ragged kernel's results *)

(** X21.  [ragged_attention] hands on the kernel's normalised output
    multiplied by the kernel's sum of exponentials, with the maxima and
    the sums given a last axis of size one; dividing the returned output
    by the returned sum gives the kernel's output back wherever the sum
    is not zero. *)
Theorem ragged_attention_scales_by_sum
    (kernel : Tensor R -> Tensor R -> Tensor R -> Tensor Z ->
              Tensor R * Tensor R * Tensor R)
    (q key v o m l : Tensor R) (lengths : Tensor Z) (K B T D : nat) :
  kernel q key v lengths = (o, m, l) ->
  shape o = [K; B; T; D]%nat -> shape m = [K; B; T]%nat -> shape l = [K; B; T]%nat ->
  let '(o', m', l') := ragged_attention kernel q key v lengths in
  shape o' = [K; B; T; D]%nat /\ shape m' = [K; B; T; 1]%nat /\
  shape l' = [K; B; T; 1]%nat /\
  forall k b t, (k < K)%nat -> (b < B)%nat -> (t < T)%nat ->
    at_ m' [k; b; t; 0]%nat = at_ m [k; b; t]%nat /\
    at_ l' [k; b; t; 0]%nat = at_ l [k; b; t]%nat /\
    forall d, (d < D)%nat ->
      at_ o' [k; b; t; d]%nat = (at_ o [k; b; t; d]%nat * at_ l [k; b; t]%nat)%R /\
      (at_ l [k; b; t]%nat <> 0%R ->
       at_ (tdiv o' l') [k; b; t; d]%nat = at_ o [k; b; t; d]%nat).
Proof.
  unfold ragged_attention. intros -> Ho Hm Hl.
  assert (Sl' : shape (expand_dims_last l) = [K; B; T; 1]%nat)
    by (unfold expand_dims_last; cbn [shape]; rewrite Hl; reflexivity).
  assert (Sm' : shape (expand_dims_last m) = [K; B; T; 1]%nat)
    by (unfold expand_dims_last; cbn [shape]; rewrite Hm; reflexivity).
  destruct (arith2_stat_r Rmult o (expand_dims_last l) Ho Sl') as [So' Ao'].
  destruct (arith2_stat_r Rdiv (tmul o (expand_dims_last l)) (expand_dims_last l)
              So' Sl') as [_ Ad].
  split; [exact So'|]. split; [exact Sm'|]. split; [exact Sl'|].
  intros k b t Hk Hb Ht. split; [reflexivity|]. split; [reflexivity|].
  intros d Hd. rewrite Ad, Ao' by assumption.
  change (at_ (expand_dims_last l) [k; b; t; 0%nat]) with (at_ l [k; b; t]%nat).
  split; [reflexivity|]. intros Hnz. field. exact Hnz.
Qed.

Lemma ragged_attention_scales_witness :
  let '(o', m', l') :=
    ragged_attention fixed_kernel (token 1) (token 1) (token 1) (prompt_ids 1) in
  shape o' = [2; 3; 1; 5]%nat /\ shape m' = [2; 3; 1; 1]%nat /\
  shape l' = [2; 3; 1; 1]%nat /\
  forall k b t, (k < 2)%nat -> (b < 3)%nat -> (t < 1)%nat ->
    at_ m' [k; b; t; 0]%nat = at_ (coords float32 [2; 3; 1]%nat) [k; b; t]%nat /\
    at_ l' [k; b; t; 0]%nat = at_ (zeros 2%R float32 [2; 3; 1]%nat) [k; b; t]%nat /\
    forall d, (d < 5)%nat ->
      at_ o' [k; b; t; d]%nat
      = (at_ (coords float32 [2; 3; 1; 5]%nat) [k; b; t; d]%nat
         * at_ (zeros 2%R float32 [2; 3; 1]%nat) [k; b; t]%nat)%R /\
      (at_ (zeros 2%R float32 [2; 3; 1]%nat) [k; b; t]%nat <> 0%R ->
       at_ (tdiv o' l') [k; b; t; d]%nat
       = at_ (coords float32 [2; 3; 1; 5]%nat) [k; b; t; d]%nat).
Proof.
  exact (@ragged_attention_scales_by_sum fixed_kernel (token 1) (token 1) (token 1)
           _ _ _ (prompt_ids 1) 2 3 1 5 eq_refl eq_refl eq_refl eq_refl).
Defined.

(** ** Precision of the scores *)

Lemma promote_same (d : DType) : promote d d = d.
Proof. destruct d; reflexivity. Qed.

Section ScorePrecision.

Variable ACTIVE : Z.
Variable self : AttentionOp.

Lemma qk_product_dtype (q key a : Tensor R) (t : nat) (mode : Mode) :
  qk_product self q key t mode = ok a -> dtype a = promote (dtype q) (dtype key).
Proof.
  unfold qk_product.
  destruct (shape q) as [|n [|b [|t' [|d [|]]]]]; try discriminate.
  destruct (assert_ _ _); [discriminate|]. cbn [rbind ok].
  unfold ok. intros [= <-]. reflexivity.
Qed.

(** X22.  The element type of the scores and of the returned maxima and
    sums is [float32] in training mode when [float32_qk_product] or
    [float32_logits] is on; in every other case (the flags off, or any
    mode other than training) it is the common type of the query and the
    key.  The unnormalised output has the common type of that and the
    value. *)
Theorem score_precision (q key v o m s : Tensor R) (segs : option (Tensor Z))
    (mode : Mode) :
  apply_attention_dot ACTIVE self q key v segs mode = ok (o, m, s) ->
  let d := if is_train mode && (float32_qk_product self || float32_logits self)
           then float32 else promote (dtype q) (dtype key) in
  dtype m = d /\ dtype s = d /\ dtype o = promote d (dtype v).
Proof.
  unfold apply_attention_dot.
  destruct (validate_compute_axis_order _); [discriminate|]. cbn [rbind ok].
  unfold qk_operands.
  set (cast := is_train mode && float32_qk_product self).
  set (ops := if cast then (astype q float32, astype key float32) else (q, key)).
  assert (Hops : exists q' key', ops = (q', key') /\
            promote (dtype q') (dtype key')
            = if cast then float32 else promote (dtype q) (dtype key)).
  { unfold ops. destruct cast; do 2 eexists; split; reflexivity. }
  destruct Hops as (q' & key' & -> & Hp).
  destruct (qk_product self q' key' (dim q' 2) mode) as [e|a] eqn:Ea; [discriminate|].
  cbn [rbind ok]. apply qk_product_dtype in Ea.
  destruct (generate_attention_mask ACTIVE q' key' segs mode) as [e|mask];
    [discriminate|].
  cbn [rbind ok]. unfold ok. intros H.
  set (a' := if is_train mode && float32_logits self then astype a float32 else a)
    in *.
  set (w := match mask with
            | Some m0 => apply_mask_to_logits a' m0
            | None => a'
            end) in *.
  assert (Hw : dtype w
               = if is_train mode && (float32_qk_product self || float32_logits self)
                 then float32 else promote (dtype q) (dtype key)).
  { assert (Ew : dtype w = dtype a') by (unfold w; destruct mask; reflexivity).
    rewrite Ew. unfold a'. rewrite andb_orb_distrib_r. fold cast.
    destruct (is_train mode && float32_logits self); cbn [astype dtype];
      [rewrite orb_true_r; reflexivity|].
    rewrite orb_false_r, Ea, Hp. reflexivity. }
  cbv zeta. rewrite <- Hw. clear Hw.
  unfold compute_local_attention in H.
  destruct (reshape_q self && (dim q' 2 =? 1)%nat);
    injection H as <- <- <-; cbn; rewrite ?promote_same; auto.
Qed.

End ScorePrecision.

Lemma score_precision_witness :
  exists o m s,
    apply_attention_dot 1 float32_qk_op bf16_tensor bf16_tensor bf16_tensor None
      MODEL_MODE_PREFILL = ok (o, m, s) /\
    dtype m = bfloat16 /\ dtype s = bfloat16 /\ dtype o = bfloat16.
Proof.
  destruct (apply_attention_dot 1 float32_qk_op bf16_tensor bf16_tensor bf16_tensor
              None MODEL_MODE_PREFILL) as [e|[[o m] s]] eqn:H;
    [vm_compute in H; discriminate H|].
  exists o, m, s. split; [reflexivity|].
  exact (@score_precision 1 float32_qk_op bf16_tensor bf16_tensor bf16_tensor
           o m s None MODEL_MODE_PREFILL H).
Defined.

(** ** Prompts of another length than the prefill region *)

Lemma raises_bind {A B} (P : Cache -> Prop) (m : M A) (k : A -> M B) :
  keeps P m -> (forall a, raises_on P (k a)) -> raises_on P (bind m k).
Proof.
  intros Hm Hk c Hc. unfold bind.
  destruct (m c) as [[e|a] c1] eqn:E; [eauto|].
  apply (Hk a c1). exact (Hm _ _ _ Hc E).
Qed.

Lemma raises_bind_val {A B} (P : Cache -> Prop) (Q : A -> Prop)
    (m : M A) (k : A -> M B) :
  keeps P m ->
  (forall c a c', P c -> m c = (inr a, c') -> Q a) ->
  (forall a, Q a -> raises_on P (k a)) -> raises_on P (bind m k).
Proof.
  intros Hm Hq Hk c Hc. unfold bind.
  destruct (m c) as [[e|a] c1] eqn:E; [eauto|].
  apply (Hk a (Hq _ _ _ Hc E) c1). exact (Hm _ _ _ Hc E).
Qed.

Lemma raises_throw {A} (P : Cache -> Prop) (e : Error) : raises_on P (@throw A e).
Proof. intros c _. unfold throw. eauto. Qed.

Lemma raises_massert_false {B} (P : Cache -> Prop) (msg : string) (k : unit -> M B) :
  raises_on P (bind (massert false msg) k).
Proof. intros c _. unfold bind, massert, lift, assert_. cbn. eauto. Qed.

Lemma keeps_of_frames {A} (F : VarName -> bool) (tk : Tensor R) (m : M A) :
  frames F m -> F cached_prefill_key = false -> keeps (prefill_key_is tk) m.
Proof.
  intros Hf Hn c r c' Hc H. unfold prefill_key_is in *.
  rewrite (proj1 (Hf _ _ _ H cached_prefill_key Hn)). exact Hc.
Qed.

Lemma frames_has_variable (F : VarName -> bool) (n : VarName) :
  frames F (has_variable n).
Proof. intros c r c' [= <- <-] m _. auto. Qed.

Lemma frames_throw {A} (F : VarName -> bool) (e : Error) : frames F (@throw A e).
Proof. intros c r c' [= <- <-] m _. auto. Qed.

Section StoredPromptShape.

Variable ACTIVE : Z.
Variable quantize_kv : Tensor R -> nat -> Tensor R * Tensor R.
Variable unquantize_kv : Tensor R -> Tensor R -> DType -> Tensor R.
Variable self : AttentionOp.

Lemma get_prefill_cache_keeps_key (tk : Tensor R) (batch heads kv : nat) (q : bool) :
  keeps (prefill_key_is tk) (_get_prefill_cache self batch heads kv q).
Proof.
  intros c r c' Hc H. unfold prefill_key_is in *.
  unfold _get_prefill_cache in H. unfold bind at 1 in H.
  unfold float_variable at 1 in H. rewrite Hc in H. cbn [ok] in H.
  match type of H with
  | ?m c = _ =>
      assert (Hf : frames (fun n => negb (VarName_eqb n cached_prefill_key)) m)
  end.
  { frames_tac. }
  rewrite (proj1 (Hf _ _ _ H cached_prefill_key eq_refl)). exact Hc.
Qed.

Lemma get_prefill_cache_returns_key (tk : Tensor R) (batch heads kv : nat) (q : bool)
    (c c' : Cache) r :
  prefill_key_is tk c ->
  _get_prefill_cache self batch heads kv q c = (inr r, c') ->
  fst (fst (fst r)) = tk.
Proof.
  unfold prefill_key_is. intros Hc H.
  unfold _get_prefill_cache in H. unfold bind at 1 in H.
  unfold float_variable at 1 in H. rewrite Hc in H. cbn [ok] in H.
  unfold bind, ret in H.
  destruct (float_variable cached_prefill_value _ _ c) as [[e|pv] c1];
    [discriminate|].
  destruct (int_variable cache_prefill_segment_id _ c1) as [[e|ps] c2];
    [discriminate|].
  destruct (quantize_kvcache self).
  - destruct (float_variable cached_prefill_key_scale _ _ c2) as [[e|ks] c3];
      [discriminate|].
    destruct (float_variable cached_prefill_value_scale _ _ c3) as [[e|vs] c4];
      [discriminate|].
    injection H as <- _. reflexivity.
  - injection H as <- _. reflexivity.
Qed.

Lemma stored_shape_mismatch (tk key : Tensor R) (order : list nat)
    (h b s kv h2 b2 kv2 : nat) (P : Z) :
  axis_order_ok order = true ->
  shape key = [h; b; s; kv]%nat ->
  shape tk = shape (reshape_kv_cache key order) ->
  Z.of_nat s <> P ->
  shape_is tk (cached_kv_shape [Z.of_nat h2; Z.of_nat b2; P; Z.of_nat kv2] order)
  = false.
Proof.
  intros Ho Hk Ht Hs. apply not_true_is_false. intros H.
  apply shape_is_true in H. rewrite Ht in H.
  unfold reshape_kv_cache, moveaxis_all, transpose, cached_kv_shape in H.
  cbn [shape] in H. rewrite Hk in H.
  apply axis_order_cases in Ho. cbn in Ho.
  repeat (destruct Ho as [Ho|Ho];
          [rewrite <- Ho in H; cbn in H; injection H as E0 E1 E2 E3; congruence|]).
  contradiction.
Qed.

Ltac keeps_ar :=
  apply (@keeps_of_frames _ is_ar_var);
  [first [apply frames_has_variable|apply frames_throw|frames_tac]|reflexivity].

Lemma prefill_raises_on_stale_key (tk : Tensor R) :
  (forall h2 b2 kv2,
     shape_is tk (cached_kv_shape
                    [Z.of_nat h2; Z.of_nat b2; max_prefill_predict_length self;
                     Z.of_nat kv2] (prefill_cache_axis_order self)) = false) ->
  forall key2 value2 segs2,
    raises_on (prefill_key_is tk)
      (kv_cache_prefill quantize_kv self key2 value2 segs2).
Proof.
  intros Hbad key2 value2 segs2. unfold kv_cache_prefill.
  destruct (shape key2) as [|h [|b [|s [|kv [|]]]]]; try apply raises_throw.
  apply raises_bind; [keeps_ar|intros _].
  apply raises_bind_val with (Q := fun r => fst (fst (fst r)) = tk).
  { apply get_prefill_cache_keeps_key. }
  { intros c a c' Hc H. exact (@get_prefill_cache_returns_key tk _ _ _ _ c c' a Hc H). }
  intros [[pk pv] pseg] Hq. cbn [fst] in Hq.
  apply raises_bind; [keeps_ar|intros init].
  apply raises_bind.
  { apply (@keeps_of_frames _ is_ar_var); [|reflexivity].
    destruct (negb init); [|apply frames_ret].
    apply frames_bind; [apply get_ar_cache_frames|].
    intros [[[[k1 v1] s1] i1] l1]. frames_tac. }
  intros _. rewrite Hq, Hbad. apply raises_massert_false.
Qed.

Lemma update_ar_key_value_frames (key value : Tensor R)
    (kvars vvars : Tensor R * option (Tensor R)) (idx lens : Tensor Z)
    (use_ragged : bool) :
  frames is_ar_var
    (update_ar_key_value quantize_kv unquantize_kv self key value kvars vvars
       idx lens use_ragged).
Proof.
  unfold update_ar_key_value. destruct kvars as [ck cks], vvars as [cv cvs].
  apply frames_bind.
  { destruct (quantize_kvcache self); [|apply frames_ret].
    apply frames_bind; [apply frames_lift|intros ka].
    destruct (quantize_kv _ ka).
    apply frames_bind; [apply frames_lift|intros va].
    destruct (quantize_kv _ va). apply frames_ret. }
  intros [[tk tv] scales].
  apply frames_bind; [apply frames_lift|intros ax].
  apply frames_bind; [apply frames_lift|intros ak'].
  apply frames_bind; [apply frames_assign_float; reflexivity|intros _].
  apply frames_bind; [apply frames_lift|intros ax'].
  apply frames_bind; [apply frames_lift|intros av'].
  apply frames_bind; [apply frames_assign_float; reflexivity|intros _].
  destruct (quantize_kvcache self); [|apply frames_ret].
  destruct scales as [[sk sv]|]; [|apply frames_throw].
  destruct cks as [ks|]; [|apply frames_throw].
  destruct cvs as [vs|]; [|apply frames_throw].
  frames_tac.
Qed.

Lemma decode_raises_on_stale_key (tk : Tensor R) :
  (forall h2 b2 kv2,
     shape_is tk (cached_kv_shape
                    [Z.of_nat h2; Z.of_nat b2; max_prefill_predict_length self;
                     Z.of_nat kv2] (prefill_cache_axis_order self)) = false) ->
  forall key value use_ragged,
    raises_on (prefill_key_is tk)
      (kv_cache_autoregressive ACTIVE quantize_kv unquantize_kv self key value
         use_ragged).
Proof.
  intros Hbad key value ur. unfold kv_cache_autoregressive.
  destruct (shape key) as [|h [|b [|s [|kv [|]]]]]; try apply raises_throw.
  destruct (negb (s =? 1)%nat); [apply raises_throw|].
  apply raises_bind; [keeps_ar|intros init].
  destruct (negb init); [apply raises_throw|].
  apply raises_bind;
    [apply (@keeps_of_frames _ is_ar_var);
     [apply get_ar_cache_frames|reflexivity]|].
  intros [[[[kvar vvar] seg] idx] lens].
  apply raises_bind; [keeps_ar|intros _].
  apply raises_bind; [keeps_ar|intros _].
  apply raises_bind;
    [apply (@keeps_of_frames _ is_ar_var);
     [apply update_ar_key_value_frames|reflexivity]|].
  intros [rk rv].
  apply raises_bind; [keeps_ar|intros seg'].
  apply raises_bind; [keeps_ar|intros _].
  apply raises_bind; [keeps_ar|intros _].
  apply raises_bind; [keeps_ar|intros _].
  apply raises_bind_val with (Q := fun r => fst (fst (fst r)) = tk).
  { apply get_prefill_cache_keeps_key. }
  { intros c a c' Hc H. exact (@get_prefill_cache_returns_key tk _ _ _ _ c c' a Hc H). }
  intros [[pk pv] pseg] Hq. cbn [fst] in Hq.
  rewrite Hq, Hbad. apply raises_massert_false.
Qed.

Lemma prefill_token_shape (key tk : Tensor R) :
  shape_preserving quantize_kv ->
  prefill_token quantize_kv self key = ok tk ->
  shape tk = shape (reshape_kv_cache key (prefill_cache_axis_order self)).
Proof.
  intros Hq. unfold prefill_token.
  destruct (quantize_kvcache self).
  - destruct (index_in_layout CACHE_KV _) as [e|a]; [discriminate|].
    cbn [rbind]. unfold ok. intros [= <-]. apply Hq.
  - unfold ok. intros [= <-]. reflexivity.
Qed.

(** X23.  The prefill does not check the length of the prompt against
    [max_prefill_predict_length], but every later call asserts that the
    stored prompt has that length: after a successful prefill with a
    prompt of any other length, no prefill and no decode call on the
    resulting cache returns; each raises. *)
Theorem other_prompt_length_blocks_later_calls (key value : Tensor R)
    (segs : option (Tensor Z)) (c0 c1 : Cache) out (h b s kv : nat) :
  axis_order_ok (prefill_cache_axis_order self) = true ->
  shape_preserving quantize_kv ->
  shape key = [h; b; s; kv]%nat ->
  Z.of_nat s <> max_prefill_predict_length self ->
  kv_cache_prefill quantize_kv self key value segs c0 = (inr out, c1) ->
  (forall key2 value2 segs2,
     exists e c2,
       kv_cache_prefill quantize_kv self key2 value2 segs2 c1 = (inl e, c2)) /\
  (forall key2 value2 use_ragged,
     exists e c2,
       kv_cache_autoregressive ACTIVE quantize_kv unquantize_kv self key2 value2
         use_ragged c1 = (inl e, c2)).
Proof.
  intros Ho Hq Hk Hs H.
  destruct (prefill_effect _ _ _ _ _ _ H)
    as (tk & tv & _ & Etk & _ & Lk & _).
  pose proof (@prefill_token_shape key tk Hq Etk) as St.
  assert (Hbad : forall h2 b2 kv2,
            shape_is tk (cached_kv_shape
                           [Z.of_nat h2; Z.of_nat b2; max_prefill_predict_length self;
                            Z.of_nat kv2] (prefill_cache_axis_order self)) = false).
  { intros h2 b2 kv2. exact (@stored_shape_mismatch tk key _ h b s kv h2 b2 kv2 _
                               Ho Hk St Hs). }
  split.
  - intros key2 value2 segs2.
    exact (@prefill_raises_on_stale_key tk Hbad key2 value2 segs2 c1 Lk).
  - intros key2 value2 ur.
    exact (@decode_raises_on_stale_key tk Hbad key2 value2 ur c1 Lk).
Qed.

End StoredPromptShape.

Lemma short_prompt_runs :
  kv_cache_prefill no_quantize example_op short_prompt short_prompt None empty_cache
  = (inr (short_prompt, short_prompt, None), cache_after_short_prompt).
Proof. vm_compute. reflexivity. Qed.

Lemma other_prompt_length_witness :
  (forall key2 value2 segs2,
     exists e c2,
       kv_cache_prefill no_quantize example_op key2 value2 segs2
         cache_after_short_prompt = (inl e, c2)) /\
  (forall key2 value2 use_ragged,
     exists e c2,
       kv_cache_autoregressive 1 no_quantize no_unquantize example_op key2 value2
         use_ragged cache_after_short_prompt = (inl e, c2)).
Proof.
  apply (@other_prompt_length_blocks_later_calls 1 no_quantize no_unquantize
           example_op short_prompt short_prompt None empty_cache
           cache_after_short_prompt (short_prompt, short_prompt, None) 1 1 2 1
           eq_refl no_quantize_shape_preserving eq_refl).
  - cbn. lia.
  - exact short_prompt_runs.
Defined.

(** ** A run of decode calls from an empty region *)

Section DecodeRunContents.

Variable ACTIVE : Z.
Variable quantize_kv : Tensor R -> nat -> Tensor R * Tensor R.
Variable unquantize_kv : Tensor R -> Tensor R -> DType -> Tensor R.
Variable self : AttentionOp.
Hypothesis layout : standard_layout self.
Hypothesis unquantised : quantize_kvcache self = false.
Hypothesis capacity : (0 < ar_capacity self < 2 ^ 31)%Z.

(** One decode call, read in the logical layout: the cursor slot takes the
    token and the marker, every other slot keeps what it held. *)
Lemma decode_step_contents (key value : Tensor R) (use_ragged : bool)
    (c c' : Cache) out (ak av : Tensor R) (seg idx lens : Tensor Z)
    (heads batch kv : nat) :
  ar_allocated self c ak av seg idx lens ->
  shape key = [heads; batch; 1; kv]%nat -> shape value = [heads; batch; 1; kv]%nat ->
  shape seg = [batch; Z.to_nat (ar_capacity self)] ->
  (0 <= item idx < ar_capacity self)%Z ->
  (use_ragged = true ->
   shape lens = [batch] /\
   forall b, (b < batch)%nat -> at_ lens [b] = item idx) ->
  kv_cache_autoregressive ACTIVE quantize_kv unquantize_kv self key value
    use_ragged c = (inr out, c') ->
  exists ak' av' seg',
    ar_allocated self c' ak' av' seg' (advance_index self idx) (advance_lengths lens) /\
    shape seg' = shape seg /\
    forall h b q d,
      (h < heads)%nat -> (b < batch)%nat -> (Z.of_nat q < ar_capacity self)%Z ->
      (d < kv)%nat ->
      at_ (revert_kv_cache ak' (ar_cache_axis_order self)) [h; b; q; d]%nat
      = (if (q =? Z.to_nat (item idx))%nat then at_ key [h; b; 0; d]%nat
         else at_ (revert_kv_cache ak (ar_cache_axis_order self)) [h; b; q; d]%nat) /\
      at_ (revert_kv_cache av' (ar_cache_axis_order self)) [h; b; q; d]%nat
      = (if (q =? Z.to_nat (item idx))%nat then at_ value [h; b; 0; d]%nat
         else at_ (revert_kv_cache av (ar_cache_axis_order self)) [h; b; q; d]%nat) /\
      at_ seg' [b; q]%nat
      = (if (q =? Z.to_nat (item idx))%nat then wrap32 (0 + ACTIVE)
         else at_ seg [b; q]%nat).
Proof.
  intros Ha Hk Hv Hseg Hidx Hrag H.
  destruct (@decode_effect ACTIVE quantize_kv unquantize_kv self key value
              use_ragged c c' ak av seg idx lens out Ha H)
    as (heads0 & batch0 & kv0 & axis & tokk & tokv & ak1 & av1 & seg1 & Hk0 & Hax
        & Tk & Tv & Wk & Wv & Ws & Ha1 & _ & _ & Sk & Sv).
  rewrite Hk in Hk0. injection Hk0 as <- <- <-.
  destruct (@unquantised_token quantize_kv self key tokk unquantised Tk) as [Etk Tk'].
  destruct (@unquantised_token quantize_kv self value tokv unquantised Tv) as [Etv Tv'].
  destruct (@token_fills_one_slot no_quantize self layout no_quantize_shape_preserving
              key tokk ak _ _ _ _ Hk Hax Tk' Sk) as (Ek & Lk & Ck & Zk).
  destruct (@token_fills_one_slot no_quantize self layout no_quantize_shape_preserving
              value tokv av _ _ _ _ Hv Hax Tv' Sv) as (Ev & Lv & Cv & Zv).
  assert (Sw : slot_written ak ak1 tokk axis (Z.to_nat (item idx)) /\
               slot_written av av1 tokv axis (Z.to_nat (item idx))).
  { split.
    - apply (@write_token_slot _ _ _ _ _ _ _ Wk); [exact Ek|exact Lk|lia|].
      intros ->. destruct (Hrag eq_refl) as [Sl Hall]. rewrite Sl. cbn [nth].
      split; [exact Hall|exact Zk].
    - apply (@write_token_slot _ _ _ _ _ _ _ Wv); [exact Ev|exact Lv|lia|].
      intros ->. destruct (Hrag eq_refl) as [Sl Hall]. rewrite Sl. cbn [nth].
      split; [exact Hall|exact Zv]. }
  destruct Sw as [(_ & _ & Pk) (_ & _ & Pv)].
  assert (Wseg : slot_written seg seg1 (active_indicator ACTIVE batch) 1
                   (Z.to_nat (item idx))).
  { apply dynamic_update_writes_slot;
      [exact Ws|rewrite Hseg; reflexivity|rewrite Hseg; simpl; lia|].
    rewrite Hseg. cbn [nth]. lia. }
  destruct Wseg as (Ss & _ & Ps).
  exists ak1, av1, seg1. split; [exact Ha1|]. split; [exact Ss|].
  intros h b q d Hh Hb Hq' Hd.
  pose proof (proj2 layout) as Ho.
  destruct (@cache_position_sequence self axis ak heads batch kv _ h b q d
              layout Hax Sk Hh Hb Hq' Hd) as (Bk & Nk & Zk0).
  destruct (@cache_position_sequence self axis av heads batch kv _ h b q d
              layout Hax Sv Hh Hb Hq' Hd) as (Bv & _ & _).
  rewrite !(fun y => @revert_kv_cache_at y _ h b q d Ho).
  rewrite (Pk _ Bk), (Pv _ Bv), Nk, Zk0, Etk, Etv.
  rewrite !(fun x => @reshape_kv_cache_at x _ h b 0%nat d Ho).
  split; [reflexivity|]. split; [reflexivity|].
  rewrite (Ps [b; q]%nat).
  - cbn [nth]. reflexivity.
  - rewrite Hseg. cbn [in_bounds]. repeat split; lia.
Qed.

(** A run of decode calls that starts with [n] tokens in the region and
    ends inside it: the slots from [n] on take the tokens in order, every
    other slot keeps what it held. *)
Lemma decode_run_contents (use_ragged : bool) (heads batch kv : nat)
    (tokens : list (Tensor R * Tensor R)) :
  forall (c c' : Cache) (ak av : Tensor R) (seg idx lens : Tensor Z) (n : nat),
    ar_allocated self c ak av seg idx lens ->
    shape seg = [batch; Z.to_nat (ar_capacity self)] ->
    shape lens = [batch] ->
    item idx = (Z.of_nat n mod ar_capacity self)%Z ->
    (forall b, (b < batch)%nat -> at_ lens [b] = Z.of_nat n) ->
    (Z.of_nat (n + length tokens) <= ar_capacity self)%Z ->
    Forall (fun t => shape (fst t) = [heads; batch; 1; kv]%nat /\
                     shape (snd t) = [heads; batch; 1; kv]%nat) tokens ->
    decode_all ACTIVE quantize_kv unquantize_kv self use_ragged tokens c
      = (inr tt, c') ->
    exists ak' av' seg' idx' lens',
      ar_allocated self c' ak' av' seg' idx' lens' /\
      (forall j t h b d,
         nth_error tokens j = Some t ->
         (h < heads)%nat -> (b < batch)%nat -> (d < kv)%nat ->
         at_ (revert_kv_cache ak' (ar_cache_axis_order self)) [h; b; n + j; d]%nat
         = at_ (fst t) [h; b; 0; d]%nat /\
         at_ (revert_kv_cache av' (ar_cache_axis_order self)) [h; b; n + j; d]%nat
         = at_ (snd t) [h; b; 0; d]%nat /\
         at_ seg' [b; n + j]%nat = wrap32 (0 + ACTIVE)) /\
      (forall h b q d,
         (h < heads)%nat -> (b < batch)%nat -> (Z.of_nat q < ar_capacity self)%Z ->
         (d < kv)%nat -> (q < n \/ n + length tokens <= q)%nat ->
         at_ (revert_kv_cache ak' (ar_cache_axis_order self)) [h; b; q; d]%nat
         = at_ (revert_kv_cache ak (ar_cache_axis_order self)) [h; b; q; d]%nat /\
         at_ (revert_kv_cache av' (ar_cache_axis_order self)) [h; b; q; d]%nat
         = at_ (revert_kv_cache av (ar_cache_axis_order self)) [h; b; q; d]%nat /\
         at_ seg' [b; q]%nat = at_ seg [b; q]%nat).
Proof.
  induction tokens as [|[key value] rest IH];
    intros c c' ak av seg idx lens n Ha Hseg Hlens Hidx Hall Hfit Hsh H.
  - cbn in H. injection H as <-. exists ak, av, seg, idx, lens.
    split; [exact Ha|]. split.
    + intros j t h b d E. destruct j; discriminate E.
    + intros. repeat split; reflexivity.
  - cbn [decode_all] in H. cbn [length] in Hfit.
    destruct (kv_cache_autoregressive ACTIVE quantize_kv unquantize_kv self
                key value use_ragged c) as [[e|out] c1] eqn:E; [discriminate|].
    inversion Hsh as [|t l [Hk Hv] Hrest]; subst t l. cbn [fst snd] in Hk, Hv.
    assert (Hp : item idx = Z.of_nat n) by (rewrite Hidx; apply Z.mod_small; lia).
    destruct (@decode_step_contents key value use_ragged c c1 out ak av seg idx lens
                heads batch kv Ha Hk Hv Hseg ltac:(lia)
                ltac:(intros _; split; [exact Hlens|intros b Hb; rewrite Hp; auto]) E)
      as (ak1 & av1 & seg1 & Ha1 & Ss1 & P1).
    rewrite Hp, Nat2Z.id in P1.
    destruct (IH c1 c' ak1 av1 seg1 (advance_index self idx) (advance_lengths lens)
                (S n) Ha1) as (ak' & av' & seg' & idx' & lens' & Ha' & Pa & Pb).
    + rewrite Ss1. exact Hseg.
    + exact Hlens.
    + destruct (@cursor_step self idx capacity ltac:(lia)) as [Ec _].
      rewrite Ec, Hp. f_equal. lia.
    + intros b Hb. rewrite lengths_step, (Hall b Hb), wrap32_id by lia. lia.
    + lia.
    + exact Hrest.
    + exact H.
    + exists ak', av', seg', idx', lens'. split; [exact Ha'|]. split.
      * intros j t h b d Et Hh Hb Hd. destruct j as [|j].
        -- cbn in Et. injection Et as <-. cbn [fst snd]. rewrite Nat.add_0_r.
           destruct (Pb h b n d Hh Hb ltac:(lia) Hd ltac:(lia)) as (-> & -> & ->).
           destruct (P1 h b n d Hh Hb ltac:(lia) Hd) as (-> & -> & ->).
           rewrite Nat.eqb_refl. repeat split; reflexivity.
        -- cbn in Et. replace (n + S j)%nat with (S n + j)%nat by lia.
           exact (Pa j t h b d Et Hh Hb Hd).
      * intros h b q d Hh Hb Hq Hd Hout. cbn [length] in Hout.
        destruct (Pb h b q d Hh Hb Hq Hd ltac:(lia)) as (-> & -> & ->).
        destruct (P1 h b q d Hh Hb Hq Hd) as (-> & -> & ->).
        replace (q =? n)%nat with false by (symmetry; apply Nat.eqb_neq; lia).
        repeat split; reflexivity.
Qed.

(** X24.  With an unquantised cache in the standard layout, a first
    prefill followed by a run of decode calls that fits the region leaves
    the tokens in the region in the order of the calls: slot [j] holds the
    key and the value of the [j]-th token and carries the marker, and every
    slot behind the last token holds zeros and no marker.  This is so in
    indexed mode, and in ragged mode for tokens of the element type of the
    region, which are stored without conversion. *)
Theorem decoded_tokens_fill_region_in_order (pkey pvalue : Tensor R)
    (segs : option (Tensor Z)) (use_ragged : bool)
    (tokens : list (Tensor R * Tensor R)) (c0 c1 c2 : Cache) out
    (heads batch sequence kv : nat) :
  (forall n, is_ar_var n = true -> float_vars c0 n = None /\ int_vars c0 n = None) ->
  shape pkey = [heads; batch; sequence; kv]%nat ->
  kv_cache_prefill quantize_kv self pkey pvalue segs c0 = (inr out, c1) ->
  Forall (fun t => shape (fst t) = [heads; batch; 1; kv]%nat /\
                   shape (snd t) = [heads; batch; 1; kv]%nat) tokens ->
  (use_ragged = true ->
   Forall (fun t => dtype (fst t) = cache_dtype (quantize_kvcache self) /\
                    dtype (snd t) = cache_dtype (quantize_kvcache self)) tokens) ->
  (Z.of_nat (length tokens) <= ar_capacity self)%Z ->
  decode_all ACTIVE quantize_kv unquantize_kv self use_ragged tokens c1
    = (inr tt, c2) ->
  exists ak av seg,
    float_vars c2 cached_ar_key = Some ak /\
    float_vars c2 cached_ar_value = Some av /\
    int_vars c2 cache_ar_segment_id = Some seg /\
    (forall j t h b d,
       nth_error tokens j = Some t ->
       (h < heads)%nat -> (b < batch)%nat -> (d < kv)%nat ->
       at_ (revert_kv_cache ak (ar_cache_axis_order self)) [h; b; j; d]%nat
       = at_ (fst t) [h; b; 0; d]%nat /\
       at_ (revert_kv_cache av (ar_cache_axis_order self)) [h; b; j; d]%nat
       = at_ (snd t) [h; b; 0; d]%nat /\
       at_ seg [b; j]%nat = wrap32 (0 + ACTIVE)) /\
    (forall h b q d,
       (h < heads)%nat -> (b < batch)%nat -> (d < kv)%nat ->
       (length tokens <= q)%nat -> (Z.of_nat q < ar_capacity self)%Z ->
       at_ (revert_kv_cache ak (ar_cache_axis_order self)) [h; b; q; d]%nat = 0%R /\
       at_ (revert_kv_cache av (ar_cache_axis_order self)) [h; b; q; d]%nat = 0%R /\
       at_ seg [b; q]%nat = 0%Z).
Proof.
  intros Hnone Hk Hpre Hsh Hty Hfit Hrun.
  destruct (prefill_effect _ _ _ _ _ _ Hpre)
    as (tk & tv & _ & _ & _ & _ & _ & _ & cm & E1 & _ & E3).
  assert (Hd : defined c0 cache_ar_index = false).
  { unfold defined. cbn [is_int_var].
    rewrite (proj2 (Hnone cache_ar_index eq_refl)). reflexivity. }
  destruct (E3 Hd) as (batch0 & heads0 & kv0 & r & cf & F1 & Hget & Hb & Hh & Hkv).
  rewrite Hk in Hb, Hh, Hkv. cbn [nth] in Hb, Hh, Hkv. subst batch0 heads0 kv0.
  assert (Hnone1 : forall n, is_ar_var n = true ->
            float_vars cf n = None /\ int_vars cf n = None).
  { intros n Hn. destruct (F1 n Hn) as [F I]. destruct (Hnone n Hn) as [F' I'].
    split; congruence. }
  destruct (@get_ar_cache_fresh_arrays self batch heads kv _ cf cm r Hnone1 Hget)
    as (ak0 & av0 & seg0 & idx0 & lens0 & Ha0 & _ & _ & _ & _ & Zk & Zv & Ss & Zs
        & Sl & Zl & Si & Zi).
  assert (Ha1 : ar_allocated self c1 ak0 av0 seg0 idx0 lens0)
    by (apply (ar_allocated_transfer (c := cm)); [exact E1|exact Ha0]).
  assert (Ss' : shape seg0 = [batch; Z.to_nat (ar_capacity self)]).
  { destruct (shape seg0) as [|x [|y [|z l]]]; try discriminate Ss.
    injection Ss as Ex Ey. f_equal; [lia|]. f_equal. lia. }
  destruct (@decode_run_contents use_ragged heads batch kv tokens c1 c2
              ak0 av0 seg0 idx0 lens0 0%nat Ha1 Ss' Sl)
    as (ak & av & seg & idx & lens & Ha & Pa & Pb).
  - unfold item. rewrite Zi. rewrite Z.mod_0_l by lia. reflexivity.
  - intros b _. rewrite Zl. reflexivity.
  - cbn [Nat.add]. exact Hfit.
  - exact Hsh.
  - exact Hrun.
  - exists ak, av, seg.
    split; [exact (alloc_key Ha)|]. split; [exact (alloc_value Ha)|].
    split; [exact (alloc_segment Ha)|]. split.
    + intros j t h b d Et Hh0 Hb0 Hd0. exact (Pa j t h b d Et Hh0 Hb0 Hd0).
    + intros h b q d Hh0 Hb0 Hd0 Hq Hc.
      destruct (Pb h b q d Hh0 Hb0 Hc Hd0 ltac:(right; cbn [Nat.add]; exact Hq))
        as (-> & -> & ->).
      pose proof (proj2 layout) as Ho.
      rewrite !(fun y => @revert_kv_cache_at y _ h b q d Ho).
      rewrite Zk, Zv, Zs. repeat split; reflexivity.
Qed.

End DecodeRunContents.

Lemma decoded_tokens_fill_region_witness :
  exists c2,
    decode_all 1 no_quantize no_unquantize example_op true
      [(token 5, token 6); (token 7, token 8)] cache_after_varied_prompt
    = (inr tt, c2) /\
    exists ak av seg,
      float_vars c2 cached_ar_key = Some ak /\
      float_vars c2 cached_ar_value = Some av /\
      int_vars c2 cache_ar_segment_id = Some seg /\
      (forall j t h b d,
         nth_error [(token 5, token 6); (token 7, token 8)] j = Some t ->
         (h < 1)%nat -> (b < 1)%nat -> (d < 1)%nat ->
         at_ (revert_kv_cache ak (ar_cache_axis_order example_op)) [h; b; j; d]%nat
         = at_ (fst t) [h; b; 0; d]%nat /\
         at_ (revert_kv_cache av (ar_cache_axis_order example_op)) [h; b; j; d]%nat
         = at_ (snd t) [h; b; 0; d]%nat /\
         at_ seg [b; j]%nat = wrap32 (0 + 1)) /\
      (forall h b q d,
         (h < 1)%nat -> (b < 1)%nat -> (d < 1)%nat ->
         (length [(token 5, token 6); (token 7, token 8)] <= q)%nat ->
         (Z.of_nat q < ar_capacity example_op)%Z ->
         at_ (revert_kv_cache ak (ar_cache_axis_order example_op)) [h; b; q; d]%nat
         = 0%R /\
         at_ (revert_kv_cache av (ar_cache_axis_order example_op)) [h; b; q; d]%nat
         = 0%R /\
         at_ seg [b; q]%nat = 0%Z).
Proof.
  destruct (decode_all 1 no_quantize no_unquantize example_op true
              [(token 5, token 6); (token 7, token 8)] cache_after_varied_prompt)
    as [[e|[]] c2] eqn:Hrun; [vm_compute in Hrun; discriminate Hrun|].
  exists c2. split; [reflexivity|].
  apply (@decoded_tokens_fill_region_in_order 1 no_quantize no_unquantize example_op
           example_op_standard_layout eq_refl
           ltac:(unfold ar_capacity; cbn; lia)
           varied_prompt varied_prompt (Some (prompt_ids 1)) true
           [(token 5, token 6); (token 7, token 8)]
           empty_cache cache_after_varied_prompt c2
           (varied_prompt, varied_prompt, Some (prompt_ids 1)) 1 1 4 1).
  - intros n _. split; reflexivity.
  - reflexivity.
  - exact varied_prompt_runs.
  - repeat constructor.
  - intros _. repeat constructor.
  - unfold ar_capacity. cbn. lia.
  - exact Hrun.
Defined.

(** ** What a call without a decode step returns *)

Section CausalSoftmax.

Variable ACTIVE : Z.
Variable quantize_kv : Tensor R -> nat -> Tensor R * Tensor R.
Variable unquantize_kv : Tensor R -> Tensor R -> DType -> Tensor R.
Variable kernel : Tensor R -> Tensor R -> Tensor R -> Tensor Z ->
                  Tensor R * Tensor R * Tensor R.
Variable self : AttentionOp.

(** Outside autoregressive mode a successful cache update hands the key,
    the value and the segment ids on as they came in. *)
Lemma kv_cache_hands_on (key value : Tensor R) (segs : option (Tensor Z))
    (model_mode : Mode) (use_ragged : bool) (c c' : Cache) kvs :
  is_autoregressive model_mode = false ->
  kv_cache ACTIVE quantize_kv unquantize_kv self key value segs model_mode
    use_ragged c = (inr kvs, c') ->
  kvs = ((key, value, segs), None).
Proof.
  intros Hm H. unfold kv_cache in H.
  destruct (negb _); [discriminate|].
  destruct model_mode; try discriminate.
  - unfold ret, ok in H. injection H as <- _. reflexivity.
  - apply bind_ok_inv in H. destruct H as (r & c1 & Hpre & H).
    destruct (prefill_effect _ _ _ _ _ _ Hpre) as (tk & tv & -> & _).
    unfold ret, ok in H. injection H as <- _. reflexivity.
Qed.

(** X25.  In train and in prefill mode, once the cache update has gone
    through, [__call__] returns the masked softmax attention: the entry
    for query position [i] is the mean of the value rows weighted with the
    exponentials of the masked scores of row [i], taken relative to the
    largest of them. *)
Theorem call_without_decode_is_masked_softmax
    (q key v : Tensor R) (segs : option (Tensor Z)) (model_mode : Mode)
    (c c' : Cache) kvs (K B T D : nat) :
  is_autoregressive model_mode = false ->
  validate_compute_axis_order (compute_axis_order self) = ok tt ->
  shape q = [K; B; T; D]%nat -> shape key = [K; B; T; D]%nat ->
  shape v = [K; B; T; D]%nat ->
  num_kv_heads self = K -> (0 < K)%nat -> (0 < T)%nat ->
  match segs with Some ids => shape ids = [B; T]%nat | None => True end ->
  kv_cache ACTIVE quantize_kv unquantize_kv self key v segs model_mode true c
    = (inr kvs, c') ->
  exists res,
    __call__ ACTIVE quantize_kv unquantize_kv kernel self q key v segs model_mode c
      = (inr res, c') /\
    shape res
      = [K; if reshape_q self && (T =? 1)%nat then Nat.min 1 B else B; T; D]%nat /\
    forall k b i d,
      (k < K)%nat -> (b < nth 1 (shape res) 0)%nat -> (i < T)%nat -> (d < D)%nat ->
      let score := masked_logit q key segs k b i in
      let top := Rmax_upto score (T - 1) in
      at_ res [k; b; i; d]%nat
      = (Rsum_n (fun j => exp (score j - top) * at_ v [k; b; j; d]%nat) T
         / Rsum_n (fun j => exp (score j - top)) T)%R.
Proof.
  intros Hm Hval Hq Hk Hv Hn HK HT Hs Hc.
  pose proof (@kv_cache_hands_on key v segs model_mode true c c' kvs Hm Hc) as ->.
  destruct (apply_attention_dot_spec ACTIVE self q key v segs model_mode
              Hm Hval Hq Hk Hn HK Hs) as (w & Ew & Sw & Aw).
  pose proof (compute_local_attention_spec self w v T model_mode Sw Hv) as C.
  cbv zeta in C.
  unfold __call__. unfold bind at 1. rewrite Hc.
  unfold bind at 1. unfold lift at 1. unfold apply_attention at 1.
  rewrite (check_attention_inputs_ok q key v Hq Hk Hv).
  cbn [rbind ok]. rewrite Hm. cbn [andb]. rewrite Ew.
  destruct (compute_local_attention self w v T model_mode) as [[o m] s].
  unfold ok, ret. cbv beta iota.
  set (B' := if reshape_q self && (T =? 1)%nat then Nat.min 1 B else B) in *.
  assert (HB' : forall b, (b < B')%nat -> (b < B)%nat).
  { intros b. unfold B'. destruct (reshape_q self && (T =? 1)%nat); lia. }
  destruct C as (So & _ & Ss & R1).
  destruct (arith2_stat_r Rdiv o s So Ss) as [Sdiv Adiv].
  exists (tdiv o s). split; [reflexivity|]. split; [exact Sdiv|].
  intros k b i d Hk0 Hb Hi Hd.
  set (score := masked_logit q key segs k b i).
  set (top := Rmax_upto score (T - 1)).
  unfold tdiv in *. rewrite Sdiv in Hb. cbn [nth] in Hb.
  rewrite Adiv by assumption.
  destruct (R1 k b i Hk0 (HB' b Hb) Hi) as (E1m & E1s & E1o).
  rewrite E1s, (E1o d Hd).
  assert (Etop : row_max w k b i = top).
  { unfold row_max, top, dim. rewrite Sw. cbn [nth].
    apply Rmax_upto_ext. intros j Hj. apply Aw; try assumption; [auto|lia]. }
  unfold row_sum, row_out. rewrite Etop. unfold dim. rewrite Sw. cbn [nth].
  f_equal.
  - apply Rsum_n_ext. intros j Hj. unfold score.
    rewrite Aw by (try assumption; auto). reflexivity.
  - apply Rsum_n_ext. intros j Hj. unfold score.
    rewrite Aw by (try assumption; auto). reflexivity.
Qed.

End CausalSoftmax.

Lemma call_without_decode_witness :
  exists res,
    __call__ 1 no_quantize no_unquantize unused_kernel example_op
      (coords bfloat16 [1; 2; 3; 2]%nat) (coords bfloat16 [1; 2; 3; 2]%nat)
      (coords bfloat16 [1; 2; 3; 2]%nat) None MODEL_MODE_TRAIN empty_cache
      = (inr res, empty_cache) /\
    shape res
      = [1; if reshape_q example_op && (3 =? 1)%nat then Nat.min 1 2 else 2; 3; 2]%nat /\
    forall k b i d,
      (k < 1)%nat -> (b < nth 1 (shape res) 0)%nat -> (i < 3)%nat -> (d < 2)%nat ->
      let score := masked_logit (coords bfloat16 [1; 2; 3; 2]%nat)
                     (coords bfloat16 [1; 2; 3; 2]%nat) None k b i in
      let top := Rmax_upto score (3 - 1) in
      at_ res [k; b; i; d]%nat
      = (Rsum_n (fun j => exp (score j - top)
                          * at_ (coords bfloat16 [1; 2; 3; 2]%nat) [k; b; j; d]%nat) 3
         / Rsum_n (fun j => exp (score j - top)) 3)%R.
Proof.
  apply (@call_without_decode_is_masked_softmax 1 no_quantize no_unquantize
           unused_kernel example_op
           (coords bfloat16 [1; 2; 3; 2]%nat) (coords bfloat16 [1; 2; 3; 2]%nat)
           (coords bfloat16 [1; 2; 3; 2]%nat) None MODEL_MODE_TRAIN
           empty_cache empty_cache
           ((coords bfloat16 [1; 2; 3; 2]%nat, coords bfloat16 [1; 2; 3; 2]%nat, None),
            None)
           1 2 3 2 eq_refl eq_refl eq_refl eq_refl eq_refl eq_refl);
    [lia|lia|exact I|reflexivity].
Defined.

(** ** C10: the entry point always uses ragged addressing *)

(** C10 (amended).  [__call__] passes the constant [True] as the ragged
    flag, whatever the configuration: in every mode the cache it leaves is
    the one its cache update leaves with the flag set, so the indexed mode
    is out of its reach.  A successful decode through it writes the
    token's key and value at the positions held by the length counters
    and nowhere else (a counter outside the region addresses no position),
    and its result is the merge of what the ragged kernel returns on the
    prefill region, with the row sums of the stored segment ids as
    lengths, and on the autoregressive region with the token in it, with
    the advanced length counters as lengths. *)
Theorem entry_point_always_ragged
    (ACTIVE : Z) (quantize_kv : Tensor R -> nat -> Tensor R * Tensor R)
    (unquantize_kv : Tensor R -> Tensor R -> DType -> Tensor R)
    (kernel : Tensor R -> Tensor R -> Tensor R -> Tensor Z ->
              Tensor R * Tensor R * Tensor R)
    (self : AttentionOp) (query key value : Tensor R) (segs : option (Tensor Z)) :
  standard_layout self ->
  shape_preserving quantize_kv ->
  (forall mode c,
     snd (__call__ ACTIVE quantize_kv unquantize_kv kernel self query key value
            segs mode c)
     = snd (kv_cache ACTIVE quantize_kv unquantize_kv self key value segs mode
              true c)) /\
  (forall c res c' ak av seg idx lens,
     ar_allocated self c ak av seg idx lens ->
     __call__ ACTIVE quantize_kv unquantize_kv kernel self query key value segs
       MODEL_MODE_AUTOREGRESSIVE c = (inr res, c') ->
     exists pk pv pids ark arv arseg axis tokk tokv ak' av',
       kv_cache_autoregressive ACTIVE quantize_kv unquantize_kv self key value
         true c
       = (inr ((pk, pv, pids), (ark, arv, arseg, advance_lengths lens)), c') /\
       ar_seq_axis self = ok axis /\
       token_for_cache quantize_kv self key = ok tokk /\
       token_for_cache quantize_kv self value = ok tokv /\
       float_vars c' cached_ar_key = Some ak' /\
       float_vars c' cached_ar_value = Some av' /\
       ragged_written ak ak' tokk axis lens /\
       ragged_written av av' tokv axis lens /\
       (quantize_kvcache self = false ->
        ark = revert_kv_cache ak' (ar_cache_axis_order self) /\
        arv = revert_kv_cache av' (ar_cache_axis_order self)) /\
       exists o1 m1 l1 o2 m2 l2,
         kernel query pk pv (sum_last_int pids) = (o1, m1, l1) /\
         kernel query ark arv (advance_lengths lens) = (o2, m2, l2) /\
         normalize_attention
           [tmul o1 (expand_dims_last l1); tmul o2 (expand_dims_last l2)]
           [expand_dims_last m1; expand_dims_last m2]
           [expand_dims_last l1; expand_dims_last l2] = ok res).
Proof.
  intros Hlay Hq.
  split; [intros mode c; apply call_cache_effect|].
  intros c res c' ak av seg idx lens Ha H. unfold __call__, kv_cache in H.
  unfold list_nat_eqb in H.
  destruct (list_eq_dec Nat.eq_dec (shape key) (shape value)) as [Hsh|];
    [|discriminate].
  cbn [negb] in H.
  apply bind_ok_inv in H. destruct H as ([[[pk pv] pids] ar] & c1 & Hkv & H).
  apply bind_ok_inv in Hkv.
  destruct Hkv as ([[[pk0 pv0] pids0] [[[ark arv] arseg] arl]] & c2 & Hdec & Hret).
  unfold ret in Hret. injection Hret as <- <- <- <- <-.
  unfold bind, lift, apply_attention in H. cbn [andb is_autoregressive] in H.
  destruct (check_attention_inputs query pk0 pv0) as [e|u]; [discriminate|].
  cbn [rbind ok] in H. unfold ragged_attention in H.
  destruct (kernel query pk0 pv0 (sum_last_int pids0)) as [[o1 m1] l1] eqn:K1.
  destruct (check_attention_inputs query ark arv) as [e|u']; [discriminate|].
  cbn [rbind ok] in H.
  destruct (kernel query ark arv arl) as [[o2 m2] l2] eqn:K2.
  destruct (normalize_attention _ _ _) as [e|r] eqn:N; [discriminate|].
  injection H as <- <-.
  destruct (@decode_effect ACTIVE quantize_kv unquantize_kv self key value
              true c c2 ak av seg idx lens _ Ha Hdec)
    as (heads & batch & kv & axis & tokk & tokv & ak1 & av1 & seg1 & Hk & Hax & Tk
        & Tv & Wk & Wv & _ & Ha1 & El & _ & Sk & Sv).
  cbn [snd fst] in El. subst arl.
  assert (Hv : shape value = [heads; batch; 1; kv]%nat) by congruence.
  destruct (@token_fills_one_slot quantize_kv self Hlay Hq key tokk ak _ _ _ _ Hk Hax Tk Sk)
    as (Ek & Lk & _ & _).
  destruct (@token_fills_one_slot quantize_kv self Hlay Hq value tokv av _ _ _ _ Hv Hax Tv Sv)
    as (Ev & Lv & _ & _).
  unfold write_token, ok in Wk, Wv. injection Wk as <-. injection Wv as <-.
  exists pk0, pv0, pids0, ark, arv, arseg, axis, tokk, tokv,
    (at_set_axis ak axis lens tokk), (at_set_axis av axis lens tokv).
  split; [exact Hdec|]. split; [exact Hax|]. split; [exact Tk|]. split; [exact Tv|].
  split; [exact (alloc_key Ha1)|]. split; [exact (alloc_value Ha1)|].
  split; [apply at_set_axis_ragged_written; assumption|].
  split; [apply at_set_axis_ragged_written; assumption|].
  split.
  - intros Hun.
    destruct (@decode_returns_ar ACTIVE quantize_kv unquantize_kv self Hun key value
                true c c2 ak av seg idx lens _ Ha Hdec)
      as (ak' & av' & seg' & Ha' & Eout).
    cbn [snd] in Eout.
    assert (ak' = at_set_axis ak axis lens tokk)
      by (pose proof (alloc_key Ha'); pose proof (alloc_key Ha1); congruence).
    assert (av' = at_set_axis av axis lens tokv)
      by (pose proof (alloc_value Ha'); pose proof (alloc_value Ha1); congruence).
    subst ak' av'. injection Eout as -> -> _. split; reflexivity.
  - exists o1, m1, l1, o2, m2, l2.
    split; [exact K1|]. split; [exact K2|exact N].
Qed.

Lemma entry_point_witness :
  exists res c' ak av,
    __call__ 1 no_quantize no_unquantize plain_kernel example_op
      two_entry_token two_entry_token two_entry_token None
      MODEL_MODE_AUTOREGRESSIVE cache_with_uneven_lengths = (inr res, c') /\
    float_vars cache_with_uneven_lengths cached_ar_key = Some ak /\
    float_vars cache_with_uneven_lengths cached_ar_value = Some av /\
    exists pk pv pids ark arv arseg axis tokk tokv ak' av',
      kv_cache_autoregressive 1 no_quantize no_unquantize example_op
        two_entry_token two_entry_token true cache_with_uneven_lengths
      = (inr ((pk, pv, pids), (ark, arv, arseg, advance_lengths uneven_lengths)), c') /\
      ar_seq_axis example_op = ok axis /\
      token_for_cache no_quantize example_op two_entry_token = ok tokk /\
      token_for_cache no_quantize example_op two_entry_token = ok tokv /\
      float_vars c' cached_ar_key = Some ak' /\
      float_vars c' cached_ar_value = Some av' /\
      ragged_written ak ak' tokk axis uneven_lengths /\
      ragged_written av av' tokv axis uneven_lengths /\
      (quantize_kvcache example_op = false ->
       ark = revert_kv_cache ak' (ar_cache_axis_order example_op) /\
       arv = revert_kv_cache av' (ar_cache_axis_order example_op)) /\
      exists o1 m1 l1 o2 m2 l2,
        plain_kernel two_entry_token pk pv (sum_last_int pids) = (o1, m1, l1) /\
        plain_kernel two_entry_token ark arv (advance_lengths uneven_lengths)
          = (o2, m2, l2) /\
        normalize_attention
          [tmul o1 (expand_dims_last l1); tmul o2 (expand_dims_last l2)]
          [expand_dims_last m1; expand_dims_last m2]
          [expand_dims_last l1; expand_dims_last l2] = ok res.
Proof.
  destruct uneven_lengths_allocated as (ak & av & seg & idx & lens & Ha & _ & _ & Hl).
  subst lens.
  assert (Hok : match fst (__call__ 1 no_quantize no_unquantize plain_kernel
                             example_op two_entry_token two_entry_token
                             two_entry_token None MODEL_MODE_AUTOREGRESSIVE
                             cache_with_uneven_lengths)
                with inl _ => False | inr _ => True end)
    by (vm_compute; exact I).
  destruct (__call__ 1 no_quantize no_unquantize plain_kernel example_op
              two_entry_token two_entry_token two_entry_token None
              MODEL_MODE_AUTOREGRESSIVE cache_with_uneven_lengths)
    as [[e|res] c'] eqn:Hrun; [contradiction Hok|]. clear Hok.
  exists res, c', ak, av.
  split; [reflexivity|]. split; [exact (alloc_key Ha)|].
  split; [exact (alloc_value Ha)|].
  exact (proj2 (@entry_point_always_ragged 1 no_quantize no_unquantize plain_kernel
                  example_op two_entry_token two_entry_token two_entry_token None
                  example_op_standard_layout no_quantize_shape_preserving)
           cache_with_uneven_lengths res c' ak av seg idx uneven_lengths Ha Hrun).
Defined.

(** C10, as stated, fails once a length counter has reached the capacity
    of the region.  After a prompt and two decode calls on [example_op]
    (capacity two) the length counter is 2.  A third decode through
    [__call__] returns, but position 2 lies outside the region and the
    write is dropped: the stored keys are what they were, and no slot
    holds the key of the new token. *)
Lemma entry_point_write_dropped :
  exists res c' ak ak',
    length_of cache_after_two_decodes 0 = Some 2%Z /\
    __call__ 1 no_quantize no_unquantize plain_kernel example_op
      (token 3) (token 3) (token 3) None MODEL_MODE_AUTOREGRESSIVE
      cache_after_two_decodes = (inr res, c') /\
    float_vars cache_after_two_decodes cached_ar_key = Some ak /\
    float_vars c' cached_ar_key = Some ak' /\
    shape ak' = [1; 1; 2; 1]%nat /\
    forall ix, in_bounds ix (shape ak') ->
      at_ ak' ix = at_ ak ix /\ at_ ak' ix <> at_ (token 3) [0; 0; 0; 0]%nat.
Proof.
  do 4 eexists.
  split; [vm_compute; reflexivity|]. split; [vm_compute; reflexivity|].
  split; [vm_compute; reflexivity|]. split; [vm_compute; reflexivity|].
  split; [reflexivity|].
  intros [|i [|j [|k [|l [|? ?]]]]] Hb; cbn in Hb; try tauto.
  destruct Hb as (Hi & Hj & Hk & Hl & _).
  assert (i = 0)%nat by lia. assert (j = 0)%nat by lia. assert (l = 0)%nat by lia.
  subst i j l.
  destruct k as [|[|k]]; [| |lia]; cbn; split; try reflexivity; lra.
Qed.
